(** * kittens/transfer/rsync.c: the streaming driver around librsync

    A shallow embedding of the CPython extension module [rsync] of kitty's
    transfer kitten, and the properties of its job iterator, its capsule
    handling and its patch callback.

    The module is glue between two collaborators that are not part of the
    file: the CPython runtime (objects, reference counts, the error
    indicator, capsules, byte arrays) and librsync (jobs, signatures,
    [rs_job_iter]).  The runtime is modelled concretely, as far as the
    module uses it; librsync is an interface, [librsync], so that every
    statement about the driver holds for every engine.

    Conventions.  C functions are functions on an explicit state, the
    [world]; a function that returns a status or a pointer returns it
    beside the new state, and [NULL] with the error indicator set is a
    raised exception.  Objects live on a heap indexed by address and carry
    their reference count.  A pointer into a buffer is an offset from its
    start.  Allocation by the runtime can fail: the state holds the number
    of allocations that will still succeed.  A Python callable is a
    function of the view and the offset it is called with, and touches
    nothing else.  The calls into the engine are recorded next to the
    state, so that "the engine was not called" can be said. *)

From Stdlib Require Import ZArith Lia List.
From Stdlib.Init Require Import Byte.
From stdpp Require Import base gmap list strings.

Open Scope Z_scope.

(** ** C scalars *)

(** Pointers are addresses; [NULL] is address zero. *)
Definition ptr := Z.
Definition NULL : ptr := 0.

Definition PY_SSIZE_T_MAX : Z := 2 ^ 63 - 1.

(** Conversion to [size_t] (64 bits, unsigned) and to [Py_ssize_t]
    (64 bits, two's complement). *)
Definition to_size_t (z : Z) : Z := z mod 2 ^ 64.
Definition to_Py_ssize_t (z : Z) : Z := (z + 2 ^ 63) mod 2 ^ 64 - 2 ^ 63.

(** Modelled from the spec: the [MAX] macro of data-types.h, which is not
    among the sources; the larger of its two arguments. *)
Definition MAX (x y : Z) : Z := Z.max x y.

Definition SIGNATURE_CAPSULE : string := "rs_signature_t".
Definition JOB_WITH_CALLBACK_CAPSULE : string := "rs_callback_job_t".
Definition IO_BUFFER_SIZE : Z := 64 * 1024.

(** ** librsync's public types *)

(** [rs_result], the return codes of librsync.h. *)
Inductive rs_result : Set :=
  | RS_DONE | RS_BLOCKED | RS_RUNNING | RS_TEST_SKIPPED
  | RS_IO_ERROR | RS_SYNTAX_ERROR | RS_MEM_ERROR | RS_INPUT_ENDED
  | RS_BAD_MAGIC | RS_UNIMPLEMENTED | RS_CORRUPT | RS_INTERNAL_ERROR
  | RS_PARAM_ERROR.

#[global] Instance rs_result_eq_dec : EqDecision rs_result.
Proof. solve_decision. Defined.

(** [rs_buffers_t].  The two cursors are offsets from the start of the
    memory block they point into: [next_in] into the input chunk,
    [next_out] into the output array. *)
Record rs_buffers_t : Set := mk_buffers {
  next_in : Z;
  avail_in : Z;
  eof_in : Z;
  next_out : Z;
  avail_out : Z
}.

(** ** The CPython runtime, as far as the module uses it *)

Inductive exc_type : Set :=
  | PyExc_TypeError | PyExc_ValueError | PyExc_MemoryError
  | PyExc_BufferError | PyExc_OverflowError | PyExc_RuntimeError
  | PyExc_Object (cls : ptr).   (* an exception class living at [cls] *)

#[global] Instance exc_type_eq_dec : EqDecision exc_type.
Proof. solve_decision. Defined.

(** The error indicator holds a class and a message. *)
Definition pyerr : Set := exc_type * string.

(** What a Python callable hands back: a new object or an exception. *)
Inductive pyvalue : Set :=
  | PyLong (n : Z)
  | PyNone
  | PyStr (s : string)
  | PyClass (name : string).

Inductive call_outcome : Set :=
  | Returns (v : pyvalue)
  | Raises (e : pyerr).

(** A Python function as the patch job sees it: it receives a writable
    memory view and an offset, may write into the view, and returns or
    raises.  The first component of the result is the content of the view
    after the call. *)
Definition pyfunction : Set := list byte → Z → list byte * call_outcome.

(** The two capsule destructors of the module, as function pointers. *)
Inductive capsule_destructor : Set :=
  | FP_free_job_with_callback_capsule
  | FP_free_sig_capsule.

(** The objects of the interpreter.  [PyExporter] is an object with the
    buffer protocol other than [bytes] and [bytearray]: a [memoryview], an
    [array.array], an [mmap].  [data] is the memory it exposes, which is
    its own and read-only; [refuses] is the exception with which it answers
    a request for its buffer when it gives none: [BufferError] from a
    memory view that is not C-contiguous, [ValueError] from a released
    memory view or a closed [mmap]. *)
Inductive pykind : Set :=
  | PyCapsule (pointer : ptr) (name : option string) (context : ptr)
              (destructor : option capsule_destructor)
  | PyBytes (data : list byte)
  | PyByteArray (data : list byte) (ob_exports : Z)
  | PyFunction (f : pyfunction)
  | PyObj (v : pyvalue)
  | PyExporter (data : list byte) (refuses : option pyerr).

Record PyObject : Set := mk_obj { ob_refcnt : Z; ob_kind : pykind }.

(** One invocation of a Python callable by [copy_callback]: the callable,
    the memory view passed to it and the offset. *)
Record pycall : Set := mk_pycall {
  call_target : ptr;
  call_view : list byte;
  call_pos : Z
}.

(** The part of the interpreter state that C code running inside the
    engine can change: the error indicator, the number of allocations that
    will still succeed, and the record of the Python calls made so far. *)
Record pyruntime : Set := mk_rt {
  py_err : option pyerr;
  py_allocs : nat;
  py_calls : list pycall
}.

Definition PyErr_SetString (t : exc_type) (msg : string) (rt : pyruntime)
  : pyruntime :=
  mk_rt (Some (t, msg)) (py_allocs rt) (py_calls rt).

Definition PyErr_Clear (rt : pyruntime) : pyruntime :=
  mk_rt None (py_allocs rt) (py_calls rt).

(** An allocation by the runtime: [None] when memory is exhausted. *)
Definition py_alloc (rt : pyruntime) : option pyruntime :=
  match py_allocs rt with
  | O => None
  | S n => Some (mk_rt (py_err rt) n (py_calls rt))
  end.

Definition PyErr_NoMemory (rt : pyruntime) : pyruntime :=
  PyErr_SetString PyExc_MemoryError "" rt.

(** The bytes a buffer pointer obtained from object [o] points to. *)
Definition object_bytes (h : gmap Z PyObject) (o : ptr) : list byte :=
  match h !! o with
  | Some (mk_obj _ (PyBytes d)) => d
  | Some (mk_obj _ (PyByteArray d _)) => d
  | Some (mk_obj _ (PyExporter d _)) => d
  | _ => []
  end.

(** [PyCallable_Check]: the callables among the objects of the model are
    its functions. *)
Definition PyCallable_Check (h : gmap Z PyObject) (o : ptr) : bool :=
  match h !! o with
  | Some (mk_obj _ (PyFunction _)) => true
  | _ => false
  end.

(** [PyLong_AsSize_t]: the value, or [(size_t)-1] with [OverflowError]. *)
Definition PyLong_AsSize_t (n : Z) (rt : pyruntime) : Z * pyruntime :=
  if n <? 0 then
    (2 ^ 64 - 1,
     PyErr_SetString PyExc_OverflowError
       "can't convert negative value to size_t" rt)
  else if 2 ^ 64 <=? n then
    (2 ^ 64 - 1,
     PyErr_SetString PyExc_OverflowError
       "Python int too large to convert to C size_t" rt)
  else (n, rt).

(** [PyObject_CallFunction(callback, "OL", mem, p)]: builds the argument
    tuple, then calls.  The result is the content of the view after the
    call and the object returned, [None] standing for [NULL]. *)
Definition PyObject_CallFunction_OL (h : gmap Z PyObject) (callback : ptr)
    (mem : list byte) (p : Z) (rt : pyruntime)
  : list byte * option pyvalue * pyruntime :=
  match py_alloc rt with
  | None => (mem, None, PyErr_NoMemory rt)
  | Some rt =>
      match h !! callback with
      | Some (mk_obj _ (PyFunction f)) =>
          let rt := mk_rt (py_err rt) (py_allocs rt)
                          (mk_pycall callback mem p :: py_calls rt) in
          match f mem p with
          | (mem', Returns v) => (mem', Some v, rt)
          | (mem', Raises (t, msg)) => (mem', None, PyErr_SetString t msg rt)
          end
      | _ =>
          (mem, None,
           PyErr_SetString PyExc_TypeError "object is not callable" rt)
      end
  end.

(** ** The patch callback *)

(** [copy_callback(opaque, pos, len, buf)].  The arguments [len] and [buf]
    are the values of [*len] and of the memory at [*buf]; the result holds
    the return code, the final [*len] and the memory at [*buf].  The
    memory view covers exactly [len] bytes. *)
Definition copy_callback (h : gmap Z PyObject) (opaque : ptr) (pos : Z)
    (len : Z) (buf : list byte) (rt : pyruntime)
  : rs_result * Z * list byte * pyruntime :=
  let callback := opaque in
  let p := pos in
  match py_alloc rt with   (* mem = PyMemoryView_FromMemory(...) *)
  | None => (RS_MEM_ERROR, len, buf, PyErr_Clear (PyErr_NoMemory rt))
  | Some rt =>
      let mem := resize (Z.to_nat len) Byte.x00 buf in
      let '(mem', res, rt) := PyObject_CallFunction_OL h callback mem p rt in
      let buf' := list_inserts 0 mem' buf in
      match res with
      | None => (RS_IO_ERROR, len, buf', PyErr_Clear rt)
      | Some (PyLong n) =>
          let '(n', rt) := PyLong_AsSize_t n rt in
          (RS_DONE, n', buf', rt)
      | Some _ => (RS_INTERNAL_ERROR, len, buf', rt)
      end
  end.

(** The type of the function pointer that [rs_patch_begin] accepts. *)
Definition rs_copy_cb : Type :=
  gmap Z PyObject → ptr → Z → Z → list byte → pyruntime →
  rs_result * Z * list byte * pyruntime.

(** ** The engine *)

(** librsync as the module sees it.  [rs_state] is everything the library
    owns: jobs, signatures and, for patch jobs, the callback registered
    with [rs_patch_begin].

    [rs_job_iter job buffers input output heap rt st] runs one iteration:
    [input] and [output] are the memory behind the two cursors, and the
    result carries the return code, the updated [rs_buffers_t], the bytes
    stored through [next_out] (starting at its value on entry), and the
    interpreter state left behind by the patch callback.  The engine has
    no other access to the objects of the interpreter. *)
Record librsync : Type := mk_librsync {
  rs_state : Type;
  rs_strerror : rs_result → string;
  rs_loadsig_begin : rs_state → ptr * ptr * rs_state;
  rs_delta_begin : ptr → rs_state → ptr * rs_state;
  rs_patch_begin : rs_copy_cb → ptr → rs_state → ptr * rs_state;
  rs_build_hash_table : ptr → rs_state → rs_result * rs_state;
  rs_job_iter :
    ptr → rs_buffers_t → list byte → list byte → gmap Z PyObject →
    pyruntime → rs_state →
    rs_result * rs_buffers_t * list byte * pyruntime * rs_state;
  rs_job_free : ptr → rs_state → rs_state;
  rs_free_sumset : ptr → rs_state → rs_state
}.

(** The calls made into the engine, newest first.  The record is kept
    beside the program state and is not visible to the program. *)
Inductive engine_call : Set :=
  | Call_rs_job_iter (job : ptr) (before : rs_buffers_t)
                     (result : rs_result) (after : rs_buffers_t)
  | Call_rs_loadsig_begin (job sig : ptr)
  | Call_rs_delta_begin (sig job : ptr)
  | Call_rs_patch_begin (opaque job : ptr)
  | Call_rs_build_hash_table (sig : ptr) (result : rs_result)
  | Call_rs_job_free (job : ptr)
  | Call_rs_free_sumset (sig : ptr).

(** [Py_buffer]: the exporting object ([NULL] once released) and the
    length; the [buf] pointer is the start of the object's bytes. *)
Record Py_buffer : Set := mk_pybuf { buf_obj : ptr; buf_len : Z }.

Section Driver.

Context {E : librsync}.

(** The whole state: the objects of the interpreter, its runtime, the
    module global [RsyncError], the engine, and the record of calls. *)
Record world : Type := mk_world {
  heap : gmap Z PyObject;
  rt : pyruntime;
  RsyncError : ptr;
  engine : rs_state E;
  log : list engine_call
}.

Definition set_heap (h : gmap Z PyObject) (w : world) : world :=
  mk_world h (rt w) (RsyncError w) (engine w) (log w).

Definition set_rt (r : pyruntime) (w : world) : world :=
  mk_world (heap w) r (RsyncError w) (engine w) (log w).

Definition raise (t : exc_type) (msg : string) (w : world) : world :=
  set_rt (PyErr_SetString t msg (rt w)) w.

(** An engine call: the new engine state and one more entry in the record. *)
Definition called (c : engine_call) (e : rs_state E) (w : world) : world :=
  mk_world (heap w) (rt w) (RsyncError w) e (c :: log w).

(** *** Reference counts *)

Definition Py_INCREF (w : world) (o : ptr) : world :=
  match heap w !! o with
  | Some (mk_obj n k) => set_heap (<[o := mk_obj (n + 1) k]> (heap w)) w
  | None => w
  end.

(** [Py_DECREF] of an object whose deallocation runs no capsule destructor. *)
Definition Py_DECREF_object (w : world) (o : ptr) : world :=
  match heap w !! o with
  | Some (mk_obj n k) =>
      if n <=? 1 then set_heap (delete o (heap w)) w
      else set_heap (<[o := mk_obj (n - 1) k]> (heap w)) w
  | None => w
  end.

(** *** Capsules (capsule.c) *)

Definition fresh_addr (h : gmap Z PyObject) : ptr := fresh ({[NULL]} ∪ dom h).

Definition is_legal_capsule (h : gmap Z PyObject) (o : ptr) : bool :=
  match h !! o with
  | Some (mk_obj _ (PyCapsule p _ _ _)) => negb (p =? NULL)
  | _ => false
  end.

Definition name_matches (name1 name2 : option string) : bool :=
  bool_decide (name1 = name2).

Definition capsule_name (h : gmap Z PyObject) (o : ptr) : option string :=
  match h !! o with
  | Some (mk_obj _ (PyCapsule _ nm _ _)) => nm
  | _ => None
  end.

Definition capsule_pointer (h : gmap Z PyObject) (o : ptr) : ptr :=
  match h !! o with
  | Some (mk_obj _ (PyCapsule p _ _ _)) => p
  | _ => NULL
  end.

Definition capsule_context (h : gmap Z PyObject) (o : ptr) : ptr :=
  match h !! o with
  | Some (mk_obj _ (PyCapsule _ _ c _)) => c
  | _ => NULL
  end.

Definition PyCapsule_New (w : world) (pointer : ptr) (name : option string)
    (destructor : option capsule_destructor) : world * ptr :=
  if pointer =? NULL then
    (raise PyExc_ValueError "PyCapsule_New called with null pointer" w, NULL)
  else
    match py_alloc (rt w) with
    | None => (set_rt (PyErr_NoMemory (rt w)) w, NULL)
    | Some r =>
        let o := fresh_addr (heap w) in
        let c := mk_obj 1 (PyCapsule pointer name NULL destructor) in
        (set_heap (<[o := c]> (heap w)) (set_rt r w), o)
    end.

Definition PyCapsule_IsValid (w : world) (o : ptr) (name : option string)
  : bool :=
  is_legal_capsule (heap w) o && name_matches (capsule_name (heap w) o) name.

Definition PyCapsule_GetPointer (w : world) (o : ptr) (name : option string)
  : world * ptr :=
  if negb (is_legal_capsule (heap w) o) then
    (raise PyExc_ValueError
       "PyCapsule_GetPointer called with invalid PyCapsule object" w, NULL)
  else if negb (name_matches name (capsule_name (heap w) o)) then
    (raise PyExc_ValueError
       "PyCapsule_GetPointer called with incorrect name" w, NULL)
  else (w, capsule_pointer (heap w) o).

Definition PyCapsule_GetContext (w : world) (o : ptr) : world * ptr :=
  if negb (is_legal_capsule (heap w) o) then
    (raise PyExc_ValueError
       "PyCapsule_GetContext called with invalid PyCapsule object" w, NULL)
  else (w, capsule_context (heap w) o).

Definition PyCapsule_SetPointer (w : world) (o : ptr) (pointer : ptr)
  : world * Z :=
  if pointer =? NULL then
    (raise PyExc_ValueError "PyCapsule_SetPointer called with null pointer" w,
     -1)
  else
    match heap w !! o with
    | Some (mk_obj n (PyCapsule p nm c d)) =>
        if p =? NULL then
          (raise PyExc_ValueError
             "PyCapsule_SetPointer called with invalid PyCapsule object" w, -1)
        else
          (set_heap (<[o := mk_obj n (PyCapsule pointer nm c d)]> (heap w)) w,
           0)
    | _ =>
        (raise PyExc_ValueError
           "PyCapsule_SetPointer called with invalid PyCapsule object" w, -1)
    end.

Definition PyCapsule_SetContext (w : world) (o : ptr) (context : ptr)
  : world * Z :=
  match heap w !! o with
  | Some (mk_obj n (PyCapsule p nm c d)) =>
      if p =? NULL then
        (raise PyExc_ValueError
           "PyCapsule_SetContext called with invalid PyCapsule object" w, -1)
      else
        (set_heap (<[o := mk_obj n (PyCapsule p nm context d)]> (heap w)) w, 0)
  | _ =>
      (raise PyExc_ValueError
         "PyCapsule_SetContext called with invalid PyCapsule object" w, -1)
  end.

(** *** The destructors of the module *)

(** [free_job_with_callback_capsule].  The context of a job capsule is the
    callable stored by [begin_patch], whose own deallocation runs no
    capsule destructor. *)
Definition free_job_with_callback_capsule (w : world) (capsule : ptr)
  : world :=
  if PyCapsule_IsValid w capsule (Some JOB_WITH_CALLBACK_CAPSULE) then
    let '(w, job) :=
      PyCapsule_GetPointer w capsule (Some JOB_WITH_CALLBACK_CAPSULE) in
    let w :=
      if negb (job =? NULL) && negb (job =? RsyncError w) then
        called (Call_rs_job_free job) (rs_job_free E job (engine w)) w
      else w in
    let '(w, callback) := PyCapsule_GetContext w capsule in
    if callback =? NULL then w else Py_DECREF_object w callback
  else w.

Definition free_sig_capsule (w : world) (capsule : ptr) : world :=
  let '(w, sig) := PyCapsule_GetPointer w capsule (Some SIGNATURE_CAPSULE) in
  if sig =? NULL then w
  else called (Call_rs_free_sumset sig) (rs_free_sumset E sig (engine w)) w.

(** [Py_DECREF]: at zero a capsule runs its destructor, then the object
    is freed. *)
Definition Py_DECREF (w : world) (o : ptr) : world :=
  match heap w !! o with
  | Some (mk_obj n k) =>
      if n <=? 1 then
        let w :=
          match k with
          | PyCapsule _ _ _ (Some FP_free_job_with_callback_capsule) =>
              free_job_with_callback_capsule w o
          | PyCapsule _ _ _ (Some FP_free_sig_capsule) =>
              free_sig_capsule w o
          | _ => w
          end in
        set_heap (delete o (heap w)) w
      else set_heap (<[o := mk_obj (n - 1) k]> (heap w)) w
  | None => w
  end.

(** [CREATE_JOB(func, cb, ...)].  [func] is the engine's constructor
    applied to its arguments; besides the job it yields the values of its
    out-parameters, [out0] being their initial value.  The result is the
    final value of [job_capsule]. *)
Definition CREATE_JOB {A : Type} (func : world → world * ptr * A) (out0 : A)
    (cb : ptr) (w : world) : world * ptr * A :=
  let '(w, job_capsule) :=
    PyCapsule_New w (RsyncError w) (Some JOB_WITH_CALLBACK_CAPSULE)
      (Some FP_free_job_with_callback_capsule) in
  if job_capsule =? NULL then (w, NULL, out0)
  else
    let '(w, job, out) := func w in
    if job =? NULL then (Py_DECREF w job_capsule, NULL, out)
    else
      let '(w, rc) := PyCapsule_SetPointer w job_capsule job in
      if rc =? 0 then
        if cb =? NULL then (w, job_capsule, out)
        else
          let '(w, rc) := PyCapsule_SetContext w job_capsule cb in
          if rc =? 0 then (Py_INCREF w cb, job_capsule, out)
          else (Py_DECREF w job_capsule, NULL, out)
      else
        let w := called (Call_rs_job_free job) (rs_job_free E job (engine w)) w in
        (Py_DECREF w job_capsule, NULL, out).

(** *** The buffer protocol and byte arrays *)

(** [PyObject_GetBuffer(o, &view, flags)], [writable] standing for
    [PyBUF_WRITE]; the other flags of a request are those of [PyBUF_SIMPLE].
    An object without the buffer protocol is refused with [TypeError]; an
    object with the protocol answers itself, and the exception it sets when
    it gives no buffer is its own.  A byte array counts its exports.  The
    reference that the view holds on its object is not modelled: the
    argument tuple of the caller keeps the object alive during the
    call. *)
Definition PyObject_GetBuffer (w : world) (o : ptr) (writable : bool)
  : world * Z * Py_buffer :=
  match heap w !! o with
  | Some (mk_obj n (PyByteArray d e)) =>
      (set_heap (<[o := mk_obj n (PyByteArray d (e + 1))]> (heap w)) w, 0,
       mk_pybuf o (Z.of_nat (length d)))
  | Some (mk_obj n (PyBytes d)) =>
      if writable then
        (raise PyExc_BufferError "Object is not writable." w, -1,
         mk_pybuf NULL 0)
      else (w, 0, mk_pybuf o (Z.of_nat (length d)))
  | Some (mk_obj n (PyExporter d refuses)) =>
      match refuses with
      | Some (t, msg) => (raise t msg w, -1, mk_pybuf NULL 0)
      | None =>
          if writable then
            (raise PyExc_BufferError "Object is not writable." w, -1,
             mk_pybuf NULL 0)
          else (w, 0, mk_pybuf o (Z.of_nat (length d)))
      end
  | _ =>
      (raise PyExc_TypeError "a bytes-like object is required" w, -1,
       mk_pybuf NULL 0)
  end.

(** [PyBuffer_Release(&view)]: nothing to do for a view that holds no
    object; otherwise the export is given back and the view is cleared. *)
Definition PyBuffer_Release (w : world) (view : Py_buffer)
  : world * Py_buffer :=
  if buf_obj view =? NULL then (w, view)
  else
    match heap w !! buf_obj view with
    | Some (mk_obj n (PyByteArray d e)) =>
        (set_heap (<[buf_obj view := mk_obj n (PyByteArray d (e - 1))]> (heap w))
           w,
         mk_pybuf NULL (buf_len view))
    | _ => (w, mk_pybuf NULL (buf_len view))
    end.

Definition PyByteArray_GET_SIZE (w : world) (o : ptr) : Z :=
  Z.of_nat (length (object_bytes (heap w) o)).

(** [PyByteArray_Resize(o, requested)].  A negative size is refused; an
    array with exports cannot change size; growing allocates.  The first
    [min old new] bytes are kept.  The runtime leaves the bytes added
    unspecified; here they read as zero, and no statement rests on their
    value. *)
Definition PyByteArray_Resize (w : world) (o : ptr) (requested : Z)
  : world * Z :=
  match heap w !! o with
  | Some (mk_obj n (PyByteArray d e)) =>
      if requested <? 0 then
        (raise PyExc_ValueError "Can only resize to positive sizes" w, -1)
      else if requested =? Z.of_nat (length d) then (w, 0)
      else if 0 <? e then
        (raise PyExc_BufferError
           "Existing exports of data: object cannot be re-sized" w, -1)
      else
        let d' := resize (Z.to_nat requested) Byte.x00 d in
        let stored w := set_heap (<[o := mk_obj n (PyByteArray d' e)]> (heap w)) w in
        if requested <? Z.of_nat (length d) then (stored w, 0)
        else
          match py_alloc (rt w) with
          | None => (set_rt (PyErr_NoMemory (rt w)) w, -1)
          | Some r => (stored (set_rt r w), 0)
          end
  | _ => (raise PyExc_TypeError "bad argument type for built-in operation" w, -1)
  end.

(** The bytes [bs] stored into the memory of byte array [o] from offset
    [off] on; the array keeps its size. *)
Definition store_bytes (w : world) (o : ptr) (off : Z) (bs : list byte)
  : world :=
  match heap w !! o with
  | Some (mk_obj n (PyByteArray d e)) =>
      if off <? 0 then w
      else
        set_heap
          (<[o := mk_obj n (PyByteArray (list_inserts (Z.to_nat off) bs d) e)]>
             (heap w)) w
  | _ => w
  end.

(** *** Argument parsing *)

Definition is_capsule (h : gmap Z PyObject) (o : ptr) : bool :=
  match h !! o with
  | Some (mk_obj _ (PyCapsule _ _ _ _)) => true
  | _ => false
  end.

Definition is_bytearray (h : gmap Z PyObject) (o : ptr) : bool :=
  match h !! o with
  | Some (mk_obj _ (PyByteArray _ _)) => true
  | _ => false
  end.

(** [PyArg_ParseTuple(args, "O!", &PyCapsule_Type, &capsule)]. *)
Definition PyArg_ParseTuple_capsule (w : world) (args : list ptr)
  : world * option ptr :=
  match args with
  | [a] =>
      if is_capsule (heap w) a then (w, Some a)
      else (raise PyExc_TypeError "argument 1 must be PyCapsule" w, None)
  | _ => (raise PyExc_TypeError "function takes exactly 1 argument" w, None)
  end.

(** [PyArg_ParseTuple(args, "O!y*O!", &PyCapsule_Type, &job_capsule,
    &input_buf, &PyByteArray_Type, &output_array)].  The arguments are
    converted in order.  Format [y*] takes the buffer of any object that
    gives one, and when the object refuses, the exception it has set is the
    one that stays.  A view acquired for the second argument is given back
    when the third is refused. *)
Definition PyArg_ParseTuple_iter_job (w : world) (args : list ptr)
  : world * option (ptr * Py_buffer * ptr) :=
  match args with
  | [a0; a1; a2] =>
      if negb (is_capsule (heap w) a0) then
        (raise PyExc_TypeError "argument 1 must be PyCapsule" w, None)
      else
        let '(w, rc, input_buf) := PyObject_GetBuffer w a1 false in
        if negb (rc =? 0) then (w, None)
        else if negb (is_bytearray (heap w) a2) then
          let '(w, _) := PyBuffer_Release w input_buf in
          (raise PyExc_TypeError "argument 3 must be bytearray" w, None)
        else (w, Some (a0, input_buf, a2))
  | _ => (raise PyExc_TypeError "function takes exactly 3 arguments" w, None)
  end.

(** [GET_JOB_FROM_CAPSULE] and [GET_SIG_FROM_CAPSULE]: the pointer, or
    [NULL] with [TypeError] set, upon which the caller returns [NULL]. *)
Definition GET_JOB_FROM_CAPSULE (w : world) (job_capsule : ptr) : world * ptr :=
  let '(w, job) :=
    PyCapsule_GetPointer w job_capsule (Some JOB_WITH_CALLBACK_CAPSULE) in
  if job =? NULL then (raise PyExc_TypeError "Not a job capsule" w, NULL)
  else (w, job).

Definition GET_SIG_FROM_CAPSULE (w : world) (sig_capsule : ptr) : world * ptr :=
  let '(w, sig) := PyCapsule_GetPointer w sig_capsule (Some SIGNATURE_CAPSULE) in
  if sig =? NULL then (raise PyExc_TypeError "Not a sig capsule" w, NULL)
  else (w, sig).

(** *** iter_job *)

(** The variables of [iter_job] that the loop changes. *)
Record loop_state : Type := mk_loop {
  ls_buffer : rs_buffers_t;
  ls_output_size : Z;
  ls_output_buf : Py_buffer;
  ls_world : world
}.

(** How one pass through the body of [while (true)] ends: [continue],
    [break] with the value of [result], or [return NULL]. *)
Inductive loop_outcome : Type :=
  | Continue (s : loop_state)
  | Break (result : rs_result) (s : loop_state)
  | ReturnNULL (s : loop_state).

(** [result = rs_job_iter(job, &buffer)]: the engine reads the input
    chunk through [next_in] and stores into the output array through
    [next_out]. *)
Definition call_rs_job_iter (w : world) (job : ptr) (buffer : rs_buffers_t)
    (input output_array : ptr) : rs_result * rs_buffers_t * world :=
  let '(result, buffer', written, r, e) :=
    rs_job_iter E job buffer (object_bytes (heap w) input)
      (object_bytes (heap w) output_array) (heap w) (rt w) (engine w) in
  let w := store_bytes (set_rt r w) output_array (next_out buffer) written in
  (result, buffer', called (Call_rs_job_iter job buffer result buffer') e w).

(** The new size asked for when the output array has to grow. *)
Definition grown_size (w : world) (output_array : ptr) : Z :=
  to_Py_ssize_t
    (MAX IO_BUFFER_SIZE (to_size_t (PyByteArray_GET_SIZE w output_array * 2))).

(** Lines 102 to 107: the output array grows, the view on it is taken
    anew, and the output cursor is put behind what has been produced; the
    input cursor stays as the engine left it. *)
Definition grow_output (output_array : ptr) (buffer : rs_buffers_t)
    (output_size : Z) (output_buf : Py_buffer) (w : world) : loop_outcome :=
  let '(w, output_buf) := PyBuffer_Release w output_buf in
  let '(w, rc) :=
    PyByteArray_Resize w output_array (grown_size w output_array) in
  if negb (rc =? 0) then ReturnNULL (mk_loop buffer output_size output_buf w)
  else
    let '(w, rc, output_buf) := PyObject_GetBuffer w output_array true in
    if negb (rc =? 0) then ReturnNULL (mk_loop buffer output_size output_buf w)
    else
      let buffer :=
        mk_buffers (next_in buffer) (avail_in buffer) (eof_in buffer)
          output_size (to_size_t (buf_len output_buf - output_size)) in
      Continue (mk_loop buffer output_size output_buf w).

(** The body of the loop, lines 97 to 110. *)
Definition iter_job_body (job : ptr) (input_buf : Py_buffer)
    (output_array : ptr) (s : loop_state) : loop_outcome :=
  let buffer := ls_buffer s in
  let before := avail_out buffer in
  let '(result, buffer, w) :=
    call_rs_job_iter (ls_world s) job buffer (buf_obj input_buf) output_array in
  let output_size :=
    to_Py_ssize_t (ls_output_size s + to_size_t (before - avail_out buffer)) in
  let output_buf := ls_output_buf s in
  if bool_decide (result = RS_DONE) || bool_decide (result = RS_BLOCKED) then
    Break result (mk_loop buffer output_size output_buf w)
  else if negb (avail_in buffer =? 0) then
    grow_output output_array buffer output_size output_buf w
  else
    ReturnNULL
      (mk_loop buffer output_size output_buf
         (raise (PyExc_Object (RsyncError w)) (rs_strerror E result) w)).

(** The loop, run for at most [fuel] passes; [None] when the passes are
    used up before the loop is left. *)
Fixpoint iter_job_loop (fuel : nat) (job : ptr) (input_buf : Py_buffer)
    (output_array : ptr) (s : loop_state) : option loop_outcome :=
  match fuel with
  | O => None
  | S fuel =>
      match iter_job_body job input_buf output_array s with
      | Continue s' => iter_job_loop fuel job input_buf output_array s'
      | out => Some out
      end
  end.

(** [FREE_BUFFER_AFTER_FUNCTION]: both views are released on every way
    out of the function, the later declaration first. *)
Definition release_buffers (w : world) (input_buf output_buf : Py_buffer)
  : world :=
  let '(w, _) := PyBuffer_Release w output_buf in
  let '(w, _) := PyBuffer_Release w input_buf in
  w.

(** [Py_BuildValue("Onn", ...)]: the tuple is represented by its three
    components, [None] standing for [NULL]. *)
Definition Py_BuildValue_Onn (w : world) (b : bool) (n1 n2 : Z)
  : world * option (bool * Z * Z) :=
  match py_alloc (rt w) with
  | None => (set_rt (PyErr_NoMemory (rt w)) w, None)
  | Some r => (set_rt r w, Some (b, n1, n2))
  end.

(** Lines 89 to 93: [eof], and the buffers handed to the first
    iteration. *)
Definition entry_buffers (input_buf output_buf : Py_buffer) : rs_buffers_t :=
  let eof := if 0 <? buf_len input_buf then 0 else 1 in
  mk_buffers 0 (to_size_t (buf_len input_buf)) eof
    0 (to_size_t (buf_len output_buf)).

(** The first part of [iter_job], lines 83 to 95: the arguments, the job,
    the view on the output array and the initial values of the variables
    of the loop.  [None] stands for [return NULL]; otherwise the result is
    [job], [input_buf], [output_array] and the state on entry to the loop. *)
Definition iter_job_prologue (w : world) (args : list ptr)
  : world * option (ptr * Py_buffer * ptr * loop_state) :=
  match PyArg_ParseTuple_iter_job w args with
  | (w, None) => (w, None)
  | (w, Some (job_capsule, input_buf, output_array)) =>
      let output_buf := mk_pybuf NULL 0 in
      let '(w, job) := GET_JOB_FROM_CAPSULE w job_capsule in
      if job =? NULL then (release_buffers w input_buf output_buf, None)
      else
        let '(w, rc, output_buf) := PyObject_GetBuffer w output_array true in
        if negb (rc =? 0) then (release_buffers w input_buf output_buf, None)
        else
          let buffer := entry_buffers input_buf output_buf in
          (w, Some (job, input_buf, output_array, mk_loop buffer 0 output_buf w))
  end.

(** [iter_job(self, args)]. *)
Definition iter_job (fuel : nat) (w : world) (args : list ptr)
  : option (world * option (bool * Z * Z)) :=
  match iter_job_prologue w args with
  | (w, None) => Some (w, None)
  | (_, Some (job, input_buf, output_array, s)) =>
      match iter_job_loop fuel job input_buf output_array s with
      | None => None
      | Some (Continue s) | Some (ReturnNULL s) =>
          Some (release_buffers (ls_world s) input_buf (ls_output_buf s), None)
      | Some (Break result s) =>
          let unused_input := to_Py_ssize_t (avail_in (ls_buffer s)) in
          let '(w, ret) :=
            Py_BuildValue_Onn (ls_world s) (bool_decide (result = RS_DONE))
              unused_input (ls_output_size s) in
          Some (release_buffers w input_buf (ls_output_buf s), ret)
      end
  end.

(** *** The other functions of the module *)

(** [begin_load_signature(self, args)]; the pair stands for the tuple
    built by [Py_BuildValue("NN", job_capsule, sc)], which gives both
    references back when it fails. *)
Definition begin_load_signature (w : world) : world * option (ptr * ptr) :=
  let func w :=
    let '(job, sig, e) := rs_loadsig_begin E (engine w) in
    (called (Call_rs_loadsig_begin job sig) e w, job, sig) in
  let '(w, job_capsule, sig) := CREATE_JOB func NULL NULL w in
  if job_capsule =? NULL then
    (called (Call_rs_free_sumset sig) (rs_free_sumset E sig (engine w)) w, None)
  else
    let '(w, sc) :=
      PyCapsule_New w sig (Some SIGNATURE_CAPSULE) (Some FP_free_sig_capsule) in
    if sc =? NULL then
      let w := Py_DECREF w job_capsule in
      (called (Call_rs_free_sumset sig) (rs_free_sumset E sig (engine w)) w,
       None)
    else
      match py_alloc (rt w) with
      | None =>
          let w := set_rt (PyErr_NoMemory (rt w)) w in
          (Py_DECREF (Py_DECREF w job_capsule) sc, None)
      | Some r => (set_rt r w, Some (job_capsule, sc))
      end.

(** [build_hash_table(self, args)]; [Some PyNone] is [Py_RETURN_NONE]. *)
Definition build_hash_table (w : world) (args : list ptr)
  : world * option pyvalue :=
  match PyArg_ParseTuple_capsule w args with
  | (w, None) => (w, None)
  | (w, Some sig_capsule) =>
      let '(w, sig) := GET_SIG_FROM_CAPSULE w sig_capsule in
      if sig =? NULL then (w, None)
      else
        let '(res, e) := rs_build_hash_table E sig (engine w) in
        let w := called (Call_rs_build_hash_table sig res) e w in
        if negb (bool_decide (res = RS_DONE)) then
          (raise (PyExc_Object (RsyncError w)) (rs_strerror E res) w, None)
        else (w, Some PyNone)
  end.

(** [begin_create_delta(self, args)]; the result is [job_capsule]. *)
Definition begin_create_delta (w : world) (args : list ptr) : world * ptr :=
  match PyArg_ParseTuple_capsule w args with
  | (w, None) => (w, NULL)
  | (w, Some sig_capsule) =>
      let '(w, sig) := GET_SIG_FROM_CAPSULE w sig_capsule in
      if sig =? NULL then (w, NULL)
      else
        let func w :=
          let '(job, e) := rs_delta_begin E sig (engine w) in
          (called (Call_rs_delta_begin sig job) e w, job, tt) in
        let '(w, job_capsule, _) := CREATE_JOB func tt NULL w in
        (w, job_capsule)
  end.

(** [begin_patch(self, callback)]; the result is [job_capsule]. *)
Definition begin_patch (w : world) (callback : ptr) : world * ptr :=
  if negb (PyCallable_Check (heap w) callback) then
    (raise PyExc_TypeError "callback must be a callable" w, NULL)
  else
    let func w :=
      let '(job, e) := rs_patch_begin E copy_callback callback (engine w) in
      (called (Call_rs_patch_begin callback job) e w, job, tt) in
    let '(w, job_capsule, _) := CREATE_JOB func tt callback w in
    (w, job_capsule).

End Driver.

Arguments world : clear implicits.
Arguments loop_state : clear implicits.
Arguments loop_outcome : clear implicits.

(** A job capsule as [CREATE_JOB] leaves it: one reference, the job, the
    callback as context. *)
Definition job_capsule_obj (job cb : ptr) : PyObject :=
  mk_obj 1
    (PyCapsule job (Some JOB_WITH_CALLBACK_CAPSULE) cb
       (Some FP_free_job_with_callback_capsule)).

(** ** A scripted engine

    An engine for running the driver on concrete inputs.  Its state holds a
    script: each call of [rs_job_iter] takes the next entry, consumes at
    most [consume] bytes of input, stores at most [emit] into the output
    space and answers [reply].  An entry with [basis = Some (pos, len)]
    first asks the copy callback registered by [rs_patch_begin] for [len]
    bytes of the basis at [pos], as a patch job does for a copy command: a
    return code other than [RS_DONE] ends the iteration with that code,
    otherwise the bytes supplied are what is stored.  When the script is
    used up every job is finished and answers [RS_DONE].  Handles are
    handed out in sequence. *)
Module Scripted.

Record step : Type := mk_step {
  consume : Z;
  emit : list byte;
  reply : rs_result;
  basis : option (Z * Z)
}.

Record state : Type := mk_state {
  script : list step;
  next_handle : ptr;
  copy_cb : option (rs_copy_cb * ptr)
}.

Definition strerror (r : rs_result) : string :=
  match r with
  | RS_DONE => "OK"
  | RS_RUNNING => "still running"
  | RS_BLOCKED => "blocked waiting for input or output buffers"
  | RS_BAD_MAGIC => "bad magic number at start of stream"
  | RS_INPUT_ENDED => "unexpected end of input"
  | RS_CORRUPT => "stream corrupt"
  | RS_UNIMPLEMENTED => "unimplemented case"
  | RS_MEM_ERROR => "out of memory"
  | RS_IO_ERROR => "IO error"
  | RS_SYNTAX_ERROR => "bad command line syntax"
  | RS_INTERNAL_ERROR => "library internal error"
  | _ => "unexplained problem"
  end.

Definition new_handle (st : state) : ptr * state :=
  (next_handle st, mk_state (script st) (next_handle st + 1) (copy_cb st)).

Definition loadsig_begin (st : state) : ptr * ptr * state :=
  let '(job, st) := new_handle st in
  let '(sig, st) := new_handle st in
  (job, sig, st).

Definition delta_begin (sig : ptr) (st : state) : ptr * state := new_handle st.

Definition patch_begin (cb : rs_copy_cb) (opaque : ptr) (st : state)
  : ptr * state :=
  let '(job, st) := new_handle st in
  (job, mk_state (script st) (next_handle st) (Some (cb, opaque))).

Definition hash_table (sig : ptr) (st : state) : rs_result * state :=
  (RS_DONE, st).

(** The end of an iteration: [k] bytes are consumed and [out] is stored. *)
Definition advance (b : rs_buffers_t) (wanted : Z) (bytes : list byte)
  : rs_buffers_t * list byte :=
  let k := Z.max 0 (Z.min wanted (avail_in b)) in
  let out := take (Z.to_nat (avail_out b)) bytes in
  let n := Z.of_nat (length out) in
  (mk_buffers (next_in b + k) (avail_in b - k) (eof_in b)
     (next_out b + n) (avail_out b - n), out).

Definition job_iter (job : ptr) (b : rs_buffers_t) (input output : list byte)
    (h : gmap Z PyObject) (r : pyruntime) (st : state)
  : rs_result * rs_buffers_t * list byte * pyruntime * state :=
  match script st with
  | [] => (RS_DONE, b, [], r, st)
  | s :: rest =>
      let st := mk_state rest (next_handle st) (copy_cb st) in
      match basis s, copy_cb st with
      | Some (pos, len), Some (cb, opaque) =>
          let len := Z.max 0 (Z.min len (avail_out b)) in
          let window := take (Z.to_nat len) (drop (Z.to_nat (next_out b)) output) in
          let '(code, len', window, r) := cb h opaque pos len window r in
          if bool_decide (code = RS_DONE) then
            let '(b, out) :=
              advance b (consume s) (take (Z.to_nat (Z.min len' len)) window) in
            (reply s, b, out, r, st)
          else (code, b, [], r, st)
      | _, _ =>
          let '(b, out) := advance b (consume s) (emit s) in
          (reply s, b, out, r, st)
      end
  end.

Definition scripted : librsync :=
  mk_librsync state strerror loadsig_begin delta_begin patch_begin
    hash_table job_iter (λ _ st, st) (λ _ st, st).

(** A world for the examples: the exception class [RsyncError] at address
    1, then the objects [objs]; room for [allocs] allocations; the script
    [sc]. *)
Definition boot (objs : list (Z * PyObject)) (allocs : nat) (sc : list step)
  : world scripted :=
  mk_world (E := scripted)
    (list_to_map ((1, mk_obj 1 (PyObj (PyClass "rsync.RsyncError"))) :: objs))
    (mk_rt None allocs []) 1 (mk_state sc 100 None) [].

(** The objects of the examples: the job capsule 10 around the job 100,
    the chunk 11 of three bytes, the output array 12 of two bytes, the
    empty chunk 13, the signature capsule 14, a capsule 15 of some other
    module, a callable 20 that raises and a callable 21 that claims to
    have supplied nine bytes. *)
Definition objects : list (Z * PyObject) :=
  [(10, job_capsule_obj 100 NULL);
   (11, mk_obj 1 (PyBytes ["a"; "b"; "c"]%byte));
   (12, mk_obj 1 (PyByteArray [Byte.x00; Byte.x00] 0));
   (13, mk_obj 1 (PyBytes []));
   (14, mk_obj 1 (PyCapsule 101 (Some SIGNATURE_CAPSULE) NULL
                    (Some FP_free_sig_capsule)));
   (15, mk_obj 1 (PyCapsule 102 (Some "other") NULL None));
   (20, mk_obj 1 (PyFunction
                    (λ mem _, (mem, Raises (PyExc_RuntimeError, "no basis")))));
   (21, mk_obj 1 (PyFunction (λ mem _, (mem, Returns (PyLong 9)))))].

(** The world a call leaves behind, and what a caller sees of a step
    together with the record of engine calls and the error indicator. *)
Definition after {A : Type} (r : option (world scripted * A)) (w : world scripted)
  : world scripted :=
  match r with Some (w', _) => w' | None => w end.

Definition observe (r : option (world scripted * option (bool * Z * Z)))
  : option (option (bool * Z * Z) * list engine_call * option pyerr) :=
  match r with
  | Some (w, ret) => Some (ret, log w, py_err (rt w))
  | None => None
  end.

(** A job that runs out of output space after one byte of input, then
    finishes. *)
Definition growing : world scripted :=
  boot objects 5
    [mk_step 1 ["A"; "B"; "C"]%byte RS_RUNNING None;
     mk_step 5 ["D"]%byte RS_DONE None].

(** A job that finds its input corrupt after reading all of it. *)
Definition corrupt : world scripted :=
  boot objects 5 [mk_step 3 [] RS_CORRUPT None].

(** A job that rejects the first byte of its input. *)
Definition bad_magic : world scripted :=
  boot objects 5 [mk_step 1 [] RS_BAD_MAGIC None].

(** A job that turns three bytes of input into two bytes of output. *)
Definition copying : world scripted :=
  boot objects 5 [mk_step 3 ["x"; "y"]%byte RS_DONE None].

(** Nothing scripted: every job is finished. *)
Definition idle : world scripted := boot objects 5 [].

(** The job of [copying] after the step that finished it, and the same
    world once [iter_job] has taken its arguments for a further step with
    the empty chunk. *)
Definition finished : world scripted :=
  after (iter_job 1 copying [10; 11; 12]) copying.

Definition entered : world scripted :=
  (iter_job_prologue finished [10; 13; 12]).1.

(** A signature fresh from [begin_load_signature]: the job capsule is
    object 22, the signature capsule object 23. *)
Definition loaded : world scripted := (begin_load_signature idle).1.

(** A patch job, object 22, whose data source is the callable 21; its
    only command copies four bytes of the basis from offset 0. *)
Definition patching : world scripted :=
  (begin_patch (boot objects 9 [mk_step 3 [] RS_DONE (Some (0, 4))]) 21).1.

(** The same patch job with the callable 20, which raises, as its data
    source. *)
Definition failing_source : world scripted :=
  (begin_patch (boot objects 9 [mk_step 3 [] RS_DONE (Some (0, 4))]) 20).1.

(** The objects, and beside them two memory views of two bytes: 16 is
    not C-contiguous, being a slice with a step, and 17 is. *)
Definition viewing : world scripted :=
  boot (objects
          ++ [(16, mk_obj 1
                     (PyExporter ["a"; "c"]%byte
                        (Some (PyExc_BufferError,
                               "memoryview: underlying buffer is not C-contiguous"))));
              (17, mk_obj 1 (PyExporter ["a"; "c"]%byte None))])
    5 [].

(** The loop of [iter_job] on [growing], about to make its first pass: the
    view on the output array is held. *)
Definition growing_entered : loop_state scripted :=
  mk_loop (mk_buffers 0 3 0 0 2) 0 (mk_pybuf 12 2)
    (iter_job_prologue growing [10; 11; 12]).1.

(** The same with the output array as the input chunk too. *)
Definition aliased_entered : loop_state scripted :=
  mk_loop (mk_buffers 0 2 0 0 2) 0 (mk_pybuf 12 2)
    (iter_job_prologue growing [10; 12; 12]).1.

End Scripted.

(** ** Vocabulary for the statements *)

(** The output space used up by one engine call. *)
Definition produced (c : engine_call) : Z :=
  match c with
  | Call_rs_job_iter _ b _ b' => avail_out b - avail_out b'
  | _ => 0
  end.

Definition total_produced (calls : list engine_call) : Z :=
  foldr (λ c acc, produced c + acc) 0 calls.

(** [engine_answer E job b r b']: some call [rs_job_iter(job, &buffers)]
    with the buffers [b] answers [r] and leaves the buffers [b']. *)
Definition engine_answer (E : librsync) (job : ptr) (b : rs_buffers_t)
    (r : rs_result) (b' : rs_buffers_t) : Prop :=
  ∃ input output h rt st written rt' st',
    rs_job_iter E job b input output h rt st = (r, b', written, rt', st').

(** The engine iterations of one run of the loop, oldest first:
    [iterations E job b calls r b'] says that [calls] are iterations of
    [job], the first one started from the buffers [b], the last one
    answered [r] and left the buffers [b'], and every one but the last
    answered neither [RS_DONE] nor [RS_BLOCKED], left input unconsumed and
    was followed by an iteration that resumed from the input cursor it had
    left. *)
Inductive iterations (E : librsync) (job : ptr)
  : rs_buffers_t → list engine_call → rs_result → rs_buffers_t → Prop :=
  | iterations_last b r b' :
      engine_answer E job b r b' →
      iterations E job b [Call_rs_job_iter job b r b'] r b'
  | iterations_more b r b' b2 calls rf bf :
      engine_answer E job b r b' →
      r ≠ RS_DONE → r ≠ RS_BLOCKED → avail_in b' ≠ 0 →
      next_in b2 = next_in b' → avail_in b2 = avail_in b' →
      eof_in b2 = eof_in b' →
      iterations E job b2 calls rf bf →
      iterations E job b (Call_rs_job_iter job b r b' :: calls) rf bf.

(** The world in which a pass through the loop ends. *)
Definition outcome_world {E : librsync} (out : loop_outcome E) : world E :=
  match out with
  | Continue s | Break _ s | ReturnNULL s => ls_world s
  end.

(** What librsync promises about [rs_buffers_t]: an iteration only takes
    from [avail_in] and [avail_out], and never writes [eof_in]. *)
Definition honours_buffers (E : librsync) : Prop :=
  ∀ job b input output h r st res b' written r' st',
    rs_job_iter E job b input output h r st = (res, b', written, r', st') →
    0 ≤ avail_in b → 0 ≤ avail_out b →
    0 ≤ avail_in b' ≤ avail_in b ∧ 0 ≤ avail_out b' ≤ avail_out b.

Definition keeps_eof (E : librsync) : Prop :=
  ∀ job b input output h r st res b' written r' st',
    rs_job_iter E job b input output h r st = (res, b', written, r', st') →
    eof_in b' = eof_in b.

(** The number of views exported by a byte array. *)
Definition exports (h : gmap Z PyObject) (o : ptr) : Z :=
  match h !! o with
  | Some (mk_obj _ (PyByteArray _ e)) => e
  | _ => 0
  end.

(** The exception with which an object that has the buffer protocol
    answers a request for its buffer, when it gives none. *)
Definition refused (h : gmap Z PyObject) (o : ptr) : option pyerr :=
  match h !! o with
  | Some (mk_obj _ (PyExporter _ r)) => r
  | _ => None
  end.

(** The exception with which [iter_job] refuses its arguments: that of
    the input when the first argument is a capsule and the input gives no
    buffer, [TypeError] otherwise. *)
Definition refusal (h : gmap Z PyObject) (args : list ptr) : exc_type :=
  match args with
  | [c; i; _] =>
      if is_capsule h c then
        match refused h i with
        | Some (t, _) => t
        | None => PyExc_TypeError
        end
      else PyExc_TypeError
  | _ => PyExc_TypeError
  end.

(** Two heaps that differ at most in the bytes and export counts of byte
    arrays. *)
Definition same_objects (h h' : gmap Z PyObject) : Prop :=
  ∀ o : ptr,
    match h !! o with
    | Some (mk_obj n (PyByteArray _ _)) =>
        ∃ d' e', h' !! o = Some (mk_obj n (PyByteArray d' e'))
    | x => h' !! o = x
    end.

(** What holds each time the loop is entered when the engine honours the
    contract: the input left is within the chunk of length [L], and the
    bytes produced and the space left add up to the size of the array. *)
Definition loop_inv {E : librsync} (L : Z) (oa : ptr) (s : loop_state E)
  : Prop :=
  0 ≤ avail_in (ls_buffer s) ≤ L ∧
  0 ≤ ls_output_size s ∧ 0 ≤ avail_out (ls_buffer s) ∧
  ls_output_size s + avail_out (ls_buffer s)
    = PyByteArray_GET_SIZE (ls_world s) oa ∧
  PyByteArray_GET_SIZE (ls_world s) oa ≤ PY_SSIZE_T_MAX.

(** ** Six sentences of the specification that the code does not bear out

    Each is stated here the way the specification has it, for one call of
    the driver; the section of examples shows a call where it fails. *)

(** Every engine iteration that answers an error code, whatever input it
    leaves, is the last of its step, and the step fails with the module's
    exception for that code. *)
Definition error_never_retried (E : librsync) (fuel : nat) (w : world E)
    (args : list ptr) : Prop :=
  ∀ w' ret newer job b r b' older,
    iter_job fuel w args = Some (w', ret) →
    log w' = newer ++ Call_rs_job_iter job b r b' :: older ++ log w →
    r ≠ RS_DONE → r ≠ RS_BLOCKED →
    newer = [] ∧ ret = None ∧
    py_err (rt w') = Some (PyExc_Object (RsyncError w), rs_strerror E r).

(** A signature for which no call of [build_hash_table] is on record is
    refused by [begin_create_delta] with an exception, before any engine
    call. *)
Definition unbuilt_signature_rejected (E : librsync) (w : world E)
    (sig_capsule : ptr) : Prop :=
  (∀ r, Call_rs_build_hash_table (capsule_pointer (heap w) sig_capsule) r
        ∉ log w) →
  ∃ w',
    begin_create_delta w [sig_capsule] = (w', NULL) ∧
    is_Some (py_err (rt w')) ∧ log w' = log w.

(** A step during which the data source returns an integer greater than
    the length of the view it was given fails with the module's exception
    for [RS_INTERNAL_ERROR]. *)
Definition oversized_return_fails_step (E : librsync) (fuel : nat)
    (w : world E) (args : list ptr) : Prop :=
  ∀ w' ret newer cb view pos n f mem' k,
    iter_job fuel w args = Some (w', ret) →
    py_calls (rt w') = newer ++ mk_pycall cb view pos :: py_calls (rt w) →
    heap w !! cb = Some (mk_obj n (PyFunction f)) →
    f view pos = (mem', Returns (PyLong k)) →
    Z.of_nat (length view) < k →
    ret = None ∧
    py_err (rt w')
      = Some (PyExc_Object (RsyncError w), rs_strerror E RS_INTERNAL_ERROR).

(** Once a step has returned [done = true], a further step on the same
    job with an empty chunk returns [(true, 0, 0)] and makes no engine
    call. *)
Definition idempotent_completion (E : librsync) (fuel : nat) (w : world E)
    (job_capsule input empty output_array : ptr) : Prop :=
  ∀ w1 unused size,
    iter_job fuel w [job_capsule; input; output_array]
      = Some (w1, Some (true, unused, size)) →
    object_bytes (heap w1) empty = [] →
    ∃ w2,
      iter_job fuel w1 [job_capsule; empty; output_array]
        = Some (w2, Some (true, 0, 0)) ∧
      log w2 = log w1.

(** Every engine iteration that answers neither [RS_DONE] nor
    [RS_BLOCKED] and leaves input unconsumed is followed, in the same step,
    by an iteration that resumes from the input cursor it left. *)
Definition growth_always_resumes (E : librsync) (fuel : nat) (w : world E)
    (args : list ptr) : Prop :=
  ∀ w' ret newer job b r b' older,
    iter_job fuel w args = Some (w', ret) →
    log w' = newer ++ Call_rs_job_iter job b r b' :: older ++ log w →
    r ≠ RS_DONE → r ≠ RS_BLOCKED → avail_in b' ≠ 0 →
    ∃ newer' b2 r2 b2',
      newer = newer' ++ [Call_rs_job_iter job b2 r2 b2'] ∧
      next_in b2 = next_in b' ∧ avail_in b2 = avail_in b'.

(** A step whose capsule is of another kind than a job capsule fails with
    [TypeError], before any engine call. *)
Definition wrong_capsule_type_error (E : librsync) (fuel : nat) (w : world E)
    (c : ptr) (rest : list ptr) : Prop :=
  is_capsule (heap w) c = true →
  capsule_name (heap w) c ≠ Some JOB_WITH_CALLBACK_CAPSULE →
  ∃ w' msg,
    iter_job fuel w (c :: rest) = Some (w', None) ∧
    py_err (rt w') = Some (PyExc_TypeError, msg) ∧
    log w' = log w.

(** ** The entry points that the sentences above do not reach *)

(** The part of librsync that only [begin_create_signature] uses.
    [rs_sig_args] is [None] in a build that does not define
    [KITTY_HAS_RS_SIG_ARGS]; the two constants are the library's.
    [rs_sig_args old_fsize magic block_len strong_len] gets the values of
    its three in-out parameters and yields the values it leaves in them. *)
Record librsync_sig (E : librsync) : Type := mk_librsync_sig {
  rs_sig_args :
    option (Z → Z → Z → Z → rs_state E → rs_result * Z * Z * Z * rs_state E);
  RS_DEFAULT_BLOCK_LEN : Z;
  RS_MD4_SIG_MAGIC : Z;
  rs_sig_begin : Z → Z → Z → rs_state E → ptr * rs_state E
}.

Arguments rs_sig_args {E} _.
Arguments RS_DEFAULT_BLOCK_LEN {E} _.
Arguments RS_MD4_SIG_MAGIC {E} _.
Arguments rs_sig_begin {E} _.

Definition LLONG_MIN : Z := - 2 ^ 63.
Definition LLONG_MAX : Z := 2 ^ 63 - 1.

Section Entry.

Context {E : librsync}.

(** The address of the built-in exception class [SystemError]. *)
Context (PyExc_SystemError : ptr).

Definition set_engine (e : rs_state E) (w : world E) : world E :=
  mk_world (heap w) (rt w) (RsyncError w) e (log w).

Definition set_RsyncError (p : ptr) (w : world E) : world E :=
  mk_world (heap w) (rt w) p (engine w) (log w).

(** *** begin_create_signature *)

(** One argument of format [L] or [l], both of 64 bits: an [int] within
    range gives its value. *)
Definition convert_integer (w : world E) (o : ptr) : world E * option Z :=
  match heap w !! o with
  | Some (mk_obj _ (PyObj (PyLong n))) =>
      if (LLONG_MIN <=? n) && (n <=? LLONG_MAX) then (w, Some n)
      else
        (raise PyExc_OverflowError "Python int too large to convert to C long"
           w, None)
  | _ => (raise PyExc_TypeError "an integer is required" w, None)
  end.

(** [PyArg_ParseTuple(args, "|Ll", &file_size, &sl)]: both arguments are
    optional, and a variable whose argument is missing keeps its value. *)
Definition PyArg_ParseTuple_Ll (w : world E) (args : list ptr)
    (file_size sl : Z) : world E * option (Z * Z) :=
  match args with
  | [] => (w, Some (file_size, sl))
  | [a0] =>
      match convert_integer w a0 with
      | (w, Some v0) => (w, Some (v0, sl))
      | (w, None) => (w, None)
      end
  | [a0; a1] =>
      match convert_integer w a0 with
      | (w, Some v0) =>
          match convert_integer w a1 with
          | (w, Some v1) => (w, Some (v0, v1))
          | (w, None) => (w, None)
          end
      | (w, None) => (w, None)
      end
  | _ => (raise PyExc_TypeError "function takes at most 2 arguments" w, None)
  end.

(** [Py_BuildValue("Nnn", o, n1, n2)].  The reference to [o] goes to the
    tuple, or is dropped when the tuple cannot be built; for [o = NULL]
    the result is [NULL], with [SystemError] when no exception is set. *)
Definition Py_BuildValue_Nnn (w : world E) (o : ptr) (n1 n2 : Z)
  : world E * option (ptr * Z * Z) :=
  match py_alloc (rt w) with
  | None =>
      let w := set_rt (PyErr_NoMemory (rt w)) w in
      (if o =? NULL then w else Py_DECREF w o, None)
  | Some r =>
      let w := set_rt r w in
      if o =? NULL then
        (match py_err (rt w) with
         | Some _ => w
         | None =>
             raise (PyExc_Object PyExc_SystemError)
               "NULL object passed to Py_BuildValue" w
         end, None)
      else (w, Some (o, n1, n2))
  end.

(** Lines 70 and 71: the job and the triple returned. *)
Definition create_signature_job (S : librsync_sig E) (w : world E)
    (block_len strong_len magic_number : Z)
  : world E * option (ptr * Z * Z) :=
  let func w :=
    let '(job, e) :=
      rs_sig_begin S block_len strong_len magic_number (engine w) in
    (set_engine e w, job, tt) in
  let '(w, job_capsule, _) := CREATE_JOB func tt NULL w in
  Py_BuildValue_Nnn w job_capsule (to_Py_ssize_t block_len)
    (to_Py_ssize_t strong_len).

(** [begin_create_signature(self, args)].  The record of calls [log] is
    that of the functions which jobs and signatures go through afterwards;
    [rs_sig_args] and [rs_sig_begin] only show in the state of the
    engine. *)
Definition begin_create_signature (S : librsync_sig E) (w : world E)
    (args : list ptr) : world E * option (ptr * Z * Z) :=
  let file_size := -1 in
  let sl := 0 in
  match PyArg_ParseTuple_Ll w args file_size sl with
  | (w, None) => (w, None)
  | (w, Some (file_size, sl)) =>
      let magic_number := 0 in
      let block_len := 0 in
      let strong_len := to_size_t sl in
      match rs_sig_args S with
      | Some sig_args =>
          let '(res, magic_number, block_len, strong_len, e) :=
            sig_args file_size magic_number block_len strong_len (engine w) in
          let w := set_engine e w in
          if negb (bool_decide (res = RS_DONE)) then
            (raise PyExc_ValueError (rs_strerror E res) w, None)
          else create_signature_job S w block_len strong_len magic_number
      | None =>
          create_signature_job S w (RS_DEFAULT_BLOCK_LEN S) 8
            (RS_MD4_SIG_MAGIC S)
      end
  end.

(** *** exec_module *)

(** [PyErr_NewException(name, NULL, NULL)]: a new class, with one
    reference. *)
Definition PyErr_NewException (w : world E) (name : string) : world E * ptr :=
  match py_alloc (rt w) with
  | None => (set_rt (PyErr_NoMemory (rt w)) w, NULL)
  | Some r =>
      let o := fresh_addr (heap w) in
      (set_heap (<[o := mk_obj 1 (PyObj (PyClass name))]> (heap w))
         (set_rt r w), o)
  end.

(** [PyModule_AddObject(m, name, value)], the names of the module [m]
    being a map to objects.  The module takes a reference of its own and
    drops the one to the object the name stood for; on success the
    caller's reference to [value] is taken over. *)
Definition PyModule_AddObject (w : world E) (m : gmap string ptr)
    (name : string) (value : ptr) : world E * gmap string ptr * Z :=
  match py_alloc (rt w) with
  | None => (set_rt (PyErr_NoMemory (rt w)) w, m, -1)
  | Some r =>
      let w := Py_INCREF (set_rt r w) value in
      let w :=
        match m !! name with
        | Some old => Py_DECREF w old
        | None => w
        end in
      (Py_DECREF w value, <[name := value]> m, 0)
  end.

(** [PyModule_AddIntConstant(m, name, value)], which is what
    [PyModule_AddIntMacro] expands to. *)
Definition PyModule_AddIntConstant (w : world E) (m : gmap string ptr)
    (name : string) (value : Z) : world E * gmap string ptr * Z :=
  match py_alloc (rt w) with
  | None => (set_rt (PyErr_NoMemory (rt w)) w, m, -1)
  | Some r =>
      let o := fresh_addr (heap w) in
      let w :=
        set_heap (<[o := mk_obj 1 (PyObj (PyLong value))]> (heap w))
          (set_rt r w) in
      let '(w, m, rc) := PyModule_AddObject w m name o in
      if rc =? 0 then (w, m, 0) else (Py_DECREF w o, m, -1)
  end.

(** [exec_module(m)]. *)
Definition exec_module (w : world E) (m : gmap string ptr)
  : world E * gmap string ptr * Z :=
  let '(w, cls) := PyErr_NewException w "rsync.RsyncError" in
  let w := set_RsyncError cls w in
  if RsyncError w =? NULL then (w, m, -1)
  else
    let '(w, m, _) := PyModule_AddObject w m "RsyncError" (RsyncError w) in
    let '(w, m, _) :=
      PyModule_AddIntConstant w m "IO_BUFFER_SIZE" IO_BUFFER_SIZE in
    (w, m, 0).

End Entry.

(** ** More vocabulary *)

(** A signature capsule as [begin_load_signature] leaves it. *)
Definition sig_capsule_obj (sig : ptr) : PyObject :=
  mk_obj 1
    (PyCapsule sig (Some SIGNATURE_CAPSULE) NULL (Some FP_free_sig_capsule)).

(** What the constructors handed to [CREATE_JOB] have in common: they
    change the engine and the record of calls, nothing else. *)
Definition engine_only {E : librsync} {A : Type}
    (func : world E → world E * ptr * A) : Prop :=
  ∀ w, heap (func w).1.1 = heap w ∧ rt (func w).1.1 = rt w ∧
       RsyncError (func w).1.1 = RsyncError w.

(** The objects that format [y*] accepts: those that give a buffer. *)
Definition is_buffer (h : gmap Z PyObject) (o : ptr) : bool :=
  match h !! o with
  | Some (mk_obj _ (PyBytes _)) | Some (mk_obj _ (PyByteArray _ _))
  | Some (mk_obj _ (PyExporter _ None)) => true
  | _ => false
  end.

(** The size of the output array after it has grown once. *)
Definition grow_once (n : Z) : Z := Z.max IO_BUFFER_SIZE (2 * n).

(** The state in which a pass through the loop ends. *)
Definition outcome_state {E : librsync} (out : loop_outcome E) : loop_state E :=
  match out with
  | Continue s | Break _ s | ReturnNULL s => s
  end.

(** The arguments that [iter_job] takes to the engine. *)
Definition step_arguments {E : librsync} (w : world E) (args : list ptr)
  : Prop :=
  ∃ c i oa,
    args = [c; i; oa] ∧
    PyCapsule_IsValid w c (Some JOB_WITH_CALLBACK_CAPSULE) = true ∧
    is_buffer (heap w) i = true ∧ is_bytearray (heap w) oa = true.

(** [held v o]: the view [v] is one on object [o]. *)
Definition held (v : Py_buffer) (o : ptr) : Z :=
  if decide (buf_obj v = o) then 1 else 0.

(** The views held while the loop runs: one on the input chunk and one on
    the output array, unless the latter has been given back. *)
Definition loop_views (ib ob : Py_buffer) (x : ptr) : Z :=
  held ib x + held ob x.

(** [views k oa h h']: the heap [h'] is [h] but for the bytes of the byte
    array [oa], and for [k o] more exports on every byte array [o]. *)
Definition views (k : ptr → Z) (oa : ptr) (h h' : gmap Z PyObject) : Prop :=
  ∀ o : ptr,
    match h !! o with
    | Some (mk_obj n (PyByteArray d e)) =>
        ∃ d', h' !! o = Some (mk_obj n (PyByteArray d' (e + k o))) ∧
              (o ≠ oa → d' = d)
    | x => h' !! o = x
    end.

(** ** More of the scripted engine *)

Module Scenes.

Import Scripted.

(** The signature functions of the scripted engine: [rs_sig_args] refuses
    a strong length above 32, and otherwise settles for blocks of 2048
    bytes, with 32 for a strong length of 0. *)
Definition sig_args (fs mg bl sl : Z) (st : state)
  : rs_result * Z * Z * Z * state :=
  if 32 <? sl then (RS_PARAM_ERROR, mg, bl, sl, st)
  else (RS_DONE, 1920139575, 2048, if sl =? 0 then 32 else sl, st).

Definition sig_begin (bl sl mg : Z) (st : state) : ptr * state :=
  new_handle st.

Definition scripted_sig : librsync_sig scripted :=
  mk_librsync_sig scripted (Some sig_args) 2048 1920139574 sig_begin.

(** The same for a build without [rs_sig_args]. *)
Definition scripted_sig_old : librsync_sig scripted :=
  mk_librsync_sig scripted None 2048 1920139574 sig_begin.

(** Three integers, 10000, 64 and 16, and a callable that returns -1. *)
Definition numbers : list (Z * PyObject) :=
  [(30, mk_obj 1 (PyObj (PyLong 10000)));
   (31, mk_obj 1 (PyObj (PyLong 64)));
   (32, mk_obj 1 (PyObj (PyLong 16)));
   (33, mk_obj 1 (PyFunction (λ mem _, (mem, Returns (PyLong (-1))))))].

Definition counting : world scripted := boot (objects ++ numbers) 5 [].

(** An engine that has no job to give: the next handle is [NULL]. *)
Definition refusing : world scripted :=
  mk_world (E := scripted) (heap counting) (mk_rt None 5 []) 1
    (mk_state [] NULL None) [].

(** Before [exec_module]: [RsyncError] is [NULL], and [allocs] allocations
    will succeed. *)
Definition unloaded (allocs : nat) : world scripted :=
  mk_world (E := scripted) (list_to_map objects) (mk_rt None allocs []) NULL
    (mk_state [] 100 None) [].

(** The loop of [iter_job] on [copying], about to make its first pass. *)
Definition copying_entered : loop_state scripted :=
  mk_loop (mk_buffers 0 3 0 0 2) 0 (mk_pybuf 12 2)
    (iter_job_prologue copying [10; 11; 12]).1.

(** The one engine iteration of the step on [copying]. *)
Definition copying_call : engine_call :=
  Call_rs_job_iter 100 (mk_buffers 0 3 0 0 2) RS_DONE (mk_buffers 3 0 0 2 0).

End Scenes.

(** * Properties *)

Section Properties.

Context {E : librsync}.
Implicit Types (w : world E) (s : loop_state E) (o : ptr) (b : rs_buffers_t).

(** ** 64-bit arithmetic *)

Lemma to_size_t_small z : 0 ≤ z < 2 ^ 64 → to_size_t z = z.
Proof. intros H. unfold to_size_t. apply Z.mod_small. exact H. Qed.

Lemma to_Py_ssize_t_small z :
  - 2 ^ 63 ≤ z ≤ PY_SSIZE_T_MAX → to_Py_ssize_t z = z.
Proof.
  unfold to_Py_ssize_t, PY_SSIZE_T_MAX. intros H.
  rewrite Z.mod_small; lia.
Qed.

Lemma to_Py_ssize_t_range z : - 2 ^ 63 ≤ to_Py_ssize_t z ≤ PY_SSIZE_T_MAX.
Proof.
  unfold to_Py_ssize_t, PY_SSIZE_T_MAX.
  pose proof (Z.mod_pos_bound (z + 2 ^ 63) (2 ^ 64)). lia.
Qed.

(** Adding a [size_t] to a [Py_ssize_t] variable is addition modulo 2^64. *)
Lemma to_Py_ssize_t_add a d rest :
  to_Py_ssize_t (to_Py_ssize_t (a + to_size_t d) + rest)
  = to_Py_ssize_t (a + (d + rest)).
Proof.
  unfold to_Py_ssize_t, to_size_t. f_equal.
  replace ((a + d mod 2 ^ 64 + 2 ^ 63) mod 2 ^ 64 - 2 ^ 63 + rest + 2 ^ 63)
    with ((a + d mod 2 ^ 64 + 2 ^ 63) mod 2 ^ 64 + rest) by lia.
  rewrite Zplus_mod_idemp_l.
  replace (a + d mod 2 ^ 64 + 2 ^ 63 + rest)
    with (d mod 2 ^ 64 + (a + 2 ^ 63 + rest)) by lia.
  rewrite Zplus_mod_idemp_l. f_equal. lia.
Qed.


(** ** The primitives leave the rest of the state alone *)

Lemma same_objects_refl h : same_objects h h.
Proof. intros o. destruct (h !! o) as [[n []]|]; eauto. Qed.

Lemma same_objects_trans h1 h2 h3 :
  same_objects h1 h2 → same_objects h2 h3 → same_objects h1 h3.
Proof.
  intros H12 H23 o. specialize (H12 o). specialize (H23 o).
  destruct (h1 !! o) as [[n []]|]; try (rewrite H12 in H23; exact H23).
  destruct H12 as (d' & e' & H12). rewrite H12 in H23. exact H23.
Qed.

Lemma same_objects_bytearray h o n d e d' e' :
  h !! o = Some (mk_obj n (PyByteArray d e)) →
  same_objects h (<[o := mk_obj n (PyByteArray d' e')]> h).
Proof.
  intros Ho o'. destruct (decide (o = o')) as [<-|Hne].
  - rewrite Ho, lookup_insert_eq. eauto.
  - rewrite lookup_insert_ne by done. destruct (h !! o') as [[? []]|]; eauto.
Qed.

Lemma object_bytes_insert_bytearray h o n d e o' :
  object_bytes (<[o := mk_obj n (PyByteArray d e)]> h) o'
  = if decide (o = o') then d else object_bytes h o'.
Proof.
  unfold object_bytes. rewrite lookup_insert. destruct (decide (o = o')); done.
Qed.

Lemma PyBuffer_Release_spec w v w' v' :
  PyBuffer_Release w v = (w', v') →
  log w' = log w ∧ rt w' = rt w ∧ RsyncError w' = RsyncError w ∧
  engine w' = engine w ∧ same_objects (heap w) (heap w') ∧
  (∀ o, object_bytes (heap w') o = object_bytes (heap w) o).
Proof.
  unfold PyBuffer_Release. intros H.
  destruct (buf_obj v =? NULL).
  { simplify_eq. auto 10 using same_objects_refl. }
  destruct (heap w !! buf_obj v) as [[n k]|] eqn:Hv;
    [destruct k|]; simplify_eq; simpl; auto 10 using same_objects_refl.
  repeat split; eauto using same_objects_bytearray.
  intros o. rewrite object_bytes_insert_bytearray.
  destruct (decide _) as [<-|]; [|done]. unfold object_bytes. by rewrite Hv.
Qed.

Lemma PyObject_GetBuffer_spec w o wr w' v :
  PyObject_GetBuffer w o wr = (w', 0, v) →
  buf_obj v = o ∧ buf_len v = Z.of_nat (length (object_bytes (heap w) o)) ∧
  log w' = log w ∧ rt w' = rt w ∧ RsyncError w' = RsyncError w ∧
  engine w' = engine w ∧ same_objects (heap w) (heap w') ∧
  (∀ o', object_bytes (heap w') o' = object_bytes (heap w) o').
Proof.
  unfold PyObject_GetBuffer, object_bytes. intros H.
  destruct (heap w !! o) as [[n k]|] eqn:Ho; [destruct k|]; simplify_eq.
  - destruct wr; simplify_eq. simpl. auto 10 using same_objects_refl.
  - simpl. repeat split; eauto using same_objects_bytearray.
    intros o'. fold (object_bytes (<[o:=mk_obj n (PyByteArray data (ob_exports + 1))]> (heap w)) o').
    rewrite object_bytes_insert_bytearray.
    destruct (decide _) as [<-|]; [|done]. by rewrite Ho.
  - destruct refuses as [[t m]|], wr; simpl in H; simplify_eq. simpl.
    auto 10 using same_objects_refl.
Qed.

Lemma PyObject_GetBuffer_fail w o wr w' rc v :
  PyObject_GetBuffer w o wr = (w', rc, v) →
  log w' = log w ∧ RsyncError w' = RsyncError w ∧ engine w' = engine w ∧
  same_objects (heap w) (heap w') ∧
  (∀ o', object_bytes (heap w') o' = object_bytes (heap w) o').
Proof.
  unfold PyObject_GetBuffer. intros H.
  destruct (heap w !! o) as [[n k]|] eqn:Ho; [destruct k|]; simplify_eq;
    try destruct wr; simplify_eq; simpl; auto 10 using same_objects_refl.
  all: try (destruct refuses as [[t m]|]; simpl in H; simplify_eq; simpl;
            auto 10 using same_objects_refl; fail).
  all: repeat split; eauto using same_objects_bytearray.
  all: intros o'; rewrite object_bytes_insert_bytearray.
  all: destruct (decide _) as [<-|]; [|done]; unfold object_bytes; by rewrite Ho.
Qed.

Lemma PyByteArray_Resize_frame w o n w' rc :
  PyByteArray_Resize w o n = (w', rc) →
  log w' = log w ∧ RsyncError w' = RsyncError w ∧ engine w' = engine w ∧
  same_objects (heap w) (heap w').
Proof.
  unfold PyByteArray_Resize. intros H.
  destruct (heap w !! o) as [[m k]|] eqn:Ho; [destruct k|]; simplify_eq;
    simpl; auto using same_objects_refl.
  repeat case_match; simplify_eq; simpl;
    eauto 10 using same_objects_refl, same_objects_bytearray.
Qed.

Lemma PyByteArray_Resize_ok w o n w' :
  PyByteArray_Resize w o n = (w', 0) →
  0 ≤ n ∧ is_bytearray (heap w) o = true ∧
  object_bytes (heap w') o = resize (Z.to_nat n) Byte.x00 (object_bytes (heap w) o) ∧
  (∀ o', o' ≠ o → object_bytes (heap w') o' = object_bytes (heap w) o').
Proof.
  unfold PyByteArray_Resize, is_bytearray. intros H.
  destruct (heap w !! o) as [[m k]|] eqn:Ho; [destruct k|]; simplify_eq.
  assert (object_bytes (heap w) o = data) as Hd
    by (unfold object_bytes; by rewrite Ho).
  rewrite Hd.
  destruct (n <? 0) eqn:Hn; [simplify_eq|]. apply Z.ltb_ge in Hn.
  split; [done|]. split; [done|].
  destruct (n =? Z.of_nat (length data)) eqn:Heq.
  { apply Z.eqb_eq in Heq. inversion H; subst w'. split; [|done].
    rewrite Hd. rewrite resize_ge by lia.
    replace (Z.to_nat n - length data)%nat with 0%nat by lia.
    simpl. by rewrite app_nil_r. }
  destruct (0 <? ob_exports); [simplify_eq|].
  destruct (n <? Z.of_nat (length data)).
  - inversion H; subst w'. simpl. split.
    + rewrite object_bytes_insert_bytearray. by rewrite decide_True.
    + intros o' Hne. rewrite object_bytes_insert_bytearray.
      by rewrite decide_False.
  - destruct (py_alloc (rt w)); inversion H; subst w'. simpl. split.
    + rewrite object_bytes_insert_bytearray. by rewrite decide_True.
    + intros o' Hne. rewrite object_bytes_insert_bytearray.
      by rewrite decide_False.
Qed.

Lemma store_bytes_spec w o off bs :
  log (store_bytes w o off bs) = log w ∧
  rt (store_bytes w o off bs) = rt w ∧
  RsyncError (store_bytes w o off bs) = RsyncError w ∧
  engine (store_bytes w o off bs) = engine w ∧
  same_objects (heap w) (heap (store_bytes w o off bs)) ∧
  (∀ o', length (object_bytes (heap (store_bytes w o off bs)) o')
         = length (object_bytes (heap w) o')).
Proof.
  unfold store_bytes.
  destruct (heap w !! o) as [[n k]|] eqn:Ho; [destruct k|];
    auto 10 using same_objects_refl.
  destruct (off <? 0); simpl; auto 10 using same_objects_refl.
  repeat split; eauto using same_objects_bytearray.
  intros o'. rewrite object_bytes_insert_bytearray.
  destruct (decide _) as [<-|]; [|done].
  rewrite length_inserts. unfold object_bytes. by rewrite Ho.
Qed.

Lemma call_rs_job_iter_spec w job b i oa r b' w1 :
  call_rs_job_iter w job b i oa = (r, b', w1) →
  (∃ written e1,
     rs_job_iter E job b (object_bytes (heap w) i) (object_bytes (heap w) oa)
       (heap w) (rt w) (engine w) = (r, b', written, rt w1, e1)) ∧
  log w1 = Call_rs_job_iter job b r b' :: log w ∧
  RsyncError w1 = RsyncError w ∧
  same_objects (heap w) (heap w1) ∧
  (∀ o', length (object_bytes (heap w1) o')
         = length (object_bytes (heap w) o')).
Proof.
  unfold call_rs_job_iter. intros H.
  destruct (rs_job_iter E job b _ _ _ _ _) as [[[[res bf] written] r1] e1] eqn:Hit.
  inversion H; subst; clear H.
  pose proof (store_bytes_spec (set_rt r1 w) oa (next_out b) written)
    as (Hl & Hr & HR & He & Hs & Hb).
  simpl. repeat split; eauto.
  - rewrite Hr. simpl. eauto.
  - by rewrite Hl.
Qed.

(** One pass through the loop: the engine is called once, and what
    follows depends on its answer and on the input it left. *)
Lemma iter_job_body_cases job ib oa s :
  ∃ r b' w1,
    call_rs_job_iter (ls_world s) job (ls_buffer s) (buf_obj ib) oa
      = (r, b', w1) ∧
    let os :=
      to_Py_ssize_t
        (ls_output_size s
         + to_size_t (avail_out (ls_buffer s) - avail_out b')) in
    (((r = RS_DONE ∨ r = RS_BLOCKED) ∧
      iter_job_body job ib oa s
        = Break r (mk_loop b' os (ls_output_buf s) w1))
     ∨ (r ≠ RS_DONE ∧ r ≠ RS_BLOCKED ∧ avail_in b' = 0 ∧
        iter_job_body job ib oa s
          = ReturnNULL
              (mk_loop b' os (ls_output_buf s)
                 (raise (PyExc_Object (RsyncError w1)) (rs_strerror E r) w1)))
     ∨ (r ≠ RS_DONE ∧ r ≠ RS_BLOCKED ∧ avail_in b' ≠ 0 ∧
        iter_job_body job ib oa s
          = grow_output oa b' os (ls_output_buf s) w1)).
Proof.
  unfold iter_job_body.
  destruct (call_rs_job_iter _ _ _ _ _) as [[r b'] w1].
  exists r, b', w1. split; [done|]. simpl.
  destruct (bool_decide (r = RS_DONE)) eqn:Hd.
  { apply bool_decide_eq_true in Hd. left. auto. }
  destruct (bool_decide (r = RS_BLOCKED)) eqn:Hb.
  { apply bool_decide_eq_true in Hb. left. auto. }
  apply bool_decide_eq_false in Hd, Hb. simpl.
  destruct (avail_in b' =? 0) eqn:Ha; simpl.
  - apply Z.eqb_eq in Ha. right. left. auto.
  - apply Z.eqb_neq in Ha. right. right. auto.
Qed.

(** Growing never leaves the loop with [break] and calls no engine
    function; when the loop continues, the input cursor is the one the
    engine left, the output cursor stands behind the bytes produced, and
    the array has its new size with the old bytes in front. *)
Lemma grow_output_spec oa b os ob w :
  let out := grow_output oa b os ob w in
  log (outcome_world out) = log w ∧
  RsyncError (outcome_world out) = RsyncError w ∧
  engine (outcome_world out) = engine w ∧
  same_objects (heap w) (heap (outcome_world out)) ∧
  match out with
  | Break _ _ => False
  | ReturnNULL s' => True
  | Continue s' =>
      ls_output_size s' = os ∧
      next_in (ls_buffer s') = next_in b ∧
      avail_in (ls_buffer s') = avail_in b ∧
      eof_in (ls_buffer s') = eof_in b ∧
      next_out (ls_buffer s') = os ∧
      avail_out (ls_buffer s') = to_size_t (grown_size w oa - os) ∧
      ls_output_buf s' = mk_pybuf oa (grown_size w oa) ∧
      0 ≤ grown_size w oa ∧
      object_bytes (heap (ls_world s')) oa
        = resize (Z.to_nat (grown_size w oa)) Byte.x00
            (object_bytes (heap w) oa)
  end.
Proof.
  unfold grow_output.
  destruct (PyBuffer_Release w ob) as [w1 ob1] eqn:H1.
  apply PyBuffer_Release_spec in H1 as (Hl1 & Hr1 & HR1 & He1 & Hs1 & Hb1).
  assert (grown_size w1 oa = grown_size w oa) as Hg.
  { unfold grown_size, PyByteArray_GET_SIZE. by rewrite Hb1. }
  rewrite Hg.
  destruct (PyByteArray_Resize w1 oa (grown_size w oa)) as [w2 rc] eqn:H2.
  pose proof (PyByteArray_Resize_frame _ _ _ _ _ H2) as (Hl2 & HR2 & He2 & Hs2).
  destruct (rc =? 0) eqn:Hrc; simpl.
  2:{ repeat split; try congruence. eauto using same_objects_trans. }
  apply Z.eqb_eq in Hrc. subst rc.
  apply PyByteArray_Resize_ok in H2 as (Hn & _ & Hd2 & _).
  destruct (PyObject_GetBuffer w2 oa true) as [[w3 rc] ob3] eqn:H3.
  pose proof (PyObject_GetBuffer_fail _ _ _ _ _ _ H3) as (Hl3 & HR3 & He3 & Hs3 & Hb3).
  destruct (rc =? 0) eqn:Hrc; simpl.
  2:{ repeat split; try congruence. eauto using same_objects_trans. }
  apply Z.eqb_eq in Hrc. subst rc.
  apply PyObject_GetBuffer_spec in H3 as (Ho3 & Hlen3 & _).
  assert (buf_len ob3 = grown_size w oa) as Hlen.
  { rewrite Hlen3, Hd2, length_resize. lia. }
  repeat split; try congruence; eauto using same_objects_trans.
  destruct ob3; simpl in *; congruence.
Qed.

Lemma to_Py_ssize_t_add0 a d :
  to_Py_ssize_t (a + to_size_t d) = to_Py_ssize_t (a + (d + 0)).
Proof.
  unfold to_Py_ssize_t, to_size_t. f_equal.
  replace (a + d mod 2 ^ 64 + 2 ^ 63) with (d mod 2 ^ 64 + (a + 2 ^ 63)) by lia.
  rewrite Zplus_mod_idemp_l. f_equal. lia.
Qed.

(** ** The loop *)

(** Whatever the engine does, a run of the loop that ends is a chain of
    engine iterations; it ends with [break] exactly when the last answer
    is [RS_DONE] or [RS_BLOCKED], and with the module's exception when the
    last answer is another code and no input is left. *)
Lemma iter_job_loop_spec fuel job ib oa s out :
  iter_job_loop fuel job ib oa s = Some out →
  ∃ calls r b',
    iterations E job (ls_buffer s) calls r b' ∧
    log (outcome_world out) = rev calls ++ log (ls_world s) ∧
    RsyncError (outcome_world out) = RsyncError (ls_world s) ∧
    same_objects (heap (ls_world s)) (heap (outcome_world out)) ∧
    match out with
    | Continue _ => False
    | Break result s' =>
        result = r ∧ (r = RS_DONE ∨ r = RS_BLOCKED) ∧ ls_buffer s' = b' ∧
        ls_output_size s'
          = to_Py_ssize_t (ls_output_size s + total_produced calls)
    | ReturnNULL s' =>
        r ≠ RS_DONE ∧ r ≠ RS_BLOCKED ∧
        (avail_in b' = 0 →
         py_err (rt (ls_world s'))
           = Some (PyExc_Object (RsyncError (ls_world s)), rs_strerror E r))
    end.
Proof.
  revert s. induction fuel as [|fuel IH]; intros s Hloop; [done|].
  simpl in Hloop.
  destruct (iter_job_body_cases job ib oa s) as (r & b' & w1 & Hcall & Hcases).
  apply call_rs_job_iter_spec in Hcall
    as ((wr & e1 & Heng) & Hlog & HR & Hso & _).
  assert (engine_answer E job (ls_buffer s) r b') as Hans
    by (red; eauto 10).
  simpl in Hcases.
  destruct Hcases as [[Hr Hbody]|[(Hd & Hb & Ha & Hbody)|(Hd & Hb & Ha & Hbody)]];
    rewrite Hbody in Hloop.
  - inversion Hloop; subst out; clear Hloop.
    exists [Call_rs_job_iter job (ls_buffer s) r b'], r, b'. simpl.
    repeat split; eauto using iterations_last.
    apply to_Py_ssize_t_add0.
  - inversion Hloop; subst out; clear Hloop.
    exists [Call_rs_job_iter job (ls_buffer s) r b'], r, b'. simpl.
    repeat split; eauto using iterations_last.
    intros _. by rewrite HR.
  - pose proof (grow_output_spec oa b'
      (to_Py_ssize_t (ls_output_size s
         + to_size_t (avail_out (ls_buffer s) - avail_out b')))
      (ls_output_buf s) w1) as Hg.
    simpl in Hg. destruct (grow_output _ _ _ _ _) as [s2|?|s2];
      destruct Hg as (Hl2 & HR2 & He2 & Hs2 & Hout); [|done|].
    + apply IH in Hloop
        as (calls & rf & bf & Hit & Hlogf & HRf & Hsf & Hfin).
      destruct Hout as (Hos & Hni & Hai & Hei & _).
      exists (Call_rs_job_iter job (ls_buffer s) r b' :: calls), rf, bf.
      simpl in *. repeat split.
      * eapply iterations_more; eauto.
      * rewrite Hlogf, Hl2, Hlog, <- app_assoc. done.
      * congruence.
      * eauto using same_objects_trans.
      * destruct out as [?|rr s'|s']; [done| |].
        -- destruct Hfin as (-> & Hrf & -> & Hsz). repeat split; auto.
           rewrite Hsz, Hos. apply to_Py_ssize_t_add.
        -- destruct Hfin as (? & ? & Herr). repeat split; auto.
           intros Hzero. rewrite (Herr Hzero). congruence.
    + inversion Hloop; subst out; clear Hloop.
      exists [Call_rs_job_iter job (ls_buffer s) r b'], r, b'. simpl in *.
      repeat split; eauto using iterations_last; try congruence.
      eauto using same_objects_trans.
Qed.

(** ** The first part of [iter_job] *)

Lemma GET_JOB_FROM_CAPSULE_spec w c w' job :
  GET_JOB_FROM_CAPSULE w c = (w', job) →
  heap w' = heap w ∧ log w' = log w ∧ RsyncError w' = RsyncError w ∧
  engine w' = engine w ∧
  ((job = NULL ∧
    PyCapsule_IsValid w c (Some JOB_WITH_CALLBACK_CAPSULE) = false ∧
    py_err (rt w') = Some (PyExc_TypeError, "Not a job capsule"))
   ∨ (job ≠ NULL ∧ w' = w ∧ job = capsule_pointer (heap w) c ∧
      PyCapsule_IsValid w c (Some JOB_WITH_CALLBACK_CAPSULE) = true)).
Proof.
  unfold GET_JOB_FROM_CAPSULE, PyCapsule_GetPointer, PyCapsule_IsValid,
    name_matches.
  intros H.
  destruct (is_legal_capsule (heap w) c) eqn:Hlegal; simpl in H.
  2:{ inversion H; subst. simpl. auto 10. }
  destruct (bool_decide (Some JOB_WITH_CALLBACK_CAPSULE = capsule_name (heap w) c))
    eqn:Hname; simpl in H.
  2:{ inversion H; subst. simpl. repeat split; auto. left.
      repeat split; auto. apply bool_decide_eq_false in Hname.
      apply bool_decide_eq_false. congruence. }
  apply bool_decide_eq_true in Hname.
  assert (capsule_pointer (heap w) c ≠ NULL) as Hp.
  { unfold is_legal_capsule, capsule_pointer in *.
    destruct (heap w !! c) as [[n []]|]; try done.
    apply negb_true_iff, Z.eqb_neq in Hlegal. done. }
  destruct (capsule_pointer (heap w) c =? NULL) eqn:Hz.
  { apply Z.eqb_eq in Hz. done. }
  inversion H; subst. repeat split; auto. right. repeat split; auto.
  apply bool_decide_eq_true. congruence.
Qed.

Lemma release_buffers_spec w ib ob :
  log (release_buffers w ib ob) = log w ∧
  rt (release_buffers w ib ob) = rt w ∧
  RsyncError (release_buffers w ib ob) = RsyncError w ∧
  engine (release_buffers w ib ob) = engine w ∧
  same_objects (heap w) (heap (release_buffers w ib ob)) ∧
  (∀ o, object_bytes (heap (release_buffers w ib ob)) o
        = object_bytes (heap w) o).
Proof.
  unfold release_buffers.
  destruct (PyBuffer_Release w ob) as [w1 ?] eqn:H1.
  destruct (PyBuffer_Release w1 ib) as [w2 ?] eqn:H2.
  apply PyBuffer_Release_spec in H1 as (? & ? & ? & ? & ? & Hb1).
  apply PyBuffer_Release_spec in H2 as (? & ? & ? & ? & ? & Hb2).
  repeat split; try congruence; eauto using same_objects_trans.
Qed.

Lemma PyObject_GetBuffer_bytearray w o wr :
  is_bytearray (heap w) o = true →
  ∃ w' v, PyObject_GetBuffer w o wr = (w', 0, v).
Proof.
  unfold is_bytearray, PyObject_GetBuffer.
  destruct (heap w !! o) as [[n []]|]; try done. eauto.
Qed.

(** When the first part of [iter_job] succeeds, the arguments are a job
    capsule, a bytes-like object and a byte array, and the loop is entered
    with the cursors at the start of the input chunk and of the array. *)
Lemma iter_job_prologue_ok w args w0 job ib oa s0 :
  iter_job_prologue w args = (w0, Some (job, ib, oa, s0)) →
  ∃ c i,
    args = [c; i; oa] ∧
    PyCapsule_IsValid w c (Some JOB_WITH_CALLBACK_CAPSULE) = true ∧
    job = capsule_pointer (heap w) c ∧ job ≠ NULL ∧
    is_bytearray (heap w) oa = true ∧
    ib = mk_pybuf i (Z.of_nat (length (object_bytes (heap w) i))) ∧
    s0 = mk_loop
           (entry_buffers ib (mk_pybuf oa (PyByteArray_GET_SIZE w oa)))
           0 (mk_pybuf oa (PyByteArray_GET_SIZE w oa)) w0 ∧
    log w0 = log w ∧ rt w0 = rt w ∧ RsyncError w0 = RsyncError w ∧
    engine w0 = engine w ∧ same_objects (heap w) (heap w0) ∧
    (∀ o, object_bytes (heap w0) o = object_bytes (heap w) o).
Proof.
  unfold iter_job_prologue, PyArg_ParseTuple_iter_job. intros H.
  destruct args as [|c [|i [|oa' [|? ?]]]]; try done.
  destruct (is_capsule (heap w) c); simpl in H; [|done].
  destruct (PyObject_GetBuffer w i false) as [[w1 rc1] ib1] eqn:H1.
  destruct (rc1 =? 0) eqn:Hrc1; simpl in H; [|done].
  apply Z.eqb_eq in Hrc1. subst rc1.
  apply PyObject_GetBuffer_spec in H1
    as (Hi1 & Hlen1 & Hl1 & Hr1 & HR1 & He1 & Hs1 & Hb1).
  destruct (is_bytearray (heap w1) oa') eqn:Hba; simpl in H.
  2:{ destruct (PyBuffer_Release w1 ib1). done. }
  destruct (GET_JOB_FROM_CAPSULE w1 c) as [w2 job2] eqn:H2.
  apply GET_JOB_FROM_CAPSULE_spec in H2 as (Hh2 & Hl2 & HR2 & He2 & Hj).
  destruct Hj as [(-> & _)|(Hjob & -> & Hptr & Hvalid)]; simpl in H; [done|].
  destruct (job2 =? NULL) eqn:Hz; [apply Z.eqb_eq in Hz; done|].
  destruct (PyObject_GetBuffer w1 oa' true) as [[w3 rc3] ob3] eqn:H3.
  destruct (rc3 =? 0) eqn:Hrc3; simpl in H; [|done].
  apply Z.eqb_eq in Hrc3. subst rc3.
  apply PyObject_GetBuffer_spec in H3
    as (Ho3 & Hlen3 & Hl3 & Hr3 & HR3 & He3 & Hs3 & Hb3).
  inversion H; subst w0 job ib oa s0; clear H.
  exists c, i.
  assert (capsule_pointer (heap w1) c = capsule_pointer (heap w) c ∧
          PyCapsule_IsValid w c (Some JOB_WITH_CALLBACK_CAPSULE) = true)
    as [Hcp Hcv].
  { revert Hvalid. unfold PyCapsule_IsValid, is_legal_capsule, capsule_name,
      capsule_pointer. specialize (Hs1 c).
    destruct (heap w !! c) as [[n []]|]; try (rewrite Hs1; done).
    destruct Hs1 as (d' & e' & ->). done. }
  assert (is_bytearray (heap w) oa' = true) as Hba0.
  { revert Hba. unfold is_bytearray. specialize (Hs1 oa').
    destruct (heap w !! oa') as [[n []]|]; try (rewrite Hs1; done). done. }
  unfold PyByteArray_GET_SIZE. rewrite <- (Hb1 oa'), <- Hlen3.
  rewrite <- Hlen1.
  repeat split; try congruence; eauto using same_objects_trans.
  - destruct ib1; simpl in *; congruence.
  - destruct ob3; simpl in *; congruence.
Qed.

(** A request for a read-only view fails with the exception of the
    object when it has the buffer protocol, and with [TypeError] when it
    has not. *)
Lemma PyObject_GetBuffer_refused w o w' rc v :
  PyObject_GetBuffer w o false = (w', rc, v) → rc ≠ 0 →
  ∃ msg,
    py_err (rt w')
    = Some (match refused (heap w) o with
            | Some (t, _) => t
            | None => PyExc_TypeError
            end, msg).
Proof.
  unfold PyObject_GetBuffer, refused. intros H Hrc.
  destruct (heap w !! o) as [[n k]|]; [destruct k|]; simplify_eq;
    simpl; eauto.
  destruct refuses as [[t m]|]; simpl in H; simplify_eq; simpl; eauto.
Qed.

Lemma PyObject_GetBuffer_not_refused w o wr w' v :
  PyObject_GetBuffer w o wr = (w', 0, v) → refused (heap w) o = None.
Proof.
  unfold PyObject_GetBuffer, refused. intros H.
  destruct (heap w !! o) as [[n k]|]; [destruct k|]; try done.
  destruct refuses as [[t m]|]; simpl in H; simplify_eq; done.
Qed.

(** When it fails, it fails before any engine call, with [TypeError] or,
    when the input has the buffer protocol and gives no buffer, with the
    exception of the input. *)
Lemma iter_job_prologue_fail w args w0 :
  iter_job_prologue w args = (w0, None) →
  (∃ msg, py_err (rt w0) = Some (refusal (heap w) args, msg)) ∧
  log w0 = log w ∧ RsyncError w0 = RsyncError w ∧ engine w0 = engine w ∧
  same_objects (heap w) (heap w0).
Proof.
  unfold iter_job_prologue, PyArg_ParseTuple_iter_job, refusal. intros H.
  destruct args as [|c [|i [|oa' [|? ?]]]];
    try (inversion H; subst; simpl; eauto 10 using same_objects_refl).
  destruct (is_capsule (heap w) c); simpl in H.
  2:{ inversion H; subst; simpl; eauto 10 using same_objects_refl. }
  simpl.
  destruct (PyObject_GetBuffer w i false) as [[w1 rc1] ib1] eqn:Hgb1.
  pose proof (PyObject_GetBuffer_fail _ _ _ _ _ _ Hgb1)
    as (Hl1 & HR1 & He1 & Hs1 & Hb1).
  destruct (rc1 =? 0) eqn:Hrc1; simpl in H.
  2:{ apply Z.eqb_neq in Hrc1.
      destruct (PyObject_GetBuffer_refused _ _ _ _ _ Hgb1 Hrc1) as (msg & Herr).
      inversion H; subst; simpl; eauto 10. }
  apply Z.eqb_eq in Hrc1. subst rc1.
  rewrite (PyObject_GetBuffer_not_refused _ _ _ _ _ Hgb1).
  destruct (is_bytearray (heap w1) oa') eqn:Hba; simpl in H.
  2:{ destruct (PyBuffer_Release w1 ib1) as [w2 ?] eqn:Hrel.
      apply PyBuffer_Release_spec in Hrel as (? & ? & ? & ? & ? & ?).
      inversion H; subst; simpl.
      repeat split; try congruence; eauto using same_objects_trans. }
  destruct (GET_JOB_FROM_CAPSULE w1 c) as [w2 job2] eqn:Hgj.
  apply GET_JOB_FROM_CAPSULE_spec in Hgj as (Hh2 & Hl2 & HR2 & He2 & Hj).
  destruct (job2 =? NULL) eqn:Hz.
  - inversion H; subst w0; clear H.
    pose proof (release_buffers_spec w2 ib1 (mk_pybuf NULL 0))
      as (Hl & Hr & HR & He & Hs & _).
    destruct Hj as [(_ & _ & Herr)|(Hne & _)];
      [|apply Z.eqb_eq in Hz; done].
    rewrite Hr, Herr, Hl, HR, He.
    repeat split; try congruence; eauto.
    eapply same_objects_trans; [exact Hs1|]. by rewrite <- Hh2.
  - destruct Hj as [(-> & _)|(_ & -> & _)]; [done|].
    destruct (PyObject_GetBuffer_bytearray w1 oa' true Hba) as (w3 & v3 & Hgb3).
    rewrite Hgb3 in H. done.
Qed.

(** ** The whole of [iter_job] *)

Lemma Py_BuildValue_Onn_spec w (flag : bool) n1 n2 w' ret :
  Py_BuildValue_Onn w flag n1 n2 = (w', ret) →
  heap w' = heap w ∧ log w' = log w ∧ RsyncError w' = RsyncError w ∧
  engine w' = engine w ∧
  ((ret = Some (flag, n1, n2) ∧ py_alloc (rt w) = Some (rt w'))
   ∨ (ret = None ∧ py_alloc (rt w) = None ∧
      py_err (rt w') = Some (PyExc_MemoryError, ""))).
Proof.
  unfold Py_BuildValue_Onn. intros H.
  destruct (py_alloc (rt w)); inversion H; subst; simpl; auto 10.
Qed.

(** Every result of [iter_job] is explained by the engine iterations it
    made: none when the arguments are refused, otherwise a chain whose last
    answer decides the result. *)
Lemma iter_job_spec fuel w args w' ret :
  iter_job fuel w args = Some (w', ret) →
  RsyncError w' = RsyncError w ∧ same_objects (heap w) (heap w') ∧
  ((ret = None ∧ log w' = log w ∧ engine w' = engine w ∧
    iter_job_prologue w args = (w', None) ∧
    ∃ msg, py_err (rt w') = Some (refusal (heap w) args, msg))
   ∨ ∃ w0 job ib oa s0 calls r b',
       iter_job_prologue w args = (w0, Some (job, ib, oa, s0)) ∧
       iterations E job (ls_buffer s0) calls r b' ∧
       log w' = rev calls ++ log w ∧
       match ret with
       | Some (done, unused, size) =>
           (r = RS_DONE ∨ r = RS_BLOCKED) ∧
           done = bool_decide (r = RS_DONE) ∧
           unused = to_Py_ssize_t (avail_in b') ∧
           size = to_Py_ssize_t (total_produced calls)
       | None =>
           ((r = RS_DONE ∨ r = RS_BLOCKED) ∧
            py_err (rt w') = Some (PyExc_MemoryError, ""))
           ∨ (r ≠ RS_DONE ∧ r ≠ RS_BLOCKED ∧
              (avail_in b' = 0 →
               py_err (rt w')
                 = Some (PyExc_Object (RsyncError w), rs_strerror E r)))
       end).
Proof.
  unfold iter_job. intros H.
  destruct (iter_job_prologue w args) as [w0 [[[[job ib] oa] s0]|]] eqn:Hpro.
  2:{ inversion H; subst; clear H.
      pose proof (iter_job_prologue_fail _ _ _ Hpro) as (Herr & Hl & HR & He & Hs).
      auto 10. }
  pose proof (iter_job_prologue_ok _ _ _ _ _ _ _ Hpro)
    as (c & i & -> & _ & _ & _ & _ & _ & Hs0 & Hl0 & Hr0 & HR0 & He0 & Hso0 & _).
  assert (ls_world s0 = w0 ∧ ls_output_size s0 = 0) as [Hw0 Hos0]
    by (by subst s0).
  destruct (iter_job_loop fuel job ib oa s0) as [out|] eqn:Hloop; [|done].
  apply iter_job_loop_spec in Hloop
    as (calls & r & b' & Hit & Hlog & HR & Hso & Hout).
  rewrite Hw0 in *.
  destruct out as [s|result s|s]; [done| |]; simpl in *.
  - destruct Hout as (-> & Hr & Hbf & Hsz).
    destruct (Py_BuildValue_Onn _ _ _ _) as [w1 ret1] eqn:Hbv.
    apply Py_BuildValue_Onn_spec in Hbv as (Hh1 & Hl1 & HR1 & He1 & Hret).
    inversion H; subst w' ret; clear H.
    pose proof (release_buffers_spec w1 ib (ls_output_buf s))
      as (Hl2 & Hr2 & HR2 & He2 & Hs2 & _).
    split; [congruence|]. split.
    { eapply same_objects_trans; [exact Hso0|].
      eapply same_objects_trans; [exact Hso|]. by rewrite <- Hh1. }
    right. exists w0, job, ib, oa, s0, calls, r, (ls_buffer s).
    split; [done|]. split; [by rewrite Hbf|]. split; [congruence|].
    destruct Hret as [(-> & _)|(-> & _ & Herr)].
    + rewrite Hsz, Hos0. auto.
    + left. rewrite Hr2. auto.
  - inversion H; subst w' ret; clear H.
    pose proof (release_buffers_spec (ls_world s) ib (ls_output_buf s))
      as (Hl2 & Hr2 & HR2 & He2 & Hs2 & _).
    split; [congruence|]. split.
    { eauto using same_objects_trans. }
    right. exists w0, job, ib, oa, s0, calls, r, b'.
    split; [done|]. split; [done|]. split; [congruence|].
    right. destruct Hout as (? & ? & Herr). repeat split; auto.
    intros Hz. rewrite Hr2, (Herr Hz). congruence.
Qed.

(** ** Engines that honour the buffer contract *)

Lemma grown_size_exact w oa :
  PyByteArray_GET_SIZE w oa ≤ PY_SSIZE_T_MAX →
  0 ≤ grown_size w oa →
  grown_size w oa = Z.max IO_BUFFER_SIZE (2 * PyByteArray_GET_SIZE w oa).
Proof.
  unfold grown_size, MAX, PyByteArray_GET_SIZE, PY_SSIZE_T_MAX, IO_BUFFER_SIZE.
  set (n := Z.of_nat (length (object_bytes (heap w) oa))).
  assert (0 ≤ n) by lia. intros Hn.
  rewrite to_size_t_small by lia.
  replace (n * 2) with (2 * n) by lia.
  set (m := Z.max (64 * 1024) (2 * n)).
  assert (0 ≤ m < 2 ^ 64) by lia.
  destruct (Z_lt_ge_dec m (2 ^ 63)) as [Hlt|Hge].
  - intros _. apply to_Py_ssize_t_small. unfold PY_SSIZE_T_MAX. lia.
  - unfold to_Py_ssize_t.
    rewrite <- (Z.mod_unique (m + 2 ^ 63) (2 ^ 64) 1 (m - 2 ^ 63)); lia.
Qed.

Lemma iter_job_loop_lawful L fuel job ib oa s r s' :
  honours_buffers E →
  loop_inv L oa s →
  iter_job_loop fuel job ib oa s = Some (Break r s') →
  loop_inv L oa s' ∧
  ∃ calls,
    log (ls_world s') = rev calls ++ log (ls_world s) ∧
    ls_output_size s' = ls_output_size s + total_produced calls.
Proof.
  intros Hlaw. revert s. induction fuel as [|fuel IH]; intros s Hinv Hloop;
    [done|].
  simpl in Hloop.
  destruct Hinv as (Hai & Hos & Hao & Hsum & Hmax).
  destruct (iter_job_body_cases job ib oa s) as (r1 & b' & w1 & Hcall & Hcases).
  apply call_rs_job_iter_spec in Hcall as ((wr & e1 & Heng) & Hlog & HR & Hso & Hlen).
  apply Hlaw in Heng as (Hai' & Hao'); [lia|lia|].
  assert (PyByteArray_GET_SIZE w1 oa = PyByteArray_GET_SIZE (ls_world s) oa)
    as Hsize by (unfold PyByteArray_GET_SIZE; by rewrite Hlen).
  simpl in Hcases.
  assert (to_Py_ssize_t
            (ls_output_size s
             + to_size_t (avail_out (ls_buffer s) - avail_out b'))
          = ls_output_size s + (avail_out (ls_buffer s) - avail_out b'))
    as Hexact.
  { unfold PY_SSIZE_T_MAX in *.
    rewrite to_size_t_small by lia.
    apply to_Py_ssize_t_small. unfold PY_SSIZE_T_MAX. lia. }
  rewrite Hexact in Hcases.
  destruct Hcases as [[Hr Hbody]|[(Hd & Hb & Ha & Hbody)|(Hd & Hb & Ha & Hbody)]];
    rewrite Hbody in Hloop.
  - inversion Hloop; subst; clear Hloop. simpl. split.
    + unfold loop_inv. simpl. rewrite Hsize. lia.
    + exists [Call_rs_job_iter job (ls_buffer s) r b']. simpl.
      split; [done|]. lia.
  - done.
  - pose proof (grow_output_spec oa b'
      (ls_output_size s + (avail_out (ls_buffer s) - avail_out b'))
      (ls_output_buf s) w1) as Hg.
    simpl in Hg. destruct (grow_output _ _ _ _ _) as [s2|?|s2];
      destruct Hg as (Hl2 & HR2 & He2 & Hs2 & Hout); [|done|done].
    destruct Hout as (Hos2 & Hni & Hai2 & Hei & Hno & Hao2 & Hob & Hg0 & Hbytes).
    simpl in Hl2.
    pose proof (grown_size_exact w1 oa ltac:(lia) Hg0) as Hgs.
    pose proof (to_Py_ssize_t_range
      (MAX IO_BUFFER_SIZE (to_size_t (PyByteArray_GET_SIZE w1 oa * 2)))) as Hrange.
    fold (grown_size w1 oa) in Hrange.
    assert (PyByteArray_GET_SIZE (ls_world s2) oa = grown_size w1 oa) as Hsize2.
    { unfold PyByteArray_GET_SIZE at 1. rewrite Hbytes, length_resize. lia. }
    apply IH in Hloop as (Hinv' & calls & Hlogf & Hszf).
    + split; [done|].
      exists (Call_rs_job_iter job (ls_buffer s) r1 b' :: calls). simpl.
      rewrite Hlogf, Hl2, Hlog, <- app_assoc. split; [done|].
      rewrite Hszf, Hos2. lia.
    + unfold loop_inv. rewrite Hsize2, Hos2, Hai2, Hao2.
      unfold PY_SSIZE_T_MAX in *.
      rewrite to_size_t_small by lia. lia.
Qed.

Lemma iter_job_some fuel w args w' fin unused size :
  iter_job fuel w args = Some (w', Some (fin, unused, size)) →
  ∃ w0 job ib oa s0 r s',
    iter_job_prologue w args = (w0, Some (job, ib, oa, s0)) ∧
    iter_job_loop fuel job ib oa s0 = Some (Break r s') ∧
    fin = bool_decide (r = RS_DONE) ∧
    unused = to_Py_ssize_t (avail_in (ls_buffer s')) ∧
    size = ls_output_size s' ∧
    log w' = log (ls_world s') ∧
    (∀ o, object_bytes (heap w') o = object_bytes (heap (ls_world s')) o).
Proof.
  unfold iter_job. intros H.
  destruct (iter_job_prologue w args) as [w0 [[[[job ib] oa] s0]|]] eqn:Hpro;
    [|done].
  destruct (iter_job_loop fuel job ib oa s0) as [[s|r s|s]|] eqn:Hloop;
    try done.
  destruct (Py_BuildValue_Onn _ _ _ _) as [w1 ret1] eqn:Hbv.
  apply Py_BuildValue_Onn_spec in Hbv as (Hh1 & Hl1 & HR1 & He1 & Hret).
  inversion H; subst w' ret1; clear H.
  pose proof (release_buffers_spec w1 ib (ls_output_buf s))
    as (Hl2 & Hr2 & HR2 & He2 & Hs2 & Hb2).
  destruct Hret as [(Hret & _)|(? & _)]; [|done].
  inversion Hret; subst fin unused size; clear Hret.
  exists w0, job, ib, oa, s0, r, s. repeat split; try congruence.
Qed.

(** With an engine that honours the buffer contract, a call that returns
    a triple went through the loop with [loop_inv] all along. *)
Lemma iter_job_some_lawful fuel w c i oa w' fin unused size :
  honours_buffers E →
  Z.of_nat (length (object_bytes (heap w) i)) ≤ PY_SSIZE_T_MAX →
  PyByteArray_GET_SIZE w oa ≤ PY_SSIZE_T_MAX →
  iter_job fuel w [c; i; oa] = Some (w', Some (fin, unused, size)) →
  ∃ calls r b',
    log w' = rev calls ++ log w ∧
    iterations E (capsule_pointer (heap w) c)
      (entry_buffers
         (mk_pybuf i (Z.of_nat (length (object_bytes (heap w) i))))
         (mk_pybuf oa (PyByteArray_GET_SIZE w oa)))
      calls r b' ∧
    (r = RS_DONE ∨ r = RS_BLOCKED) ∧
    fin = bool_decide (r = RS_DONE) ∧
    unused = avail_in b' ∧
    size = total_produced calls ∧
    0 ≤ unused ≤ Z.of_nat (length (object_bytes (heap w) i)) ∧
    0 ≤ size ≤ PyByteArray_GET_SIZE w' oa.
Proof.
  intros Hlaw Hin Hout H.
  apply iter_job_some in H
    as (w0 & job & ib & oa' & s0 & r & s' & Hpro & Hloop & -> & -> & -> & Hlog & Hbytes).
  apply iter_job_prologue_ok in Hpro
    as (c' & i' & Hargs & _ & -> & _ & _ & -> & -> & Hl0 & _ & _ & _ & _ & Hb0).
  inversion Hargs; subst c' i' oa'; clear Hargs.
  set (L := Z.of_nat (length (object_bytes (heap w) i))) in *.
  assert (0 ≤ L) by (unfold L; lia).
  assert (0 ≤ PyByteArray_GET_SIZE w oa) by (unfold PyByteArray_GET_SIZE; lia).
  assert (PyByteArray_GET_SIZE w0 oa = PyByteArray_GET_SIZE w oa) as Hsz0
    by (unfold PyByteArray_GET_SIZE; by rewrite Hb0).
  pose proof (iter_job_loop_spec _ _ _ _ _ _ Hloop)
    as (calls & rf & bf & Hit & Hlogf & _ & _ & Hfin).
  simpl in Hit, Hlogf, Hfin. destruct Hfin as (<- & Hr & Hbf & _).
  eapply (iter_job_loop_lawful L) in Hloop
    as (Hinv & calls2 & Hlog2 & Hsize); [|done|].
  2:{ unfold loop_inv, entry_buffers, PY_SSIZE_T_MAX in *. simpl.
      rewrite Hsz0, !to_size_t_small by lia. lia. }
  simpl in Hlog2, Hsize.
  assert (calls2 = calls) as ->.
  { rewrite Hlogf in Hlog2. apply app_inv_tail in Hlog2.
    apply (f_equal (@rev _)) in Hlog2. by rewrite !rev_involutive in Hlog2. }
  destruct Hinv as (Hai & Hos & Hao & Hsum & Hmax).
  assert (PyByteArray_GET_SIZE w' oa = PyByteArray_GET_SIZE (ls_world s') oa)
    as Hszf by (unfold PyByteArray_GET_SIZE; by rewrite Hbytes).
  assert (to_Py_ssize_t (avail_in (ls_buffer s')) = avail_in (ls_buffer s'))
    as Hun by (apply to_Py_ssize_t_small; lia).
  exists calls, r, bf. rewrite Hun, Hszf, <- Hbf.
  repeat split; try congruence; try lia.
Qed.

(** ** Chains of iterations *)

Lemma iterations_eof job b0 calls rf bf :
  keeps_eof E →
  iterations E job b0 calls rf bf →
  Forall (λ c, ∃ b r b',
            c = Call_rs_job_iter job b r b' ∧ eof_in b = eof_in b0) calls.
Proof.
  intros Hkeep Hit.
  induction Hit as [b r b' Hans|b r b' b2 calls rf bf Hans _ _ _ _ _ Heof _ IH].
  - constructor; [|constructor]. eauto.
  - constructor; [eauto|].
    destruct Hans as (? & ? & ? & ? & ? & ? & ? & ? & Hans).
    apply Hkeep in Hans.
    eapply Forall_impl; [exact IH|]. simpl.
    intros c (b3 & r3 & b3' & -> & Hb3). exists b3, r3, b3'.
    split; [done|]. congruence.
Qed.

(** An iteration that left no input is the last of its chain. *)
Lemma iterations_no_input_last job b0 calls rf bf pre j b r b' post :
  iterations E job b0 calls rf bf →
  calls = pre ++ Call_rs_job_iter j b r b' :: post →
  avail_in b' = 0 →
  post = [] ∧ r = rf ∧ b' = bf.
Proof.
  intros Hit. revert pre.
  induction Hit as [b1 r1 b1' Hans|b1 r1 b1' b2 calls rf bf Hans _ _ Hne _ _ _ _ IH];
    intros pre Heq Hzero.
  - destruct pre as [|? pre]; simpl in Heq.
    + inversion Heq; subst. done.
    + inversion Heq as [[Hc Hnil]]. by destruct pre.
  - destruct pre as [|? pre]; simpl in Heq.
    + inversion Heq; subst. done.
    + inversion Heq; subst. eauto.
Qed.

(** ** The result of a step *)

(** C1.  A call of [iter_job] that returns a triple made a chain of engine
    iterations; the first component tells whether the last answer was
    [RS_DONE] (it was [RS_BLOCKED] otherwise), the second is the input the
    engine left unconsumed, and the third is the sum, over the iterations,
    of the output space before minus the output space after.  The engine
    is assumed to honour the buffer contract, and the two buffers to have
    sizes that fit [Py_ssize_t]. *)
Theorem iter_job_returns_triple fuel w c i oa w' fin unused size :
  honours_buffers E →
  Z.of_nat (length (object_bytes (heap w) i)) ≤ PY_SSIZE_T_MAX →
  PyByteArray_GET_SIZE w oa ≤ PY_SSIZE_T_MAX →
  iter_job fuel w [c; i; oa] = Some (w', Some (fin, unused, size)) →
  ∃ calls r b',
    log w' = rev calls ++ log w ∧
    iterations E (capsule_pointer (heap w) c)
      (entry_buffers
         (mk_pybuf i (Z.of_nat (length (object_bytes (heap w) i))))
         (mk_pybuf oa (PyByteArray_GET_SIZE w oa)))
      calls r b' ∧
    (r = RS_DONE ∨ r = RS_BLOCKED) ∧
    fin = bool_decide (r = RS_DONE) ∧
    unused = avail_in b' ∧
    size = total_produced calls.
Proof.
  intros Hlaw Hin Hout H.
  destruct (iter_job_some_lawful _ _ _ _ _ _ _ _ _ Hlaw Hin Hout H)
    as (calls & r & b' & ? & ? & ? & ? & ? & ? & _).
  exists calls, r, b'. auto 10.
Qed.

(** C10.  The triple returned is within bounds: the unused input is at
    most the length of the chunk (so it is zero for an empty chunk), and
    the bytes produced are at most the final size of the output array. *)
Theorem iter_job_result_bounds fuel w c i oa w' fin unused size :
  honours_buffers E →
  Z.of_nat (length (object_bytes (heap w) i)) ≤ PY_SSIZE_T_MAX →
  PyByteArray_GET_SIZE w oa ≤ PY_SSIZE_T_MAX →
  iter_job fuel w [c; i; oa] = Some (w', Some (fin, unused, size)) →
  0 ≤ unused ≤ Z.of_nat (length (object_bytes (heap w) i)) ∧
  0 ≤ size ≤ PyByteArray_GET_SIZE w' oa ∧
  (object_bytes (heap w) i = [] → unused = 0).
Proof.
  intros Hlaw Hin Hout H.
  destruct (iter_job_some_lawful _ _ _ _ _ _ _ _ _ Hlaw Hin Hout H)
    as (calls & r & b' & _ & _ & _ & _ & _ & _ & Hun & Hsz).
  split; [done|]. split; [done|].
  intros Hnil. rewrite Hnil in Hun. simpl in Hun. lia.
Qed.

(** C6.  Every engine iteration of a step is told [eof_in = 1] when the
    input chunk of the step is empty and [eof_in = 0] when it is not; the
    engine is assumed not to write the flag. *)
Theorem eof_iff_empty_input fuel w args i w' ret calls :
  keeps_eof E →
  args !! 1%nat = Some i →
  iter_job fuel w args = Some (w', ret) →
  log w' = calls ++ log w →
  Forall (λ c, ∃ job b r b',
            c = Call_rs_job_iter job b r b' ∧
            eof_in b = match object_bytes (heap w) i with [] => 1 | _ => 0 end)
    calls.
Proof.
  intros Hkeep Hi H Hlog.
  apply iter_job_spec in H as (_ & _ & [(_ & Hl & _)|Hrun]).
  { rewrite Hl in Hlog. symmetry in Hlog.
    apply (app_inv_tail (log w) calls []) in Hlog. subst. constructor. }
  destruct Hrun as (w0 & job & ib & oa & s0 & calls0 & r & b' & Hpro & Hit & Hl & _).
  apply iter_job_prologue_ok in Hpro
    as (c' & i' & -> & _ & _ & _ & _ & -> & -> & _).
  simpl in Hi. inversion Hi; subst i'; clear Hi.
  rewrite Hl in Hlog. apply app_inv_tail in Hlog. subst calls.
  apply Forall_rev. simpl in Hit.
  eapply Forall_impl; [exact (iterations_eof _ _ _ _ _ Hkeep Hit)|].
  simpl. intros c (b & rr & bb & -> & Heof). exists job, b, rr, bb.
  split; [done|]. rewrite Heof.
  destruct (object_bytes (heap w) i) as [|x l]; simpl; [done|].
  destruct (0 <? Z.of_nat (S (length l))) eqn:Hlt; [done|].
  apply Z.ltb_ge in Hlt. lia.
Qed.

(** An iteration that answers neither [RS_DONE] nor [RS_BLOCKED] and
    leaves no input ends the step with the module's exception. *)
Lemma iter_job_error_surfaces
    fuel w args w' ret newer job b r b' older :
  iter_job fuel w args = Some (w', ret) →
  log w' = newer ++ Call_rs_job_iter job b r b' :: older ++ log w →
  r ≠ RS_DONE → r ≠ RS_BLOCKED → avail_in b' = 0 →
  newer = [] ∧ ret = None ∧
  py_err (rt w') = Some (PyExc_Object (RsyncError w), rs_strerror E r).
Proof.
  intros H Hlog Hd Hb Hzero.
  apply iter_job_spec in H as (_ & _ & [(_ & Hl & _)|Hrun]).
  { rewrite Hl in Hlog. apply (f_equal length) in Hlog.
    rewrite length_app in Hlog. simpl in Hlog. rewrite length_app in Hlog.
    lia. }
  destruct Hrun as (w0 & j0 & ib & oa & s0 & calls0 & rf & bf & _ & Hit & Hl & Hret).
  rewrite Hl in Hlog.
  replace (newer ++ Call_rs_job_iter job b r b' :: older ++ log w)
    with ((newer ++ Call_rs_job_iter job b r b' :: older) ++ log w) in Hlog
    by (by rewrite <- app_assoc).
  apply app_inv_tail in Hlog.
  apply (f_equal (@rev _)) in Hlog. rewrite rev_involutive in Hlog.
  rewrite rev_app_distr in Hlog. simpl in Hlog. rewrite <- app_assoc in Hlog.
  simpl in Hlog.
  destruct (iterations_no_input_last _ _ _ _ _ _ _ _ _ _ _ Hit Hlog Hzero)
    as (Hpost & -> & ->).
  split.
  { apply (f_equal (@rev _)) in Hpost. by rewrite rev_involutive in Hpost. }
  destruct ret as [[[? ?] ?]|].
  { destruct Hret as ([?|?] & _); done. }
  split; [done|].
  destruct Hret as [([?|?] & _)|(_ & _ & Herr)]; try done. auto.
Qed.


(** ** Growing the output array *)

Lemma grown_size_small w oa :
  2 * PyByteArray_GET_SIZE w oa ≤ PY_SSIZE_T_MAX →
  grown_size w oa = MAX IO_BUFFER_SIZE (2 * PyByteArray_GET_SIZE w oa).
Proof.
  intros H. apply grown_size_exact.
  - unfold PyByteArray_GET_SIZE in *. lia.
  - unfold grown_size, MAX, IO_BUFFER_SIZE, PY_SSIZE_T_MAX in *.
    assert (0 ≤ PyByteArray_GET_SIZE w oa)
      by (unfold PyByteArray_GET_SIZE; lia).
    rewrite to_size_t_small by lia.
    rewrite to_Py_ssize_t_small; unfold PY_SSIZE_T_MAX; lia.
Qed.

(** The array can grow when the view of the loop is its only export, the
    doubled size fits [Py_ssize_t] and the runtime can allocate. *)
Lemma grow_output_continues oa b os ob w n d :
  oa ≠ NULL → buf_obj ob = oa →
  heap w !! oa = Some (mk_obj n (PyByteArray d 1)) →
  2 * Z.of_nat (length d) ≤ PY_SSIZE_T_MAX →
  (0 < py_allocs (rt w))%nat →
  ∃ s', grow_output oa b os ob w = Continue s' ∧
        exports (heap (ls_world s')) oa = 1.
Proof.
  intros Hnull Hob Hoa Hfit Halloc.
  assert (PyByteArray_GET_SIZE w oa = Z.of_nat (length d)) as Hsz.
  { unfold PyByteArray_GET_SIZE, object_bytes. by rewrite Hoa. }
  pose proof (grown_size_small w oa ltac:(lia)) as Hg.
  unfold grow_output, PyBuffer_Release. rewrite Hob.
  destruct (oa =? NULL) eqn:Hz; [apply Z.eqb_eq in Hz; done|].
  rewrite Hoa. simpl.
  set (w1 := set_heap _ w).
  assert (grown_size w1 oa = grown_size w oa) as Hg1.
  { unfold grown_size, PyByteArray_GET_SIZE, w1. simpl.
    rewrite object_bytes_insert_bytearray, decide_True by done.
    unfold object_bytes. by rewrite Hoa. }
  rewrite Hg1.
  unfold PyByteArray_Resize. unfold w1 at 1. simpl.
  rewrite lookup_insert_eq.
  assert (0 ≤ grown_size w oa) as Hpos.
  { rewrite Hg. unfold MAX, IO_BUFFER_SIZE. lia. }
  destruct (grown_size w oa <? 0) eqn:Hneg; [apply Z.ltb_lt in Hneg; lia|].
  destruct (grown_size w oa =? Z.of_nat (length d)).
  { simpl. unfold PyObject_GetBuffer. unfold w1 at 1. simpl.
    rewrite lookup_insert_eq. simpl. eexists. split; [reflexivity|].
    unfold exports. simpl. rewrite lookup_insert_eq. lia. }
  replace (1 - 1) with 0 by lia. simpl.
  destruct (grown_size w oa <? Z.of_nat (length d)).
  { simpl. unfold PyObject_GetBuffer. simpl.
    rewrite lookup_insert_eq. simpl. eexists. split; [reflexivity|].
    unfold exports. simpl. rewrite lookup_insert_eq. lia. }
  unfold py_alloc. simpl.
  destruct (py_allocs (rt w)) as [|k]; [lia|]. simpl.
  unfold PyObject_GetBuffer. simpl. rewrite lookup_insert_eq. simpl.
  eexists. split; [reflexivity|].
  unfold exports. simpl. rewrite lookup_insert_eq. lia.
Qed.

(** It cannot grow while another view on it is held: the resize is
    refused, and the array is left as it was but for the view given
    back. *)
Lemma grow_output_refused oa b os ob w n d e :
  oa ≠ NULL → buf_obj ob = oa →
  heap w !! oa = Some (mk_obj n (PyByteArray d e)) → 1 < e →
  2 * Z.of_nat (length d) ≤ PY_SSIZE_T_MAX →
  ∃ s',
    grow_output oa b os ob w = ReturnNULL s' ∧
    py_err (rt (ls_world s'))
      = Some (PyExc_BufferError,
              "Existing exports of data: object cannot be re-sized") ∧
    heap (ls_world s') = <[oa := mk_obj n (PyByteArray d (e - 1))]> (heap w) ∧
    log (ls_world s') = log w.
Proof.
  intros Hnull Hob Hoa He Hfit.
  assert (PyByteArray_GET_SIZE w oa = Z.of_nat (length d)) as Hsz.
  { unfold PyByteArray_GET_SIZE, object_bytes. by rewrite Hoa. }
  pose proof (grown_size_small w oa ltac:(lia)) as Hg.
  unfold grow_output, PyBuffer_Release. rewrite Hob.
  destruct (oa =? NULL) eqn:Hz; [apply Z.eqb_eq in Hz; done|].
  rewrite Hoa. simpl.
  set (w1 := set_heap _ w).
  assert (grown_size w1 oa = grown_size w oa) as Hg1.
  { unfold grown_size, PyByteArray_GET_SIZE, w1. simpl.
    rewrite object_bytes_insert_bytearray, decide_True by done.
    unfold object_bytes. by rewrite Hoa. }
  rewrite Hg1.
  unfold PyByteArray_Resize. unfold w1 at 1. simpl.
  rewrite lookup_insert_eq.
  assert (Z.of_nat (length d) < grown_size w oa) as Hlt.
  { rewrite Hg, Hsz. unfold MAX, IO_BUFFER_SIZE. lia. }
  destruct (grown_size w oa <? 0) eqn:Hneg; [apply Z.ltb_lt in Hneg; lia|].
  destruct (grown_size w oa =? Z.of_nat (length d)) eqn:Heq;
    [apply Z.eqb_eq in Heq; lia|].
  destruct (0 <? e - 1) eqn:Hex; [|apply Z.ltb_ge in Hex; lia].
  simpl. eexists. split; [reflexivity|]. simpl. done.
Qed.

(** C2, as the code has it.  When an iteration answers neither [RS_DONE]
    nor [RS_BLOCKED] and leaves input unconsumed, the driver gives back
    its view of the output array and asks for the array to be resized to
    the larger of [IO_BUFFER_SIZE] and twice its size.  [e] is the number
    of exports of the array when the iteration returns, the view of the
    loop among them.

    When that view is the only export, twice the size fits [Py_ssize_t]
    and the runtime can allocate, the array grows and the loop goes on: the
    old content of the array, and with it every byte produced so far, is
    the front of the new content; the next iteration gets the input cursor
    that the engine left, and an output cursor placed behind the bytes
    produced; the view taken anew is again the only export.

    When there is another export, as when the array is also the input
    chunk of the step or the caller holds a view on it, the resize is
    refused: the step ends with [BufferError], the array keeps size and
    content, and the engine is not called again. *)
Theorem output_grows_and_resumes fuel job ib oa s r b' w1 n d e :
  call_rs_job_iter (ls_world s) job (ls_buffer s) (buf_obj ib) oa
    = (r, b', w1) →
  r ≠ RS_DONE → r ≠ RS_BLOCKED → avail_in b' ≠ 0 →
  oa ≠ NULL → buf_obj (ls_output_buf s) = oa →
  heap w1 !! oa = Some (mk_obj n (PyByteArray d e)) →
  2 * Z.of_nat (length d) ≤ PY_SSIZE_T_MAX →
  (e = 1 → (0 < py_allocs (rt w1))%nat →
   ∃ s',
     iter_job_body job ib oa s = Continue s' ∧
     iter_job_loop (S fuel) job ib oa s = iter_job_loop fuel job ib oa s' ∧
     PyByteArray_GET_SIZE (ls_world s') oa
       = MAX IO_BUFFER_SIZE (2 * Z.of_nat (length d)) ∧
     d `prefix_of` object_bytes (heap (ls_world s')) oa ∧
     ls_output_size s'
       = to_Py_ssize_t
           (ls_output_size s
            + to_size_t (avail_out (ls_buffer s) - avail_out b')) ∧
     next_in (ls_buffer s') = next_in b' ∧
     avail_in (ls_buffer s') = avail_in b' ∧
     eof_in (ls_buffer s') = eof_in b' ∧
     next_out (ls_buffer s') = ls_output_size s' ∧
     avail_out (ls_buffer s')
       = to_size_t (PyByteArray_GET_SIZE (ls_world s') oa - ls_output_size s') ∧
     exports (heap (ls_world s')) oa = 1 ∧
     log (ls_world s') = log w1) ∧
  (1 < e →
   ∃ s',
     iter_job_body job ib oa s = ReturnNULL s' ∧
     iter_job_loop (S fuel) job ib oa s = Some (ReturnNULL s') ∧
     py_err (rt (ls_world s'))
       = Some (PyExc_BufferError,
               "Existing exports of data: object cannot be re-sized") ∧
     object_bytes (heap (ls_world s')) oa = d ∧
     log (ls_world s') = log w1).
Proof.
  intros Hcall Hd Hb Ha Hnull Hob Hoa Hfit.
  destruct (iter_job_body_cases job ib oa s) as (r1 & b1 & w1' & Hcall' & Hcases).
  rewrite Hcall in Hcall'. inversion Hcall'; subst r1 b1 w1'; clear Hcall'.
  simpl in Hcases.
  destruct Hcases as [[[?|?] _]|[(_ & _ & ? & _)|(_ & _ & _ & Hbody)]];
    try done.
  set (os := to_Py_ssize_t _) in *.
  split.
  - intros -> Halloc.
    destruct (grow_output_continues oa b' os (ls_output_buf s) w1 n d
                Hnull Hob Hoa Hfit Halloc) as (s' & Hgrow & Hexp).
    pose proof (grow_output_spec oa b' os (ls_output_buf s) w1) as Hspec.
    simpl in Hspec. rewrite Hgrow in Hspec. simpl in Hspec.
    destruct Hspec as (Hl & _ & _ & _ & Hos & Hni & Hai & Hei & Hno & Hao & _ & _ & Hbytes).
    assert (PyByteArray_GET_SIZE w1 oa = Z.of_nat (length d)) as Hsz.
    { unfold PyByteArray_GET_SIZE, object_bytes. by rewrite Hoa. }
    assert (grown_size w1 oa = MAX IO_BUFFER_SIZE (2 * Z.of_nat (length d)))
      as Hg by (rewrite <- Hsz; apply grown_size_small; lia).
    assert (object_bytes (heap w1) oa = d) as Hd1
      by (unfold object_bytes; by rewrite Hoa).
    assert (Z.of_nat (length d) ≤ grown_size w1 oa) as Hge
      by (rewrite Hg; unfold MAX; lia).
    assert (PyByteArray_GET_SIZE (ls_world s') oa = grown_size w1 oa) as Hsz'.
    { unfold PyByteArray_GET_SIZE. rewrite Hbytes, length_resize. lia. }
    exists s'. rewrite Hbody, Hgrow. simpl. rewrite Hbody, Hgrow.
    rewrite Hsz', Hos, Hno, Hao, <- Hg.
    repeat split; auto.
    rewrite Hbytes, Hd1, resize_ge by lia. by apply prefix_app_r.
  - intros He.
    destruct (grow_output_refused oa b' os (ls_output_buf s) w1 n d e
                Hnull Hob Hoa He Hfit) as (s' & Hgrow & Herr & Hheap & Hlog).
    exists s'. rewrite Hbody, Hgrow. simpl. rewrite Hbody, Hgrow.
    repeat split; auto.
    rewrite Hheap, object_bytes_insert_bytearray. by rewrite decide_True.
Qed.

(** ** A step with an empty chunk *)

Lemma iterations_first job b0 calls rf bf :
  iterations E job b0 calls rf bf →
  ∃ r b' rest, calls = Call_rs_job_iter job b0 r b' :: rest.
Proof. intros [|]; eauto. Qed.

(** C7, as the code has it.  The driver keeps no record of completion: a
    step with an empty chunk always starts an engine iteration, with
    [eof_in] set and no input; when that iteration answers [RS_DONE]
    without consuming or producing anything, as a finished job does, it is
    the only one, and the step returns [(true, 0, 0)]. *)
Theorem empty_step_asks_engine w args w0 job ib oa s0 :
  iter_job_prologue w args = (w0, Some (job, ib, oa, s0)) →
  buf_len ib = 0 →
  eof_in (ls_buffer s0) = 1 ∧ avail_in (ls_buffer s0) = 0 ∧
  (∀ fuel w' ret,
     iter_job fuel w args = Some (w', ret) →
     ∃ newer r b',
       log w' = newer ++ Call_rs_job_iter job (ls_buffer s0) r b' :: log w) ∧
  (∀ fuel b' w1,
     call_rs_job_iter (ls_world s0) job (ls_buffer s0) (buf_obj ib) oa
       = (RS_DONE, b', w1) →
     avail_in b' = 0 → avail_out b' = avail_out (ls_buffer s0) →
     (0 < py_allocs (rt w1))%nat →
     ∃ w',
       iter_job (S fuel) w args = Some (w', Some (true, 0, 0)) ∧
       log w' = Call_rs_job_iter job (ls_buffer s0) RS_DONE b' :: log w).
Proof.
  intros Hpro Hlen.
  pose proof (iter_job_prologue_ok _ _ _ _ _ _ _ Hpro)
    as (c & i & Hargs & _ & _ & _ & _ & Hib & Hs0 & Hl0 & _).
  assert (ls_buffer s0
          = entry_buffers ib (mk_pybuf oa (PyByteArray_GET_SIZE w oa))
          ∧ ls_output_size s0 = 0 ∧ ls_world s0 = w0) as (Hb0 & Hos0 & Hw0)
    by (by rewrite Hs0).
  split; [by rewrite Hb0; unfold entry_buffers; rewrite Hlen|].
  split; [by rewrite Hb0; unfold entry_buffers; rewrite Hlen|].
  split.
  - intros fuel w' ret H.
    apply iter_job_spec in H as (_ & _ & [(_ & _ & _ & Hfail & _)|Hrun]).
    + rewrite Hpro in Hfail. done.
    + destruct Hrun as (w0' & j' & ib' & oa' & s0' & calls & r & b' & Hpro' & Hit & Hl & _).
      rewrite Hpro in Hpro'. inversion Hpro'; subst; clear Hpro'.
      apply iterations_first in Hit as (r0 & b0' & rest & ->).
      exists (rev rest), r0, b0'. rewrite Hl. simpl.
      by rewrite <- app_assoc.
  - intros fuel b' w1 Hcall Hai Hao Halloc.
    pose proof (call_rs_job_iter_spec _ _ _ _ _ _ _ _ Hcall)
      as (_ & Hlog1 & _).
    destruct (iter_job_body_cases job ib oa s0) as (r1 & b1 & w1' & Hcall' & Hcases).
    rewrite Hcall in Hcall'. inversion Hcall'; subst r1 b1 w1'; clear Hcall'.
    simpl in Hcases.
    destruct Hcases as [[_ Hbody]|[(? & _)|(? & _)]]; try done.
    unfold iter_job. rewrite Hpro. simpl. rewrite Hbody. simpl.
    unfold Py_BuildValue_Onn, py_alloc.
    destruct (py_allocs (rt w1)) as [|k] eqn:Hk; [lia|]. simpl.
    eexists. split.
    + rewrite Hai, Hao, Hos0, Z.sub_diag. reflexivity.
    + pose proof (release_buffers_spec
        (set_rt (mk_rt (py_err (rt w1)) k (py_calls (rt w1))) w1)
        ib (ls_output_buf s0)) as (Hl & _).
      rewrite Hl. simpl. rewrite Hlog1. congruence.
Qed.

(** ** Capsules of the wrong kind *)

Lemma PyCapsule_IsValid_name w c name :
  PyCapsule_IsValid w c name = true → capsule_name (heap w) c = name.
Proof.
  unfold PyCapsule_IsValid, name_matches. intros H.
  apply andb_true_iff in H as [_ H]. by apply bool_decide_eq_true in H.
Qed.

Lemma GET_SIG_FROM_CAPSULE_spec w c w' sig :
  GET_SIG_FROM_CAPSULE w c = (w', sig) →
  heap w' = heap w ∧ log w' = log w ∧ RsyncError w' = RsyncError w ∧
  engine w' = engine w ∧
  ((sig = NULL ∧
    PyCapsule_IsValid w c (Some SIGNATURE_CAPSULE) = false ∧
    py_err (rt w') = Some (PyExc_TypeError, "Not a sig capsule"))
   ∨ (sig ≠ NULL ∧ w' = w ∧ sig = capsule_pointer (heap w) c ∧
      PyCapsule_IsValid w c (Some SIGNATURE_CAPSULE) = true)).
Proof.
  unfold GET_SIG_FROM_CAPSULE, PyCapsule_GetPointer, PyCapsule_IsValid,
    name_matches.
  intros H.
  destruct (is_legal_capsule (heap w) c) eqn:Hlegal; simpl in H.
  2:{ inversion H; subst. simpl. auto 10. }
  destruct (bool_decide (Some SIGNATURE_CAPSULE = capsule_name (heap w) c))
    eqn:Hname; simpl in H.
  2:{ inversion H; subst. simpl. repeat split; auto. left.
      repeat split; auto. apply bool_decide_eq_false in Hname.
      apply bool_decide_eq_false. congruence. }
  apply bool_decide_eq_true in Hname.
  assert (capsule_pointer (heap w) c ≠ NULL) as Hp.
  { unfold is_legal_capsule, capsule_pointer in *.
    destruct (heap w !! c) as [[n []]|]; try done.
    apply negb_true_iff, Z.eqb_neq in Hlegal. done. }
  destruct (capsule_pointer (heap w) c =? NULL) eqn:Hz.
  { apply Z.eqb_eq in Hz. done. }
  inversion H; subst. repeat split; auto. right. repeat split; auto.
  apply bool_decide_eq_true. congruence.
Qed.

Lemma PyArg_ParseTuple_capsule_spec w args w' ret :
  PyArg_ParseTuple_capsule w args = (w', ret) →
  match ret with
  | Some c => w' = w ∧ args = [c]
  | None =>
      heap w' = heap w ∧ log w' = log w ∧ engine w' = engine w ∧
      ∃ msg, py_err (rt w') = Some (PyExc_TypeError, msg)
  end.
Proof.
  unfold PyArg_ParseTuple_capsule. intros H.
  destruct args as [|a [|? ?]]; try (inversion H; subst; simpl; eauto 10).
  destruct (is_capsule (heap w) a); inversion H; subst; simpl; eauto 10.
Qed.

Lemma refusal_cases h c rest :
  is_capsule h c = true →
  (∀ i oa t m, rest = [i; oa] → refused h i = Some (t, m) →
               refusal h (c :: rest) = t) ∧
  ((∀ i oa, rest = [i; oa] → refused h i = None) →
   refusal h (c :: rest) = PyExc_TypeError).
Proof.
  intros Hcap. unfold refusal. split.
  - intros i oa t m -> Hi. by rewrite Hcap, Hi.
  - intros H. destruct rest as [|i [|oa [|? ?]]]; try done.
    by rewrite Hcap, (H i oa eq_refl).
Qed.

(** C9, as the code has it.  A capsule of the wrong kind, whatever else is
    passed with it, makes [build_hash_table] and [begin_create_delta] fail
    with [TypeError].  It makes [iter_job] fail too, but [iter_job]
    converts its input before it looks into the capsule: when the input
    has the buffer protocol and gives no buffer, as a memory view that is
    not C-contiguous, the exception is that of the input, [BufferError]
    for the memory view; in every other case it is [TypeError].  In all
    three functions no engine function has been called and the state of
    the engine is what it was. *)
Theorem wrong_capsule_is_refused fuel w c rest :
  is_capsule (heap w) c = true →
  (capsule_name (heap w) c ≠ Some JOB_WITH_CALLBACK_CAPSULE →
   ∃ w' t msg,
     iter_job fuel w (c :: rest) = Some (w', None) ∧
     py_err (rt w') = Some (t, msg) ∧
     (∀ i oa t' m, rest = [i; oa] → refused (heap w) i = Some (t', m) →
                   t = t') ∧
     ((∀ i oa, rest = [i; oa] → refused (heap w) i = None) →
      t = PyExc_TypeError) ∧
     log w' = log w ∧ engine w' = engine w) ∧
  (capsule_name (heap w) c ≠ Some SIGNATURE_CAPSULE →
   (∃ w' msg,
      build_hash_table w (c :: rest) = (w', None) ∧
      py_err (rt w') = Some (PyExc_TypeError, msg) ∧
      log w' = log w ∧ engine w' = engine w) ∧
   (∃ w' msg,
      begin_create_delta w (c :: rest) = (w', NULL) ∧
      py_err (rt w') = Some (PyExc_TypeError, msg) ∧
      log w' = log w ∧ engine w' = engine w)).
Proof.
  intros Hcap. split.
  - intros Hname. unfold iter_job.
    destruct (iter_job_prologue w (c :: rest))
      as [w0 [[[[job ib] oa] s0]|]] eqn:Hpro.
    + apply iter_job_prologue_ok in Hpro as (c' & i & Hargs & Hvalid & _).
      inversion Hargs; subst c'. apply PyCapsule_IsValid_name in Hvalid. done.
    + apply iter_job_prologue_fail in Hpro as ((msg & Herr) & Hl & _ & He & _).
      destruct (refusal_cases (heap w) c rest Hcap) as [Hbuf Htype].
      exists w0, (refusal (heap w) (c :: rest)), msg. auto 10.
  - intros Hname. split.
    + unfold build_hash_table.
      destruct (PyArg_ParseTuple_capsule w (c :: rest)) as [w1 [c'|]] eqn:Hparse;
        apply PyArg_ParseTuple_capsule_spec in Hparse.
      2:{ destruct Hparse as (_ & ? & ? & msg & ?). eauto 10. }
      destruct Hparse as [-> Hargs]. inversion Hargs; subst c' rest.
      destruct (GET_SIG_FROM_CAPSULE w c) as [w2 sig] eqn:Hsig.
      apply GET_SIG_FROM_CAPSULE_spec in Hsig as (_ & ? & _ & ? & Hcases).
      destruct Hcases as [(-> & _ & Herr)|(_ & _ & _ & Hvalid)].
      * simpl. eauto 10.
      * apply PyCapsule_IsValid_name in Hvalid. done.
    + unfold begin_create_delta.
      destruct (PyArg_ParseTuple_capsule w (c :: rest)) as [w1 [c'|]] eqn:Hparse;
        apply PyArg_ParseTuple_capsule_spec in Hparse.
      2:{ destruct Hparse as (_ & ? & ? & msg & ?). eauto 10. }
      destruct Hparse as [-> Hargs]. inversion Hargs; subst c' rest.
      destruct (GET_SIG_FROM_CAPSULE w c) as [w2 sig] eqn:Hsig.
      apply GET_SIG_FROM_CAPSULE_spec in Hsig as (_ & ? & _ & ? & Hcases).
      destruct Hcases as [(-> & _ & Herr)|(_ & _ & _ & Hvalid)].
      * simpl. eauto 10.
      * apply PyCapsule_IsValid_name in Hvalid. done.
Qed.

(** ** Creating jobs *)

Lemma fresh_addr_spec (h : gmap Z PyObject) :
  fresh_addr h ≠ NULL ∧ h !! fresh_addr h = None.
Proof.
  unfold fresh_addr. pose proof (is_fresh ({[NULL]} ∪ dom h)) as H.
  split; [set_solver|]. apply not_elem_of_dom. set_solver.
Qed.

(** [CREATE_JOB] when the capsule can be allocated and the constructor of
    the engine leaves the objects of the interpreter alone. *)
Lemma CREATE_JOB_spec {A : Type} (func : world E → world E * ptr * A)
    (out0 : A) cb w r1 w2 job out :
  RsyncError w ≠ NULL →
  py_alloc (rt w) = Some r1 →
  func (set_heap
          (<[fresh_addr (heap w) := job_capsule_obj (RsyncError w) NULL]>
             (heap w))
          (set_rt r1 w)) = (w2, job, out) →
  heap w2
    = <[fresh_addr (heap w) := job_capsule_obj (RsyncError w) NULL]> (heap w) →
  RsyncError w2 = RsyncError w →
  CREATE_JOB func out0 cb w =
    if job =? NULL then
      (set_heap (delete (fresh_addr (heap w)) (heap w2)) w2, NULL, out)
    else if cb =? NULL then
      (set_heap (<[fresh_addr (heap w) := job_capsule_obj job NULL]> (heap w2))
         w2,
       fresh_addr (heap w), out)
    else
      (Py_INCREF
         (set_heap (<[fresh_addr (heap w) := job_capsule_obj job cb]> (heap w2))
            w2) cb,
       fresh_addr (heap w), out).
Proof.
  intros HR Halloc Hfunc Hheap HR2.
  destruct (fresh_addr_spec (heap w)) as [Hnn Hfresh].
  set (o := fresh_addr (heap w)) in *.
  unfold CREATE_JOB, PyCapsule_New.
  destruct (RsyncError w =? NULL) eqn:Hz; [apply Z.eqb_eq in Hz; done|].
  rewrite Halloc. fold o. fold (job_capsule_obj (RsyncError w) NULL).
  destruct (o =? NULL) eqn:Hzo; [apply Z.eqb_eq in Hzo; done|].
  rewrite Hfunc.
  assert (heap w2 !! o = Some (job_capsule_obj (RsyncError w) NULL)) as Ho
    by (rewrite Hheap; apply lookup_insert_eq).
  destruct (job =? NULL) eqn:Hj.
  - unfold Py_DECREF. rewrite Ho. simpl.
    unfold free_job_with_callback_capsule, PyCapsule_IsValid,
      PyCapsule_GetPointer, PyCapsule_GetContext, is_legal_capsule,
      capsule_name, capsule_pointer, capsule_context, name_matches.
    rewrite Ho. simpl. rewrite Hz. simpl.
    rewrite HR2, Z.eqb_refl, andb_false_r.
    rewrite Ho. simpl. rewrite Hz. simpl. done.
  - unfold PyCapsule_SetPointer. rewrite Hj, Ho. simpl. rewrite Hz. simpl.
    destruct (cb =? NULL) eqn:Hcb; [done|].
    unfold PyCapsule_SetContext. simpl. rewrite lookup_insert_eq. simpl.
    rewrite Hj. simpl. rewrite insert_insert_eq. done.
Qed.

Lemma py_alloc_pos r : (0 < py_allocs r)%nat → ∃ r1, py_alloc r = Some r1.
Proof. unfold py_alloc. destruct (py_allocs r); [lia|eauto]. Qed.

(** C4, as the code has it.  [begin_create_delta] does not look at what
    has been done with the signature before: for every signature capsule,
    with or without a call of [build_hash_table] on record, it hands the
    signature to the engine's [rs_delta_begin], and returns a job capsule
    around the job when the engine returns one. *)
Theorem begin_create_delta_asks_engine w c n sig ctx d job e :
  heap w !! c = Some (mk_obj n (PyCapsule sig (Some SIGNATURE_CAPSULE) ctx d)) →
  sig ≠ NULL → RsyncError w ≠ NULL → (0 < py_allocs (rt w))%nat →
  rs_delta_begin E sig (engine w) = (job, e) →
  ∃ w' cap,
    begin_create_delta w [c] = (w', cap) ∧
    log w' = Call_rs_delta_begin sig job :: log w ∧
    engine w' = e ∧
    (job = NULL → cap = NULL) ∧
    (job ≠ NULL →
     cap ≠ NULL ∧ heap w !! cap = None ∧
     heap w' !! cap = Some (job_capsule_obj job NULL) ∧
     py_err (rt w') = py_err (rt w)).
Proof.
  intros Hc Hsig HR Halloc Hdelta.
  destruct (py_alloc_pos _ Halloc) as (r1 & Hr1).
  destruct (fresh_addr_spec (heap w)) as [Hnn Hfresh].
  unfold begin_create_delta, PyArg_ParseTuple_capsule, is_capsule.
  rewrite Hc.
  unfold GET_SIG_FROM_CAPSULE, PyCapsule_GetPointer, is_legal_capsule,
    name_matches, capsule_name, capsule_pointer.
  rewrite Hc. simpl.
  destruct (sig =? NULL) eqn:Hz; [apply Z.eqb_eq in Hz; done|]. simpl.
  rewrite Hz.
  match goal with
  | |- context [CREATE_JOB ?func _ _ _] =>
      pose proof (λ w2, CREATE_JOB_spec func tt NULL w r1 w2 job tt HR Hr1)
        as Hcj
  end.
  simpl in Hcj. rewrite Hdelta in Hcj.
  rewrite (Hcj _ eq_refl eq_refl eq_refl). clear Hcj.
  rewrite ?Hz. simpl. destruct (job =? NULL) eqn:Hj.
  - apply Z.eqb_eq in Hj. eexists _, _. split; [reflexivity|]. simpl.
    repeat split; done.
  - apply Z.eqb_neq in Hj. eexists _, _. split; [reflexivity|]. simpl.
    repeat split; try done.
    + rewrite lookup_insert_eq. done.
    + unfold py_alloc in Hr1. destruct (py_allocs (rt w)); [done|].
      by inversion Hr1.
Qed.

(** ** The callback of a patch job *)

Lemma begin_patch_ok w cb n f w' cap :
  heap w !! cb = Some (mk_obj n (PyFunction f)) → cb ≠ NULL →
  begin_patch w cb = (w', cap) → cap ≠ NULL →
  ∃ job,
    job ≠ NULL ∧ heap w !! cap = None ∧
    heap w' !! cap = Some (job_capsule_obj job cb) ∧
    heap w' !! cb = Some (mk_obj (n + 1) (PyFunction f)) ∧
    log w' = Call_rs_patch_begin cb job :: log w.
Proof.
  intros Hcb Hnn H Hcap.
  destruct (fresh_addr_spec (heap w)) as [Hon Hfresh].
  assert (fresh_addr (heap w) ≠ cb) as Hne by congruence.
  unfold begin_patch, PyCallable_Check in H. rewrite Hcb in H. simpl in H.
  destruct (RsyncError w =? NULL) eqn:HR.
  { unfold CREATE_JOB, PyCapsule_New in H. rewrite HR in H. simpl in H.
    inversion H; subst. done. }
  apply Z.eqb_neq in HR.
  destruct (py_alloc (rt w)) as [r1|] eqn:Halloc.
  2:{ unfold CREATE_JOB, PyCapsule_New in H.
      apply Z.eqb_neq in HR. rewrite HR, Halloc in H. simpl in H.
      inversion H; subst. done. }
  destruct (rs_patch_begin E copy_callback cb (engine w)) as [job e] eqn:Hpb.
  match type of H with
  | context [CREATE_JOB ?func _ _ _] =>
      pose proof (λ w2, CREATE_JOB_spec func tt cb w r1 w2 job tt HR Halloc)
        as Hcj
  end.
  simpl in Hcj. rewrite Hpb in Hcj.
  rewrite (Hcj _ eq_refl eq_refl eq_refl) in H. clear Hcj.
  simpl in H.
  destruct (job =? NULL) eqn:Hj; [inversion H; subst; done|].
  destruct (cb =? NULL) eqn:Hz; [apply Z.eqb_eq in Hz; done|].
  unfold Py_INCREF in H. simpl in H.
  rewrite lookup_insert_ne, lookup_insert_ne, Hcb in H by done.
  inversion H; subst w' cap; clear H. simpl.
  exists job. apply Z.eqb_neq in Hj.
  rewrite lookup_insert_ne, lookup_insert_eq, lookup_insert_eq by done.
  done.
Qed.

Lemma Py_DECREF_shared w cap m k o :
  heap w !! cap = Some (mk_obj m k) → 1 < m →
  heap (Py_DECREF w cap) !! o
  = if decide (cap = o) then Some (mk_obj (m - 1) k) else heap w !! o.
Proof.
  intros Hcap Hm. unfold Py_DECREF. rewrite Hcap.
  destruct (m <=? 1) eqn:Hle; [apply Z.leb_le in Hle; lia|].
  simpl. apply lookup_insert.
Qed.

Lemma Py_DECREF_job_capsule w cap job cb n k :
  heap w !! cap = Some (job_capsule_obj job cb) →
  job ≠ NULL → cb ≠ NULL → cb ≠ cap →
  heap w !! cb = Some (mk_obj n k) →
  heap (Py_DECREF w cap) !! cap = None ∧
  heap (Py_DECREF w cap) !! cb
    = (if n <=? 1 then None else Some (mk_obj (n - 1) k)) ∧
  log (Py_DECREF w cap)
    = (if decide (job = RsyncError w) then log w
       else Call_rs_job_free job :: log w).
Proof.
  intros Hcap Hjob Hnn Hne Hcb.
  unfold Py_DECREF. rewrite Hcap. simpl.
  unfold free_job_with_callback_capsule, PyCapsule_IsValid,
    PyCapsule_GetPointer, PyCapsule_GetContext, is_legal_capsule,
    capsule_name, capsule_pointer, capsule_context, name_matches.
  rewrite Hcap. simpl.
  destruct (job =? NULL) eqn:Hj; [apply Z.eqb_eq in Hj; done|]. simpl.
  destruct (cb =? NULL) eqn:Hz; [apply Z.eqb_eq in Hz; done|].
  destruct (decide (job = RsyncError w)) as [->|HjR].
  - rewrite Z.eqb_refl, andb_false_r. rewrite Hcap. simpl.
    rewrite Hj. simpl. rewrite Hz.
    unfold Py_DECREF_object. rewrite Hcb.
    destruct (n <=? 1); simpl.
    + rewrite lookup_delete_eq, lookup_delete_ne, lookup_delete_eq by done.
      done.
    + rewrite lookup_delete_eq, lookup_delete_ne, lookup_insert_eq by done.
      done.
  - apply Z.eqb_neq in HjR. rewrite HjR, Hj. simpl. rewrite Hcap. simpl.
    rewrite Hj. simpl. rewrite Hz.
    unfold Py_DECREF_object. simpl. rewrite Hcb.
    destruct (n <=? 1); simpl.
    + rewrite lookup_delete_eq, lookup_delete_ne, lookup_delete_eq by done.
      done.
    + rewrite lookup_delete_eq, lookup_delete_ne, lookup_insert_eq by done.
      done.
Qed.

(** C8.  [begin_patch] refuses an argument that is not callable with
    [TypeError], the state otherwise untouched; the capsule it returns for
    a callable has that callable as context and has added one reference to
    it; a step changes no object but byte arrays, so the context and the
    reference stay; dropping a reference to the capsule while others
    remain leaves the callable alone; and destroying the capsule gives the
    reference back. *)
Theorem begin_patch_holds_callback :
  (∀ w cb,
     PyCallable_Check (heap w) cb = false →
     begin_patch w cb
     = (raise PyExc_TypeError "callback must be a callable" w, NULL)) ∧
  (∀ w cb n f w' cap,
     heap w !! cb = Some (mk_obj n (PyFunction f)) → cb ≠ NULL →
     begin_patch w cb = (w', cap) → cap ≠ NULL →
     ∃ job,
       job ≠ NULL ∧ heap w !! cap = None ∧
       heap w' !! cap = Some (job_capsule_obj job cb) ∧
       heap w' !! cb = Some (mk_obj (n + 1) (PyFunction f)) ∧
       log w' = Call_rs_patch_begin cb job :: log w) ∧
  (∀ fuel w args w' ret,
     iter_job fuel w args = Some (w', ret) →
     same_objects (heap w) (heap w')) ∧
  (∀ w cap m k o,
     heap w !! cap = Some (mk_obj m k) → 1 < m →
     heap (Py_DECREF w cap) !! o
     = if decide (cap = o) then Some (mk_obj (m - 1) k) else heap w !! o) ∧
  (∀ w cap job cb n k,
     heap w !! cap = Some (job_capsule_obj job cb) →
     job ≠ NULL → cb ≠ NULL → cb ≠ cap →
     heap w !! cb = Some (mk_obj n k) →
     heap (Py_DECREF w cap) !! cap = None ∧
     heap (Py_DECREF w cap) !! cb
       = (if n <=? 1 then None else Some (mk_obj (n - 1) k)) ∧
     log (Py_DECREF w cap)
       = (if decide (job = RsyncError w) then log w
          else Call_rs_job_free job :: log w)).
Proof.
  split; [|split; [|split; [|split]]].
  - intros w cb H. unfold begin_patch. by rewrite H.
  - apply begin_patch_ok.
  - intros fuel w args w' ret H. by apply iter_job_spec in H as (_ & ? & _).
  - apply Py_DECREF_shared.
  - apply Py_DECREF_job_capsule.
Qed.

Lemma copy_callback_calls h cb n f pos len buf r :
  h !! cb = Some (mk_obj n (PyFunction f)) →
  (2 ≤ py_allocs r)%nat →
  ∃ code len' buf' r',
    copy_callback h cb pos len buf r = (code, len', buf', r') ∧
    py_calls r'
      = mk_pycall cb (resize (Z.to_nat len) Byte.x00 buf) pos :: py_calls r ∧
    match f (resize (Z.to_nat len) Byte.x00 buf) pos with
    | (_, Raises _) => code = RS_IO_ERROR ∧ py_err r' = None
    | (_, Returns (PyLong k)) => 0 ≤ k < 2 ^ 64 → code = RS_DONE ∧ len' = k
    | (_, Returns _) => code = RS_INTERNAL_ERROR
    end.
Proof.
  intros Hcb Halloc.
  unfold copy_callback, PyObject_CallFunction_OL, py_alloc.
  destruct (py_allocs r) as [|[|k]] eqn:Hk; [lia|lia|]. simpl.
  rewrite Hcb.
  destruct (f (resize (Z.to_nat len) Byte.x00 buf) pos) as [mem' [v|[t msg]]].
  - destruct v as [k'| | |]; simpl; try (eexists _, _, _, _; by split).
    unfold PyLong_AsSize_t.
    destruct (k' <? 0) eqn:Hneg; [|destruct (2 ^ 64 <=? k') eqn:Hbig];
      simpl; eexists _, _, _, _; (split; [reflexivity|]); simpl;
      (split; [done|]); intros Hrange; try done.
    + apply Z.ltb_lt in Hneg. lia.
    + apply Z.leb_le in Hbig. lia.
  - simpl. eexists _, _, _, _. split; [reflexivity|]. done.
Qed.

(** C5, as the code has it.  [copy_callback] calls the callable with a
    view of exactly [len] bytes and with the offset [pos].  When the
    callable raises, the exception is cleared and the engine is told
    [RS_IO_ERROR]; when it returns something that is not an integer, the
    engine is told [RS_INTERNAL_ERROR]; an integer that fits [size_t],
    whether or not it exceeds [len], becomes the new length and the engine
    is told [RS_DONE].  A step whose engine iteration ends with one of the
    two error codes and no input left fails with [RsyncError] carrying the
    engine's message for the code. *)
Theorem copy_callback_protocol h cb n f pos len buf r :
  h !! cb = Some (mk_obj n (PyFunction f)) →
  0 ≤ len →
  (2 ≤ py_allocs r)%nat →
  Z.of_nat (length (resize (Z.to_nat len) Byte.x00 buf)) = len ∧
  (∃ code len' buf' r',
     copy_callback h cb pos len buf r = (code, len', buf', r') ∧
     py_calls r'
       = mk_pycall cb (resize (Z.to_nat len) Byte.x00 buf) pos :: py_calls r ∧
     match f (resize (Z.to_nat len) Byte.x00 buf) pos with
     | (_, Raises _) => code = RS_IO_ERROR ∧ py_err r' = None
     | (_, Returns (PyLong k)) => 0 ≤ k < 2 ^ 64 → code = RS_DONE ∧ len' = k
     | (_, Returns _) => code = RS_INTERNAL_ERROR
     end) ∧
  (∀ fuel w args w' ret newer job b code b' older,
     iter_job fuel w args = Some (w', ret) →
     log w' = newer ++ Call_rs_job_iter job b code b' :: older ++ log w →
     code = RS_IO_ERROR ∨ code = RS_INTERNAL_ERROR →
     avail_in b' = 0 →
     ret = None ∧
     py_err (rt w')
       = Some (PyExc_Object (RsyncError w), rs_strerror E code)).
Proof.
  intros Hcb Hlen Halloc. split; [|split].
  - rewrite length_resize. lia.
  - by eapply copy_callback_calls.
  - intros fuel w args w' ret newer job b code b' older H Hlog Hcode Hzero.
    eapply iter_job_error_surfaces in H as (_ & ? & ?); eauto.
    + by destruct Hcode as [->| ->].
    + by destruct Hcode as [->| ->].
Qed.

(** ** The loop ends

    Every pass that continues doubles the output array, and an array of
    2^62 bytes or more cannot be doubled: 49 passes are always enough. *)

Lemma grown_size_lower w oa :
  0 ≤ grown_size w oa → IO_BUFFER_SIZE ≤ grown_size w oa ≤ PY_SSIZE_T_MAX.
Proof.
  intros Hpos. split; [|apply to_Py_ssize_t_range].
  revert Hpos. unfold grown_size, MAX, IO_BUFFER_SIZE, to_size_t.
  set (x := (PyByteArray_GET_SIZE w oa * 2) mod 2 ^ 64).
  assert (0 ≤ x < 2 ^ 64) by (apply Z.mod_pos_bound; lia).
  set (m := Z.max (64 * 1024) x).
  assert (64 * 1024 ≤ m < 2 ^ 64) by lia.
  destruct (Z_lt_ge_dec m (2 ^ 63)) as [Hlt|Hge].
  - rewrite to_Py_ssize_t_small; unfold PY_SSIZE_T_MAX; lia.
  - unfold to_Py_ssize_t.
    rewrite <- (Z.mod_unique (m + 2 ^ 63) (2 ^ 64) 1 (m - 2 ^ 63)); lia.
Qed.

Lemma iter_job_loop_ends_from (k : nat) job ib oa :
  ∀ s fuel,
    2 ^ (63 - Z.of_nat k) ≤ PyByteArray_GET_SIZE (ls_world s) oa →
    PyByteArray_GET_SIZE (ls_world s) oa ≤ PY_SSIZE_T_MAX →
    (k ≤ 48)%nat → (k < fuel)%nat →
    iter_job_loop fuel job ib oa s ≠ None.
Proof.
  induction k as [|k IH]; intros s fuel Hlow Hhigh Hk Hfuel.
  { unfold PY_SSIZE_T_MAX in Hhigh. simpl in Hlow. lia. }
  destruct fuel as [|fuel]; [lia|]. simpl.
  destruct (iter_job_body_cases job ib oa s) as (r & b' & w1 & Hcall & Hcases).
  apply call_rs_job_iter_spec in Hcall as (_ & _ & _ & _ & Hlen).
  assert (PyByteArray_GET_SIZE w1 oa = PyByteArray_GET_SIZE (ls_world s) oa)
    as Hsize by (unfold PyByteArray_GET_SIZE; by rewrite Hlen).
  simpl in Hcases.
  destruct Hcases as [[_ ->]|[(_ & _ & _ & ->)|(_ & _ & _ & ->)]]; try done.
  match goal with
  | |- context [grow_output oa b' ?os ?ob w1] =>
      pose proof (grow_output_spec oa b' os ob w1) as Hg; simpl in Hg;
      destruct (grow_output oa b' os ob w1) as [s2|?|s2]; try done
  end.
  destruct Hg as (_ & _ & _ & _ & _ & _ & _ & _ & _ & _ & _ & Hg0 & Hbytes).
  pose proof (grown_size_exact w1 oa ltac:(lia) Hg0) as Hgs.
  pose proof (grown_size_lower w1 oa Hg0) as [_ Hgmax].
  assert (PyByteArray_GET_SIZE (ls_world s2) oa = grown_size w1 oa) as Hsize2.
  { unfold PyByteArray_GET_SIZE at 1. rewrite Hbytes, length_resize. lia. }
  apply IH; [|lia|lia|lia].
  rewrite Hsize2, Hgs, Hsize.
  replace (63 - Z.of_nat k) with (Z.succ (63 - Z.of_nat (S k))) by lia.
  rewrite Z.pow_succ_r by lia. lia.
Qed.

Lemma iter_job_loop_ends fuel job ib oa s :
  (49 ≤ fuel)%nat → iter_job_loop fuel job ib oa s ≠ None.
Proof.
  intros Hfuel. destruct fuel as [|fuel]; [lia|]. simpl.
  destruct (iter_job_body_cases job ib oa s) as (r & b' & w1 & Hcall & Hcases).
  simpl in Hcases.
  destruct Hcases as [[_ ->]|[(_ & _ & _ & ->)|(_ & _ & _ & ->)]]; try done.
  match goal with
  | |- context [grow_output oa b' ?os ?ob w1] =>
      pose proof (grow_output_spec oa b' os ob w1) as Hg; simpl in Hg;
      destruct (grow_output oa b' os ob w1) as [s2|?|s2]; try done
  end.
  destruct Hg as (_ & _ & _ & _ & _ & _ & _ & _ & _ & _ & _ & Hg0 & Hbytes).
  pose proof (grown_size_lower w1 oa Hg0) as [Hglow Hgmax].
  assert (PyByteArray_GET_SIZE (ls_world s2) oa = grown_size w1 oa) as Hsize2.
  { unfold PyByteArray_GET_SIZE at 1. rewrite Hbytes, length_resize. lia. }
  apply (iter_job_loop_ends_from 47); [|lia|lia|lia].
  rewrite Hsize2. unfold IO_BUFFER_SIZE in Hglow. simpl. lia.
Qed.

(** [iter_job] returns, whatever the engine does, when it is given 49
    passes or more. *)
Lemma iter_job_ends fuel w args :
  (49 ≤ fuel)%nat → ∃ w' ret, iter_job fuel w args = Some (w', ret).
Proof.
  intros Hfuel. unfold iter_job.
  destruct (iter_job_prologue w args) as [w0 [[[[job ib] oa] s0]|]]; [|eauto].
  pose proof (iter_job_loop_ends fuel job ib oa s0 Hfuel) as Hends.
  destruct (iter_job_loop fuel job ib oa s0) as [[s|r s|s]|]; try done; eauto.
  destruct (Py_BuildValue_Onn _ _ _ _). eauto.
Qed.

(** C3, as the code has it.  When an engine iteration of a step answers
    neither [RS_DONE] nor [RS_BLOCKED] and leaves no input unconsumed, it
    is the last iteration of the step, and the step fails with
    [RsyncError] carrying the engine's message for the code.  (A step
    always comes to an end: 49 passes through the loop suffice.) *)
Theorem engine_error_without_input_fails fuel w args :
  ((49 ≤ fuel)%nat → ∃ w' ret, iter_job fuel w args = Some (w', ret)) ∧
  (∀ w' ret newer job b r b' older,
     iter_job fuel w args = Some (w', ret) →
     log w' = newer ++ Call_rs_job_iter job b r b' :: older ++ log w →
     r ≠ RS_DONE → r ≠ RS_BLOCKED → avail_in b' = 0 →
     newer = [] ∧ ret = None ∧
     py_err (rt w') = Some (PyExc_Object (RsyncError w), rs_strerror E r)).
Proof.
  split; [apply iter_job_ends|].
  intros w' ret newer job b r b' older. apply iter_job_error_surfaces.
Qed.

End Properties.

(** * Further properties

    Properties of the functions of the module beyond the sentences of the
    specification. *)

Section Further.

Context {E : librsync}.
Implicit Types (w : world E) (s : loop_state E) (o : ptr) (b : rs_buffers_t).

(** ** Arguments and outcomes of [iter_job] *)

Lemma same_objects_is_bytearray h h' o :
  same_objects h h' → is_bytearray h' o = is_bytearray h o.
Proof.
  intros Hs. specialize (Hs o). unfold is_bytearray.
  destruct (h !! o) as [[n []]|]; try (by rewrite Hs).
  by destruct Hs as (d' & e' & ->).
Qed.

Lemma same_objects_is_buffer h h' o :
  same_objects h h' → is_buffer h' o = is_buffer h o.
Proof.
  intros Hs. specialize (Hs o). unfold is_buffer.
  destruct (h !! o) as [[n []]|]; try (by rewrite Hs).
  by destruct Hs as (d' & e' & ->).
Qed.

Lemma same_objects_capsule h h' o :
  same_objects h h' →
  is_capsule h' o = is_capsule h o ∧
  is_legal_capsule h' o = is_legal_capsule h o ∧
  capsule_name h' o = capsule_name h o ∧
  capsule_pointer h' o = capsule_pointer h o.
Proof.
  intros Hs. specialize (Hs o).
  unfold is_capsule, is_legal_capsule, capsule_name, capsule_pointer.
  destruct (h !! o) as [[n []]|]; try (by rewrite Hs).
  by destruct Hs as (d' & e' & ->).
Qed.

Lemma PyObject_GetBuffer_buffer w o :
  is_buffer (heap w) o = true →
  ∃ w' v, PyObject_GetBuffer w o false = (w', 0, v).
Proof.
  unfold is_buffer, PyObject_GetBuffer.
  destruct (heap w !! o) as [[n [| | | | |d [[]|]]]|]; try done; eauto.
Qed.

Lemma PyObject_GetBuffer_is_buffer w o wr w' v :
  PyObject_GetBuffer w o wr = (w', 0, v) → is_buffer (heap w) o = true.
Proof.
  unfold is_buffer, PyObject_GetBuffer.
  destruct (heap w !! o) as [[n [| | | | |d [[]|]]]|]; try done.
Qed.

Lemma GET_JOB_FROM_CAPSULE_valid w c :
  PyCapsule_IsValid w c (Some JOB_WITH_CALLBACK_CAPSULE) = true →
  GET_JOB_FROM_CAPSULE w c = (w, capsule_pointer (heap w) c) ∧
  capsule_pointer (heap w) c ≠ NULL.
Proof.
  intros Hvalid.
  destruct (GET_JOB_FROM_CAPSULE w c) as [w' job] eqn:H.
  apply GET_JOB_FROM_CAPSULE_spec in H as (_ & _ & _ & _ & Hcases).
  destruct Hcases as [(_ & Hno & _)|(Hne & -> & -> & _)]; [congruence|done].
Qed.

Lemma iter_job_prologue_accepts w c i oa :
  PyCapsule_IsValid w c (Some JOB_WITH_CALLBACK_CAPSULE) = true →
  is_buffer (heap w) i = true →
  is_bytearray (heap w) oa = true →
  ∃ w0 job ib s0,
    iter_job_prologue w [c; i; oa] = (w0, Some (job, ib, oa, s0)).
Proof.
  intros Hvalid Hi Hoa.
  unfold iter_job_prologue, PyArg_ParseTuple_iter_job.
  assert (is_capsule (heap w) c = true) as ->.
  { revert Hvalid. unfold PyCapsule_IsValid, is_legal_capsule, is_capsule.
    destruct (heap w !! c) as [[n []]|]; done. }
  simpl.
  destruct (PyObject_GetBuffer_buffer w i Hi) as (w1 & ib & H1).
  rewrite H1. simpl.
  apply PyObject_GetBuffer_spec in H1 as (_ & _ & _ & _ & _ & _ & Hs1 & _).
  rewrite (same_objects_is_bytearray _ _ oa Hs1), Hoa. simpl.
  assert (PyCapsule_IsValid w1 c (Some JOB_WITH_CALLBACK_CAPSULE) = true)
    as Hvalid1.
  { unfold PyCapsule_IsValid in *.
    destruct (same_objects_capsule _ _ c Hs1) as (_ & -> & -> & _). done. }
  destruct (GET_JOB_FROM_CAPSULE_valid w1 c Hvalid1) as [-> Hne].
  destruct (capsule_pointer (heap w1) c =? NULL) eqn:Hz;
    [apply Z.eqb_eq in Hz; done|].
  assert (is_bytearray (heap w1) oa = true) as Hoa1
    by (by rewrite (same_objects_is_bytearray _ _ oa Hs1)).
  destruct (PyObject_GetBuffer_bytearray w1 oa true Hoa1) as (w3 & ob & H3).
  rewrite H3. simpl. eauto.
Qed.

Lemma iter_job_prologue_is_buffer w args w0 job ib oa s0 :
  iter_job_prologue w args = (w0, Some (job, ib, oa, s0)) →
  is_buffer (heap w) (buf_obj ib) = true.
Proof.
  unfold iter_job_prologue, PyArg_ParseTuple_iter_job. intros H.
  destruct args as [|c [|i [|oa' [|? ?]]]]; try done.
  destruct (is_capsule (heap w) c); simpl in H; [|done].
  destruct (PyObject_GetBuffer w i false) as [[w1 rc1] ib1] eqn:H1.
  destruct (rc1 =? 0) eqn:Hrc1; simpl in H; [|done].
  apply Z.eqb_eq in Hrc1. subst rc1.
  pose proof (PyObject_GetBuffer_is_buffer _ _ _ _ _ H1) as Hbuf.
  apply PyObject_GetBuffer_spec in H1 as (Hi1 & _).
  destruct (is_bytearray (heap w1) oa'); simpl in H.
  2:{ destruct (PyBuffer_Release w1 ib1). done. }
  destruct (GET_JOB_FROM_CAPSULE w1 c) as [w2 job2].
  destruct (job2 =? NULL); [done|].
  destruct (PyObject_GetBuffer w2 oa' true) as [[w3 rc3] ob3].
  destruct (rc3 =? 0); simpl in H; [|done].
  inversion H; subst. done.
Qed.

(** X1.  [iter_job] takes its arguments to the engine exactly when they
    are a live job capsule, an object that gives a buffer (a [bytes]
    object, a [bytearray], or another object with the buffer protocol
    that does not refuse) and a [bytearray].  Then the first iteration is
    for the job of the capsule and is offered the whole chunk and the
    whole array.  Otherwise the call fails and the engine is not touched;
    the exception is that of the input when the first argument is a
    capsule and the input has the buffer protocol and gives no buffer
    ([BufferError] from a memory view that is not C-contiguous), and
    [TypeError] in every other case. *)
Theorem iter_job_reaches_engine fuel w args w' ret :
  iter_job fuel w args = Some (w', ret) →
  (step_arguments w args ∧
   ∃ c i oa newer r b',
     args = [c; i; oa] ∧
     log w'
     = newer
       ++ Call_rs_job_iter (capsule_pointer (heap w) c)
            (entry_buffers
               (mk_pybuf i (Z.of_nat (length (object_bytes (heap w) i))))
               (mk_pybuf oa (PyByteArray_GET_SIZE w oa)))
            r b'
       :: log w)
  ∨ (¬ step_arguments w args ∧ ret = None ∧ log w' = log w ∧
     engine w' = engine w ∧
     ∃ msg, py_err (rt w') = Some (refusal (heap w) args, msg)).
Proof.
  intros H.
  apply iter_job_spec in H as (_ & _ & [(Hret & Hl & He & Hfail & Herr)|Hrun]).
  - right. split; [|done].
    intros (c & i & oa & -> & Hvalid & Hi & Hoa).
    destruct (iter_job_prologue_accepts w c i oa Hvalid Hi Hoa)
      as (w0 & job & ib & s0 & Hpro).
    rewrite Hpro in Hfail. done.
  - left.
    destruct Hrun as (w0 & job & ib & oa & s0 & calls & r & b' & Hpro & Hit & Hl & _).
    pose proof (iter_job_prologue_is_buffer _ _ _ _ _ _ _ Hpro) as Hbuf.
    apply iter_job_prologue_ok in Hpro
      as (c & i & -> & Hvalid & -> & _ & Hoa & -> & -> & _).
    simpl in Hbuf, Hit.
    split; [exists c, i, oa; done|].
    apply iterations_first in Hit as (r0 & b0' & rest & ->).
    exists c, i, oa, (rev rest), r0, b0'. split; [done|].
    rewrite Hl. simpl. by rewrite <- app_assoc.
Qed.

(** ** Views and objects during a step *)

Lemma views_refl oa h : views (λ _, 0) oa h h.
Proof.
  intros o. destruct (h !! o) as [[n []]|]; try done.
  eexists. rewrite Z.add_0_r. done.
Qed.

Lemma views_ext k k' oa h h' :
  h !! NULL = None → (∀ o, o ≠ NULL → k o = k' o) →
  views k oa h h' → views k' oa h h'.
Proof.
  intros Hn Hk Hv o. specialize (Hv o).
  destruct (decide (o = NULL)) as [->|Hne]; [by rewrite Hn in *|].
  rewrite <- (Hk o Hne). exact Hv.
Qed.

Lemma views_ext_bytearray k k' oa h h' :
  (∀ o, is_bytearray h' o = true → k o = k' o) →
  views k oa h h' → views k' oa h h'.
Proof.
  intros Hk Hv o. specialize (Hv o).
  destruct (h !! o) as [[n []]|]; try done.
  destruct Hv as (d' & Hl & Hd). exists d'. split; [|done].
  rewrite <- (Hk o); [done|]. unfold is_bytearray. by rewrite Hl.
Qed.

Lemma views_done oa h h' o :
  views (λ _, 0) oa h h' →
  exports h' o = exports h o ∧ (o ≠ oa → h' !! o = h !! o).
Proof.
  intros Hv. specialize (Hv o). unfold exports.
  destruct (h !! o) as [[n []]|]; try (rewrite Hv; done).
  destruct Hv as (d' & -> & Hd). rewrite Z.add_0_r. split; [done|].
  intros Hne. by rewrite (Hd Hne).
Qed.

Lemma views_GetBuffer k oa h w o wr w' rc v :
  views k oa h (heap w) →
  PyObject_GetBuffer w o wr = (w', rc, v) →
  (rc = 0 ∧ buf_obj v = o ∧ rt w' = rt w ∧
   views (λ x, k x + held v x) oa h (heap w'))
  ∨ (rc ≠ 0 ∧ buf_obj v = NULL ∧ heap w' = heap w ∧ is_Some (py_err (rt w'))).
Proof.
  intros Hv H. unfold PyObject_GetBuffer in H.
  destruct (heap w !! o) as [[n kd]|] eqn:Ho; [destruct kd|];
    try (inversion H; subst; right; simpl; eauto; fail).
  - destruct wr; [inversion H; subst; right; simpl; eauto|].
    inversion H; subst; clear H. left. repeat split; try done.
    intros x. specialize (Hv x). unfold held. simpl.
    destruct (decide (o = x)) as [<-|Hne].
    + destruct (h !! o) as [[n0 []]|]; try done.
      destruct Hv as (d' & Hl & _). rewrite Ho in Hl. done.
    + destruct (h !! x) as [[n0 []]|]; try done.
      rewrite Z.add_0_r. done.
  - inversion H; subst; clear H. left. repeat split; try done.
    intros x. specialize (Hv x). unfold held. simpl.
    destruct (decide (o = x)) as [<-|Hne].
    + rewrite lookup_insert_eq.
      destruct (h !! o) as [[n0 []]|]; try (rewrite Ho in Hv; done).
      destruct Hv as (d' & Hl & Hd). rewrite Ho in Hl.
      inversion Hl; subst. exists d'. split; [|done].
      do 3 f_equal. lia.
    + rewrite lookup_insert_ne by done.
      destruct (h !! x) as [[n0 []]|]; try done.
      rewrite Z.add_0_r. done.
  - destruct refuses as [[t m]|]; simpl in H;
      [inversion H; subst; right; simpl; eauto|].
    destruct wr; [inversion H; subst; right; simpl; eauto|].
    inversion H; subst; clear H. left. repeat split; try done.
    intros x. specialize (Hv x). unfold held. simpl.
    destruct (decide (o = x)) as [<-|Hne].
    + destruct (h !! o) as [[n0 []]|]; try done.
      destruct Hv as (d' & Hl & _). rewrite Ho in Hl. done.
    + destruct (h !! x) as [[n0 []]|]; try done.
      rewrite Z.add_0_r. done.
Qed.

Lemma views_Release k oa h w v w' v' :
  h !! NULL = None →
  views k oa h (heap w) →
  PyBuffer_Release w v = (w', v') →
  buf_obj v' = NULL ∧ rt w' = rt w ∧ log w' = log w ∧
  views (λ x, k x - held v x) oa h (heap w').
Proof.
  intros Hn Hv H. unfold PyBuffer_Release in H.
  destruct (buf_obj v =? NULL) eqn:Hz.
  { apply Z.eqb_eq in Hz. inversion H; subst. repeat split; try done.
    eapply views_ext; [done| |exact Hv].
    intros o Ho. unfold held. rewrite Hz.
    destruct (decide (NULL = o)); [done|lia]. }
  apply Z.eqb_neq in Hz.
  assert (is_bytearray (heap w) (buf_obj v) = false →
          views (λ x, k x - held v x) oa h (heap w)) as Hother.
  { intros Hnb. eapply views_ext_bytearray; [|exact Hv].
    intros o Ho. unfold held.
    destruct (decide (buf_obj v = o)) as [<-|]; [congruence|lia]. }
  destruct (heap w !! buf_obj v) as [[n kd]|] eqn:Ho.
  2:{ inversion H; subst. repeat split; try done.
      apply Hother. unfold is_bytearray. by rewrite Ho. }
  destruct kd;
    try (inversion H; subst; repeat split; try done;
         apply Hother; unfold is_bytearray; by rewrite Ho).
  inversion H; subst; clear H. simpl. repeat split; try done.
  intros x. specialize (Hv x). unfold held.
  destruct (decide (buf_obj v = x)) as [<-|Hne].
  - rewrite lookup_insert_eq.
    destruct (h !! buf_obj v) as [[n0 []]|]; try (rewrite Ho in Hv; done).
    destruct Hv as (d' & Hl & Hd). rewrite Ho in Hl.
    inversion Hl; subst. exists d'. split; [|done]. do 3 f_equal. lia.
  - rewrite lookup_insert_ne by done.
    destruct (h !! x) as [[n0 []]|]; try done.
    rewrite Z.sub_0_r. done.
Qed.

Lemma views_Resize k oa h w n w' rc :
  views k oa h (heap w) →
  PyByteArray_Resize w oa n = (w', rc) →
  views k oa h (heap w') ∧ log w' = log w ∧
  (rc ≠ 0 → heap w' = heap w ∧ is_Some (py_err (rt w'))) ∧
  (rc = 0 → is_bytearray (heap w') oa = true).
Proof.
  intros Hv H. unfold PyByteArray_Resize in H.
  destruct (heap w !! oa) as [[m kd]|] eqn:Ho; [destruct kd|];
    try (inversion H; subst; simpl; repeat split; eauto; done).
  assert (∀ d', views k oa h (<[oa := mk_obj m (PyByteArray d' ob_exports)]> (heap w)))
    as Hins.
  { intros d' x. specialize (Hv x).
    destruct (decide (oa = x)) as [<-|Hne].
    - rewrite lookup_insert_eq.
      destruct (h !! oa) as [[n0 []]|]; try (rewrite Ho in Hv; done).
      destruct Hv as (d0 & Hl & Hd). rewrite Ho in Hl. inversion Hl; subst.
      exists d'. done.
    - rewrite lookup_insert_ne by done. done. }
  assert (is_bytearray (heap w) oa = true) as Hba
    by (unfold is_bytearray; by rewrite Ho).
  assert (∀ d', is_bytearray
                  (<[oa := mk_obj m (PyByteArray d' ob_exports)]> (heap w)) oa
                = true) as Hba'
    by (intros d'; unfold is_bytearray; by rewrite lookup_insert_eq).
  repeat case_match; inversion H; subst; simpl; repeat split; eauto; done.
Qed.

Lemma views_store k oa h w off bs :
  views k oa h (heap w) → views k oa h (heap (store_bytes w oa off bs)).
Proof.
  intros Hv. unfold store_bytes.
  destruct (heap w !! oa) as [[m kd]|] eqn:Ho; [destruct kd|]; try done.
  destruct (off <? 0); [done|]. simpl.
  intros x. specialize (Hv x).
  destruct (decide (oa = x)) as [<-|Hne].
  - rewrite lookup_insert_eq.
    destruct (h !! oa) as [[n0 []]|]; try (rewrite Ho in Hv; done).
    destruct Hv as (d0 & Hl & Hd). rewrite Ho in Hl. inversion Hl; subst.
    eexists. done.
  - rewrite lookup_insert_ne by done. done.
Qed.

Lemma views_call k oa h w job b i r b' w1 :
  views k oa h (heap w) →
  call_rs_job_iter w job b i oa = (r, b', w1) →
  views k oa h (heap w1).
Proof.
  intros Hv H. unfold call_rs_job_iter in H.
  destruct (rs_job_iter E job b _ _ _ _ _) as [[[[res bf] written] r1] e1].
  inversion H; subst; clear H. simpl.
  apply (views_store k oa h (set_rt r1 w)). exact Hv.
Qed.

Lemma views_grow_output h ib oa b os ob w :
  h !! NULL = None →
  views (loop_views ib ob) oa h (heap w) →
  let out := grow_output oa b os ob w in
  match out with
  | Break _ _ => False
  | Continue s' =>
      views (loop_views ib (ls_output_buf s')) oa h (heap (ls_world s'))
  | ReturnNULL s' =>
      views (loop_views ib (ls_output_buf s')) oa h (heap (ls_world s')) ∧
      is_Some (py_err (rt (ls_world s')))
  end.
Proof.
  intros Hn Hv. unfold grow_output.
  destruct (PyBuffer_Release w ob) as [w1 ob1] eqn:H1.
  apply (views_Release _ _ _ _ _ _ _ Hn Hv) in H1 as (Hob1 & Hr1 & Hl1 & Hv1).
  assert (views (loop_views ib ob1) oa h (heap w1)) as Hv1'.
  { eapply views_ext; [done| |exact Hv1].
    intros o Ho. unfold loop_views, held. rewrite Hob1.
    destruct (decide (NULL = o)); [done|]. lia. }
  destruct (PyByteArray_Resize w1 oa _) as [w2 rc] eqn:H2.
  apply (views_Resize _ _ _ _ _ _ _ Hv1') in H2 as (Hv2 & Hl2 & Hfail & Hok).
  destruct (rc =? 0) eqn:Hrc; simpl.
  2:{ apply Z.eqb_neq in Hrc. destruct (Hfail Hrc) as [_ Herr]. done. }
  destruct (PyObject_GetBuffer w2 oa true) as [[w3 rc3] ob3] eqn:H3.
  assert (views (λ x, held ib x) oa h (heap w2)) as Hv2'.
  { eapply views_ext; [done| |exact Hv2].
    intros o Ho. unfold loop_views, held. rewrite Hob1.
    destruct (decide (NULL = o)); [done|]. lia. }
  apply (views_GetBuffer _ _ _ _ _ _ _ _ _ Hv2') in H3
    as [(-> & Hob3 & Hr3 & Hv3)|(Hne & Hob3 & Hh3 & Herr)]; simpl.
  - exact Hv3.
  - destruct (rc3 =? 0) eqn:Hrc3; [apply Z.eqb_eq in Hrc3; done|]. simpl.
    split; [|done]. rewrite Hh3.
    eapply views_ext; [done| |exact Hv2'].
    intros o Ho. unfold loop_views, held. rewrite Hob3.
    destruct (decide (NULL = o)); [done|]. lia.
Qed.

Lemma views_body h job ib oa s :
  h !! NULL = None →
  views (loop_views ib (ls_output_buf s)) oa h (heap (ls_world s)) →
  match iter_job_body job ib oa s with
  | Break _ s' | Continue s' =>
      views (loop_views ib (ls_output_buf s')) oa h (heap (ls_world s'))
  | ReturnNULL s' =>
      views (loop_views ib (ls_output_buf s')) oa h (heap (ls_world s')) ∧
      is_Some (py_err (rt (ls_world s')))
  end.
Proof.
  intros Hn Hv.
  destruct (iter_job_body_cases job ib oa s) as (r & b' & w1 & Hcall & Hcases).
  apply (views_call _ _ _ _ _ _ _ _ _ _ Hv) in Hcall.
  simpl in Hcases.
  destruct Hcases as [[_ ->]|[(_ & _ & _ & ->)|(_ & _ & _ & ->)]]; simpl.
  - done.
  - split; [done|]. eauto.
  - match goal with
    | |- context [grow_output oa b' ?os ?ob w1] =>
        pose proof (views_grow_output h ib oa b' os ob w1 Hn Hcall) as Hg;
        simpl in Hg; destruct (grow_output oa b' os ob w1); done
    end.
Qed.

Lemma views_loop h fuel job ib oa s out :
  h !! NULL = None →
  views (loop_views ib (ls_output_buf s)) oa h (heap (ls_world s)) →
  iter_job_loop fuel job ib oa s = Some out →
  match out with
  | Continue _ => False
  | Break _ s' =>
      views (loop_views ib (ls_output_buf s')) oa h (heap (ls_world s'))
  | ReturnNULL s' =>
      views (loop_views ib (ls_output_buf s')) oa h (heap (ls_world s')) ∧
      is_Some (py_err (rt (ls_world s')))
  end.
Proof.
  intros Hn. revert s. induction fuel as [|fuel IH]; intros s Hv H; [done|].
  simpl in H. pose proof (views_body h job ib oa s Hn Hv) as Hb.
  destruct (iter_job_body job ib oa s) as [s2|r s2|s2].
  - by apply (IH s2).
  - by inversion H; subst.
  - by inversion H; subst.
Qed.

Lemma views_release_buffers h oa w ib ob :
  h !! NULL = None →
  views (loop_views ib ob) oa h (heap w) →
  views (λ _, 0) oa h (heap (release_buffers w ib ob)).
Proof.
  intros Hn Hv. unfold release_buffers.
  destruct (PyBuffer_Release w ob) as [w1 ob1] eqn:H1.
  apply (views_Release _ _ _ _ _ _ _ Hn Hv) in H1 as (_ & _ & _ & Hv1).
  destruct (PyBuffer_Release w1 ib) as [w2 ib1] eqn:H2.
  apply (views_Release _ _ _ _ _ _ _ Hn Hv1) in H2 as (_ & _ & _ & Hv2).
  eapply views_ext; [done| |exact Hv2].
  intros o _. unfold loop_views. lia.
Qed.

Lemma views_prologue w args w0 res :
  heap w !! NULL = None →
  iter_job_prologue w args = (w0, res) →
  match res with
  | None => views (λ _, 0) (default NULL (args !! 2%nat)) (heap w) (heap w0)
  | Some (job, ib, oa, s0) =>
      args !! 2%nat = Some oa ∧ ls_world s0 = w0 ∧
      views (loop_views ib (ls_output_buf s0)) oa (heap w) (heap w0)
  end.
Proof.
  intros Hn H. unfold iter_job_prologue, PyArg_ParseTuple_iter_job in H.
  destruct args as [|c [|i [|oa [|? ?]]]];
    try (inversion H; subst; simpl; apply views_refl).
  simpl.
  destruct (is_capsule (heap w) c); simpl in H.
  2:{ inversion H; subst; simpl; apply views_refl. }
  destruct (PyObject_GetBuffer w i false) as [[w1 rc1] ib] eqn:H1.
  apply (views_GetBuffer _ oa _ _ _ _ _ _ _ (views_refl oa (heap w))) in H1
    as [(-> & Hib & Hr1 & Hv1)|(Hne & Hib & Hh1 & Herr)]; simpl in H.
  2:{ destruct (rc1 =? 0) eqn:Hz; [apply Z.eqb_eq in Hz; done|].
      simpl in H. inversion H; subst; simpl. rewrite Hh1. apply views_refl. }
  assert (views (loop_views ib (mk_pybuf NULL 0)) oa (heap w) (heap w1)) as Hv1'.
  { eapply views_ext; [done| |exact Hv1].
    intros o Ho. unfold loop_views, held. simpl.
    destruct (decide (NULL = o)); [done|]. lia. }
  destruct (is_bytearray (heap w1) oa) eqn:Hba; simpl in H.
  2:{ destruct (PyBuffer_Release w1 ib) as [w2 ib2] eqn:H2.
      apply (views_Release _ _ _ _ _ _ _ Hn Hv1) in H2 as (_ & _ & _ & Hv2).
      inversion H; subst; simpl.
      eapply views_ext; [done| |exact Hv2]. intros o _. lia. }
  destruct (GET_JOB_FROM_CAPSULE w1 c) as [w2 job] eqn:H2.
  apply GET_JOB_FROM_CAPSULE_spec in H2 as (Hh2 & _).
  destruct (job =? NULL).
  { inversion H; subst; simpl.
    apply views_release_buffers; [done|]. by rewrite Hh2. }
  destruct (PyObject_GetBuffer w2 oa true) as [[w3 rc3] ob] eqn:H3.
  rewrite <- Hh2 in Hv1.
  apply (views_GetBuffer _ _ _ _ _ _ _ _ _ Hv1) in H3
    as [(-> & Hob & Hr3 & Hv3)|(Hne & Hob & Hh3 & Herr)]; simpl in H.
  - inversion H; subst; simpl. repeat split; done.
  - destruct (rc3 =? 0) eqn:Hz; [apply Z.eqb_eq in Hz; done|].
    simpl in H. inversion H; subst; simpl.
    apply views_release_buffers; [done|]. rewrite Hh3.
    eapply views_ext; [done| |exact Hv1].
    intros o Ho. unfold loop_views, held. rewrite Hob.
    destruct (decide (NULL = o)); [done|]. lia.
Qed.

(** On entry to the loop the output array has the exports it had before
    the call and those of the step: its own view, and a second one when
    the array is the input chunk as well.  The view of the loop is hence
    the only export when the array had none and is not also the input. *)
Lemma iter_job_entry_exports w args w0 job ib oa s0 :
  heap w !! NULL = None →
  iter_job_prologue w args = (w0, Some (job, ib, oa, s0)) →
  exports (heap (ls_world s0)) oa = exports (heap w) oa + held ib oa + 1.
Proof.
  intros Hn Hpro.
  pose proof (views_prologue _ _ _ _ Hn Hpro) as (_ & -> & Hv).
  apply iter_job_prologue_ok in Hpro
    as (c & i & _ & _ & _ & _ & Hoa & _ & -> & _).
  specialize (Hv oa). unfold exports, is_bytearray in *. simpl in Hv.
  destruct (heap w !! oa) as [[n []]|]; try done.
  destruct Hv as (d' & -> & _). unfold loop_views, held. simpl.
  rewrite (decide_True (P := oa = oa)) by done. lia.
Qed.

Lemma iter_job_views fuel w args w' ret :
  heap w !! NULL = None →
  iter_job fuel w args = Some (w', ret) →
  views (λ _, 0) (default NULL (args !! 2%nat)) (heap w) (heap w').
Proof.
  intros Hn H. unfold iter_job in H.
  destruct (iter_job_prologue w args) as [w0 res] eqn:Hpro.
  pose proof (views_prologue _ _ _ _ Hn Hpro) as Hv.
  destruct res as [[[[job ib] oa] s0]|].
  2:{ by inversion H; subst. }
  destruct Hv as (Hoa & Hw0 & Hv). rewrite Hoa. simpl.
  rewrite <- Hw0 in Hv.
  destruct (iter_job_loop fuel job ib oa s0) as [out|] eqn:Hloop; [|done].
  pose proof (views_loop _ _ _ _ _ _ _ Hn Hv Hloop) as Hout.
  destruct out as [s|r s|s]; [done| |].
  - destruct (Py_BuildValue_Onn _ _ _ _) as [w1 ret1] eqn:Hbv.
    apply Py_BuildValue_Onn_spec in Hbv as (Hh1 & _).
    inversion H; subst; clear H.
    apply views_release_buffers; [done|]. by rewrite Hh1.
  - inversion H; subst; clear H.
    apply views_release_buffers; [done|]. by destruct Hout.
Qed.

Lemma grow_output_null_error oa b os ob w s' :
  grow_output oa b os ob w = ReturnNULL s' →
  is_Some (py_err (rt (ls_world s'))).
Proof.
  unfold grow_output. intros H.
  destruct (PyBuffer_Release w ob) as [w1 ob1].
  destruct (PyByteArray_Resize w1 oa _) as [w2 rc] eqn:H2.
  apply (views_Resize _ _ _ _ _ _ _ (views_refl oa (heap w1))) in H2
    as (_ & _ & Hfail & _).
  destruct (rc =? 0) eqn:Hrc; simpl in H.
  2:{ apply Z.eqb_neq in Hrc. inversion H; subst. simpl. by apply Hfail. }
  destruct (PyObject_GetBuffer w2 oa true) as [[w3 rc3] ob3] eqn:H3.
  apply (views_GetBuffer _ _ _ _ _ _ _ _ _ (views_refl oa (heap w2))) in H3
    as [(-> & _)|(Hne & _ & _ & Herr)]; simpl in H; [done|].
  destruct (rc3 =? 0) eqn:Hrc3; [apply Z.eqb_eq in Hrc3; done|].
  simpl in H. by inversion H; subst.
Qed.

Lemma iter_job_loop_null_error fuel job ib oa s s' :
  iter_job_loop fuel job ib oa s = Some (ReturnNULL s') →
  is_Some (py_err (rt (ls_world s'))).
Proof.
  revert s. induction fuel as [|fuel IH]; intros s H; [done|].
  simpl in H.
  destruct (iter_job_body_cases job ib oa s) as (r & b' & w1 & Hcall & Hcases).
  simpl in Hcases.
  destruct Hcases as [[_ Hb]|[(_ & _ & _ & Hb)|(_ & _ & _ & Hb)]];
    rewrite Hb in H.
  - done.
  - inversion H; subst. simpl. eauto.
  - match type of H with
    | context [grow_output oa b' ?os ?ob w1] =>
        destruct (grow_output oa b' os ob w1) as [s2|?|s2] eqn:Hg
    end.
    + by apply (IH s2).
    + done.
    + inversion H; subst. by apply grow_output_null_error in Hg.
Qed.

(** X2.  Whenever [iter_job] returns [NULL], an exception is set: no way
    out of the function leaves the caller with [NULL] and a clear error
    indicator. *)
Theorem iter_job_null_sets_exception fuel w args w' :
  iter_job fuel w args = Some (w', None) →
  is_Some (py_err (rt w')).
Proof.
  unfold iter_job. intros H.
  destruct (iter_job_prologue w args) as [w0 [[[[job ib] oa] s0]|]] eqn:Hpro.
  2:{ inversion H; subst.
      apply iter_job_prologue_fail in Hpro as ((msg & ->) & _). eauto. }
  destruct (iter_job_loop fuel job ib oa s0) as [[s|r s|s]|] eqn:Hloop;
    try done.
  - apply iter_job_loop_spec in Hloop as (? & ? & ? & _ & _ & _ & _ & []).
  - destruct (Py_BuildValue_Onn _ _ _ _) as [w1 ret1] eqn:Hbv.
    apply Py_BuildValue_Onn_spec in Hbv as (_ & _ & _ & _ & Hret).
    inversion H; subst; clear H.
    pose proof (release_buffers_spec w1 ib (ls_output_buf s)) as (_ & -> & _).
    destruct Hret as [(? & _)|(_ & _ & ->)]; [done|eauto].
  - inversion H; subst; clear H.
    pose proof (release_buffers_spec (ls_world s) ib (ls_output_buf s))
      as (_ & -> & _).
    by apply iter_job_loop_null_error in Hloop.
Qed.


(** X4.  Every view taken during a step has been given back when
    [iter_job] returns, by whichever way: each byte array, the output
    array included, has the number of exports it had before the call, so
    that the caller can resize it. *)
Theorem iter_job_releases_views fuel w args w' ret o :
  heap w !! NULL = None →
  iter_job fuel w args = Some (w', ret) →
  exports (heap w') o = exports (heap w) o.
Proof.
  intros Hn H.
  pose proof (iter_job_views _ _ _ _ _ Hn H) as Hv.
  by apply (views_done _ _ _ o) in Hv as [Hv _].
Qed.

(** ** What a pass stores *)

Lemma take_list_inserts {A : Type} (n : nat) (l xs : list A) :
  (n + length l ≤ length xs)%nat →
  take (n + length l) (list_inserts n l xs) = take n xs ++ l.
Proof.
  intros Hlen. apply list_eq. intros i.
  destruct (decide (i < n + length l)%nat) as [Hlt|Hge].
  - rewrite lookup_take_lt by done.
    destruct (decide (i < n)%nat) as [Hin|Hout].
    + rewrite list_lookup_inserts_lt by done.
      rewrite lookup_app_l by (rewrite length_take; lia).
      by rewrite lookup_take_lt.
    + rewrite list_lookup_inserts by lia.
      rewrite lookup_app_r by (rewrite length_take; lia).
      rewrite length_take. f_equal. lia.
  - rewrite lookup_take_ge by lia.
    symmetry. apply lookup_ge_None_2.
    rewrite length_app, length_take. lia.
Qed.

Lemma store_bytes_bytearray w oa off bs :
  is_bytearray (heap w) oa = true → 0 ≤ off →
  object_bytes (heap (store_bytes w oa off bs)) oa
  = list_inserts (Z.to_nat off) bs (object_bytes (heap w) oa).
Proof.
  unfold is_bytearray, store_bytes, object_bytes. intros Hba Hoff.
  destruct (heap w !! oa) as [[n []]|] eqn:Ho; try done.
  destruct (off <? 0) eqn:Hneg; [apply Z.ltb_lt in Hneg; lia|].
  simpl. by rewrite lookup_insert_eq.
Qed.

Lemma grow_output_bytes oa b os ob w :
  PyByteArray_GET_SIZE w oa ≤ PY_SSIZE_T_MAX →
  match grow_output oa b os ob w with
  | Break _ _ => False
  | Continue s' =>
      ls_output_size s' = os ∧ next_out (ls_buffer s') = os ∧
      avail_out (ls_buffer s')
        = to_size_t (PyByteArray_GET_SIZE (ls_world s') oa - os) ∧
      PyByteArray_GET_SIZE w oa ≤ PyByteArray_GET_SIZE (ls_world s') oa
        ≤ PY_SSIZE_T_MAX ∧
      object_bytes (heap (ls_world s')) oa
        = resize (Z.to_nat (PyByteArray_GET_SIZE (ls_world s') oa)) Byte.x00
            (object_bytes (heap w) oa)
  | ReturnNULL s' =>
      ls_output_size s' = os ∧
      object_bytes (heap (ls_world s')) oa = object_bytes (heap w) oa
  end.
Proof.
  intros Hmax.
  pose proof (grow_output_spec oa b os ob w) as Hsp. simpl in Hsp.
  unfold grow_output in *.
  destruct (PyBuffer_Release w ob) as [w1 ob1] eqn:H1.
  apply PyBuffer_Release_spec in H1 as (_ & _ & _ & _ & _ & Hb1).
  destruct (PyByteArray_Resize w1 oa _) as [w2 rc] eqn:H2.
  assert (rc ≠ 0 → heap w2 = heap w1) as Hfail.
  { intros Hrc. unfold PyByteArray_Resize in H2.
    destruct (heap w1 !! oa) as [[m []]|];
      try (inversion H2; subst; done).
    repeat case_match; inversion H2; subst; done. }
  destruct (rc =? 0) eqn:Hrc; simpl in *.
  2:{ apply Z.eqb_neq in Hrc. rewrite (Hfail Hrc). by rewrite Hb1. }
  apply Z.eqb_eq in Hrc. subst rc.
  pose proof (PyByteArray_Resize_ok _ _ _ _ H2) as (Hn & Hba & Hd2 & _).
  pose proof (PyByteArray_Resize_frame _ _ _ _ _ H2) as (_ & _ & _ & Hs2).
  assert (is_bytearray (heap w2) oa = true) as Hba2.
  { revert Hba. unfold is_bytearray. specialize (Hs2 oa).
    destruct (heap w1 !! oa) as [[m []]|]; try done.
    by destruct Hs2 as (d' & e' & ->). }
  destruct (PyObject_GetBuffer_bytearray w2 oa true Hba2) as (w3 & ob3 & H3).
  rewrite H3 in *. simpl in *.
  destruct Hsp as (_ & _ & _ & _ & Hos & _ & _ & _ & Hno & Hao & _ & Hg0 & Hbytes).
  pose proof (grown_size_exact w oa Hmax Hg0) as Hex.
  pose proof (grown_size_lower w oa Hg0) as [_ Hhigh].
  assert (PyByteArray_GET_SIZE w3 oa = grown_size w oa) as Hs3.
  { unfold PyByteArray_GET_SIZE. rewrite Hbytes, length_resize. lia. }
  rewrite Hs3. repeat split; auto.
  rewrite Hex. assert (0 ≤ PyByteArray_GET_SIZE w oa)
    by (unfold PyByteArray_GET_SIZE; lia). lia.
Qed.

Lemma iter_job_body_appends job ib oa s r b' written r' e' :
  rs_job_iter E job (ls_buffer s)
    (object_bytes (heap (ls_world s)) (buf_obj ib))
    (object_bytes (heap (ls_world s)) oa)
    (heap (ls_world s)) (rt (ls_world s)) (engine (ls_world s))
    = (r, b', written, r', e') →
  is_bytearray (heap (ls_world s)) oa = true →
  0 ≤ ls_output_size s →
  next_out (ls_buffer s) = ls_output_size s →
  Z.of_nat (length written) = avail_out (ls_buffer s) - avail_out b' →
  ls_output_size s + Z.of_nat (length written)
    ≤ PyByteArray_GET_SIZE (ls_world s) oa →
  PyByteArray_GET_SIZE (ls_world s) oa ≤ PY_SSIZE_T_MAX →
  let s' := outcome_state (iter_job_body job ib oa s) in
  ls_output_size s' = ls_output_size s + Z.of_nat (length written) ∧
  take (Z.to_nat (ls_output_size s')) (object_bytes (heap (ls_world s')) oa)
  = take (Z.to_nat (ls_output_size s))
      (object_bytes (heap (ls_world s)) oa) ++ written ∧
  (∀ s2,
     iter_job_body job ib oa s = Continue s2 →
     next_out (ls_buffer s2) = ls_output_size s2 ∧
     avail_out (ls_buffer s2)
       = PyByteArray_GET_SIZE (ls_world s2) oa - ls_output_size s2).
Proof.
  intros Heng Hba Hos Hno Hlen Hfit Hmax.
  assert (call_rs_job_iter (ls_world s) job (ls_buffer s) (buf_obj ib) oa
          = (r, b',
             called (Call_rs_job_iter job (ls_buffer s) r b') e'
               (store_bytes (set_rt r' (ls_world s)) oa (next_out (ls_buffer s))
                  written))) as Hcall'
    by (unfold call_rs_job_iter; by rewrite Heng).
  clear Heng.
  set (os := ls_output_size s) in *.
  set (k := Z.of_nat (length written)) in *.
  set (bytes := object_bytes (heap (ls_world s)) oa) in *.
  assert (length bytes = Z.to_nat (PyByteArray_GET_SIZE (ls_world s) oa))
    as Hsize by (unfold PyByteArray_GET_SIZE; fold bytes; lia).
  destruct (iter_job_body_cases job ib oa s) as (r1 & b1 & w1 & Hcall & Hcases).
  rewrite Hcall' in Hcall. inversion Hcall; subst r1 b1 w1; clear Hcall.
  set (w1 := called _ _ _) in *.
  assert (object_bytes (heap w1) oa = list_inserts (Z.to_nat os) written bytes)
    as Hb1.
  { unfold w1. simpl. rewrite Hno.
    apply (store_bytes_bytearray (set_rt r' (ls_world s))); [done|lia]. }
  assert (PyByteArray_GET_SIZE w1 oa = PyByteArray_GET_SIZE (ls_world s) oa)
    as Hs1.
  { unfold PyByteArray_GET_SIZE. rewrite Hb1, length_inserts. done. }
  assert (take (Z.to_nat (os + k)) (object_bytes (heap w1) oa)
          = take (Z.to_nat os) bytes ++ written) as Htake.
  { rewrite Hb1.
    replace (Z.to_nat (os + k)) with (Z.to_nat os + length written)%nat
      by (unfold k; lia).
    apply take_list_inserts. unfold k in *. lia. }
  simpl in Hcases. rewrite <- Hlen in Hcases.
  assert (to_Py_ssize_t (os + to_size_t k) = os + k) as Hexact.
  { unfold PY_SSIZE_T_MAX in *. assert (0 ≤ k) by (unfold k; lia).
    rewrite to_size_t_small by lia.
    apply to_Py_ssize_t_small. unfold PY_SSIZE_T_MAX. lia. }
  fold os in Hcases. rewrite Hexact in Hcases.
  destruct Hcases as [[_ ->]|[(_ & _ & _ & ->)|(_ & _ & _ & Hbody)]]; simpl.
  - done.
  - done.
  - rewrite Hbody.
    pose proof (grow_output_bytes oa b' (os + k) (ls_output_buf s) w1
                  ltac:(lia)) as Hg.
    destruct (grow_output oa b' (os + k) (ls_output_buf s) w1) as [s2|?|s2];
      [|done|]; simpl.
    + destruct Hg as (Hos2 & Hno2 & Hao2 & Hrange & Hbytes2).
      rewrite Hos2. split; [done|]. split.
      * rewrite Hbytes2, resize_ge.
        2:{ rewrite Hb1, length_inserts. lia. }
        rewrite take_app_le; [done|].
        rewrite Hb1, length_inserts. unfold k in *. lia.
      * intros s3 Heq. inversion Heq; subst s3. split; [congruence|].
        rewrite Hao2, Hos2. apply to_size_t_small.
        unfold PY_SSIZE_T_MAX, k in *. lia.
    + destruct Hg as (Hos2 & Hbytes2). rewrite Hos2, Hbytes2.
      split; [done|]. split; [done|]. intros s3 Heq. done.
Qed.

(** X5.  One pass through the loop puts what the engine stored right
    behind what had been produced, and alters nothing before it: when the
    output cursor stands behind the bytes produced so far and the engine
    stores as many bytes as it counts, the first [output_size] bytes of
    the array after the pass are those before it followed by the bytes
    stored, also when the array has grown; and when the loop goes on, the
    cursor stands behind them again, with the rest of the array as output
    space. *)
Theorem pass_appends_output job ib oa s r b' written r' e' :
  rs_job_iter E job (ls_buffer s)
    (object_bytes (heap (ls_world s)) (buf_obj ib))
    (object_bytes (heap (ls_world s)) oa)
    (heap (ls_world s)) (rt (ls_world s)) (engine (ls_world s))
    = (r, b', written, r', e') →
  is_bytearray (heap (ls_world s)) oa = true →
  0 ≤ ls_output_size s →
  next_out (ls_buffer s) = ls_output_size s →
  Z.of_nat (length written) = avail_out (ls_buffer s) - avail_out b' →
  ls_output_size s + Z.of_nat (length written)
    ≤ PyByteArray_GET_SIZE (ls_world s) oa →
  PyByteArray_GET_SIZE (ls_world s) oa ≤ PY_SSIZE_T_MAX →
  let s' := outcome_state (iter_job_body job ib oa s) in
  ls_output_size s' = ls_output_size s + Z.of_nat (length written) ∧
  take (Z.to_nat (ls_output_size s')) (object_bytes (heap (ls_world s')) oa)
  = take (Z.to_nat (ls_output_size s))
      (object_bytes (heap (ls_world s)) oa) ++ written ∧
  (∀ s2,
     iter_job_body job ib oa s = Continue s2 →
     next_out (ls_buffer s2) = ls_output_size s2 ∧
     avail_out (ls_buffer s2)
       = PyByteArray_GET_SIZE (ls_world s2) oa - ls_output_size s2).
Proof. apply iter_job_body_appends. Qed.

(** X27.  A step whose first engine iteration answers [RS_DONE] or
    [RS_BLOCKED], having stored as many bytes as it counts, returns the
    triple of that answer, the input left and the number of bytes stored;
    the output array then starts with these bytes and has kept its size.
    (The runtime can allocate the triple.) *)
Theorem step_delivers_output fuel w args w0 job ib oa s0 r b' written r' e' :
  iter_job_prologue w args = (w0, Some (job, ib, oa, s0)) →
  rs_job_iter E job (ls_buffer s0)
    (object_bytes (heap w0) (buf_obj ib)) (object_bytes (heap w0) oa)
    (heap w0) (rt w0) (engine w0)
    = (r, b', written, r', e') →
  r = RS_DONE ∨ r = RS_BLOCKED →
  Z.of_nat (length written) = avail_out (ls_buffer s0) - avail_out b' →
  0 ≤ avail_out b' → 0 ≤ avail_in b' ≤ PY_SSIZE_T_MAX →
  PyByteArray_GET_SIZE w oa ≤ PY_SSIZE_T_MAX →
  (0 < py_allocs r')%nat →
  ∃ w',
    iter_job (S fuel) w args
      = Some (w', Some (bool_decide (r = RS_DONE), avail_in b',
                        Z.of_nat (length written))) ∧
    take (length written) (object_bytes (heap w') oa) = written ∧
    PyByteArray_GET_SIZE w' oa = PyByteArray_GET_SIZE w oa ∧
    log w' = Call_rs_job_iter job (ls_buffer s0) r b' :: log w.
Proof.
  intros Hpro Heng Hr Hlen Hao Hai Hmax Halloc.
  pose proof (iter_job_prologue_ok _ _ _ _ _ _ _ Hpro)
    as (c & i & -> & _ & _ & _ & Hba & Hib & Hs0 & Hl0 & _ & _ & _ & Hso & Hb0).
  assert (ls_buffer s0
          = entry_buffers ib (mk_pybuf oa (PyByteArray_GET_SIZE w oa))
          ∧ ls_output_size s0 = 0 ∧ ls_world s0 = w0
          ∧ ls_output_buf s0 = mk_pybuf oa (PyByteArray_GET_SIZE w oa))
    as (Hbuf & Hos0 & Hw0 & Hob0) by (by rewrite Hs0).
  assert (0 ≤ PyByteArray_GET_SIZE w oa) as Hpos
    by (unfold PyByteArray_GET_SIZE; lia).
  assert (PyByteArray_GET_SIZE w0 oa = PyByteArray_GET_SIZE w oa) as Hsz0
    by (unfold PyByteArray_GET_SIZE; by rewrite Hb0).
  assert (avail_out (ls_buffer s0) = PyByteArray_GET_SIZE w oa) as Hav.
  { rewrite Hbuf. unfold entry_buffers. simpl.
    apply to_size_t_small. unfold PY_SSIZE_T_MAX in *. lia. }
  assert (next_out (ls_buffer s0) = 0) as Hno by (by rewrite Hbuf).
  rewrite <- Hw0 in Heng.
  pose proof (iter_job_body_appends job ib oa s0 r b' written r' e' Heng)
    as Hpass.
  simpl in Hpass.
  destruct Hpass as (Hos' & Htake & _).
  { rewrite Hw0. by rewrite (same_objects_is_bytearray _ _ oa Hso). }
  { lia. }
  { congruence. }
  { done. }
  { rewrite Hos0, Hw0, Hsz0. lia. }
  { rewrite Hw0, Hsz0. done. }
  destruct (iter_job_body_cases job ib oa s0) as (r1 & b1 & w1 & Hcall & Hcases).
  pose proof (call_rs_job_iter_spec _ _ _ _ _ _ _ _ Hcall)
    as ((wr & e1 & Heng1) & Hlog1 & _).
  rewrite Heng in Heng1.
  injection Heng1 as Hq1 Hq2 Hq3 Hq4 Hq5. subst r1 b1 wr e1.
  simpl in Hcases.
  destruct Hcases as [[_ Hbody]|[(Hd & Hb & _)|(Hd & Hb & _)]];
    try (destruct Hr; done).
  rewrite Hbody in Hos', Htake. simpl in Hos', Htake.
  unfold iter_job. rewrite Hpro. simpl. rewrite Hbody. simpl.
  unfold Py_BuildValue_Onn.
  rewrite <- Hq4.
  destruct (py_alloc_pos r' Halloc) as (r2 & Hr2). rewrite Hr2.
  eexists. split; [|split; [|split]].
  - rewrite Hos', Hos0. rewrite to_Py_ssize_t_small by lia. reflexivity.
  - pose proof (release_buffers_spec (set_rt r2 w1) ib (ls_output_buf s0))
      as (_ & _ & _ & _ & _ & Hb).
    rewrite Hb. simpl. rewrite Hos', Hos0 in Htake. simpl in Htake.
    rewrite Z.add_0_l, Nat2Z.id in Htake. by rewrite Htake.
  - pose proof (release_buffers_spec (set_rt r2 w1) ib (ls_output_buf s0))
      as (_ & _ & _ & _ & _ & Hb).
    pose proof (call_rs_job_iter_spec _ _ _ _ _ _ _ _ Hcall)
      as (_ & _ & _ & _ & Hlenb).
    unfold PyByteArray_GET_SIZE in *. rewrite Hb. simpl.
    rewrite Hlenb, Hw0. done.
  - pose proof (release_buffers_spec (set_rt r2 w1) ib (ls_output_buf s0))
      as (Hl & _).
    rewrite Hl. simpl. rewrite Hlog1, Hw0. congruence.
Qed.

(** ** Sizes and the number of iterations *)

Lemma grow_output_sizes oa b os ob w :
  PyByteArray_GET_SIZE w oa ≤ PY_SSIZE_T_MAX →
  match grow_output oa b os ob w with
  | Break _ _ => False
  | Continue s' =>
      PyByteArray_GET_SIZE (ls_world s') oa
        = grow_once (PyByteArray_GET_SIZE w oa) ∧
      IO_BUFFER_SIZE ≤ PyByteArray_GET_SIZE (ls_world s') oa ≤ PY_SSIZE_T_MAX
  | ReturnNULL s' =>
      PyByteArray_GET_SIZE (ls_world s') oa = PyByteArray_GET_SIZE w oa
  end.
Proof.
  intros Hmax. unfold grow_output.
  destruct (PyBuffer_Release w ob) as [w1 ob1] eqn:H1.
  apply PyBuffer_Release_spec in H1 as (_ & _ & _ & _ & _ & Hb1).
  assert (PyByteArray_GET_SIZE w1 oa = PyByteArray_GET_SIZE w oa) as Hs1
    by (unfold PyByteArray_GET_SIZE; by rewrite Hb1).
  assert (grown_size w1 oa = grown_size w oa) as Hg
    by (unfold grown_size; by rewrite Hs1).
  rewrite Hg.
  destruct (PyByteArray_Resize w1 oa (grown_size w oa)) as [w2 rc] eqn:H2.
  pose proof (views_Resize _ _ _ _ _ _ _ (views_refl oa (heap w1)) H2)
    as (_ & _ & Hfail & Hok).
  destruct (rc =? 0) eqn:Hrc; simpl.
  2:{ apply Z.eqb_neq in Hrc. destruct (Hfail Hrc) as [Hh _].
      unfold PyByteArray_GET_SIZE in *. by rewrite Hh. }
  apply Z.eqb_eq in Hrc. subst rc.
  apply PyByteArray_Resize_ok in H2 as (Hn & _ & Hd2 & _).
  destruct (PyObject_GetBuffer_bytearray w2 oa true (Hok eq_refl))
    as (w3 & ob3 & H3).
  rewrite H3. simpl.
  apply PyObject_GetBuffer_spec in H3 as (_ & _ & _ & _ & _ & _ & _ & Hb3).
  assert (PyByteArray_GET_SIZE w3 oa = grown_size w oa) as Hs3.
  { unfold PyByteArray_GET_SIZE. rewrite Hb3, Hd2, length_resize. lia. }
  rewrite Hs3.
  pose proof (grown_size_exact w oa Hmax Hn) as Hex.
  pose proof (grown_size_lower w oa Hn) as Hlow.
  split; [exact Hex|exact Hlow].
Qed.

Lemma iter_job_body_sizes job ib oa s :
  PyByteArray_GET_SIZE (ls_world s) oa ≤ PY_SSIZE_T_MAX →
  ∃ c,
    match iter_job_body job ib oa s with
    | Continue s' =>
        log (ls_world s') = c :: log (ls_world s) ∧
        PyByteArray_GET_SIZE (ls_world s') oa
          = grow_once (PyByteArray_GET_SIZE (ls_world s) oa) ∧
        IO_BUFFER_SIZE ≤ PyByteArray_GET_SIZE (ls_world s') oa ≤ PY_SSIZE_T_MAX
    | Break _ s' | ReturnNULL s' =>
        log (ls_world s') = c :: log (ls_world s) ∧
        PyByteArray_GET_SIZE (ls_world s') oa
          = PyByteArray_GET_SIZE (ls_world s) oa
    end.
Proof.
  intros Hmax.
  destruct (iter_job_body_cases job ib oa s) as (r & b' & w1 & Hcall & Hcases).
  apply call_rs_job_iter_spec in Hcall as (_ & Hlog & _ & _ & Hlen).
  assert (PyByteArray_GET_SIZE w1 oa = PyByteArray_GET_SIZE (ls_world s) oa)
    as Hsize by (unfold PyByteArray_GET_SIZE; by rewrite Hlen).
  exists (Call_rs_job_iter job (ls_buffer s) r b').
  simpl in Hcases.
  destruct Hcases as [[_ ->]|[(_ & _ & _ & ->)|(_ & _ & _ & ->)]]; simpl;
    [done|done|].
  match goal with
  | |- context [grow_output oa b' ?os ?ob w1] =>
      pose proof (grow_output_sizes oa b' os ob w1 ltac:(lia)) as Hg;
      pose proof (grow_output_spec oa b' os ob w1) as Hsp; simpl in Hsp;
      destruct (grow_output oa b' os ob w1) as [s2|?|s2]; [|done|]
  end.
  - destruct Hsp as (Hl & _). simpl in Hl. rewrite Hl, Hlog, <- Hsize. done.
  - destruct Hsp as (Hl & _). simpl in Hl. rewrite Hl, Hlog, <- Hsize. done.
Qed.

Lemma iter_job_loop_sizes fuel job ib oa s out :
  PyByteArray_GET_SIZE (ls_world s) oa ≤ PY_SSIZE_T_MAX →
  iter_job_loop fuel job ib oa s = Some out →
  ∃ calls,
    log (outcome_world out) = calls ++ log (ls_world s) ∧ calls ≠ [] ∧
    PyByteArray_GET_SIZE (outcome_world out) oa
      = Nat.iter (length calls - 1) grow_once
          (PyByteArray_GET_SIZE (ls_world s) oa).
Proof.
  revert s. induction fuel as [|fuel IH]; intros s Hmax H; [done|].
  simpl in H.
  destruct (iter_job_body_sizes job ib oa s Hmax) as (c & Hb).
  destruct (iter_job_body job ib oa s) as [s2|r s2|s2].
  - destruct Hb as (Hl & Hsz & Hrange).
    apply IH in H as (calls & Hlog & Hne & Hsize); [|lia].
    exists (calls ++ [c]). split; [|split].
    + rewrite Hlog, Hl, <- app_assoc. done.
    + by destruct calls.
    + rewrite Hsize, Hsz, length_app. simpl.
      destruct calls as [|c0 calls]; [done|]. simpl.
      replace (length calls + 1 - 0)%nat with (S (length calls)) by lia.
      rewrite Nat.sub_0_r. by rewrite Nat.iter_succ_r.
  - inversion H; subst; clear H. destruct Hb as (Hl & Hsz).
    exists [c]. simpl. done.
  - inversion H; subst; clear H. destruct Hb as (Hl & Hsz).
    exists [c]. simpl. done.
Qed.

Lemma iter_job_loop_calls_le fuel job ib oa :
  ∀ (k : nat) s out,
    2 ^ (63 - Z.of_nat k) ≤ PyByteArray_GET_SIZE (ls_world s) oa →
    PyByteArray_GET_SIZE (ls_world s) oa ≤ PY_SSIZE_T_MAX →
    (k ≤ 48)%nat →
    iter_job_loop fuel job ib oa s = Some out →
    ∃ calls,
      log (outcome_world out) = calls ++ log (ls_world s) ∧
      (length calls ≤ k)%nat.
Proof.
  induction fuel as [|fuel IH]; intros k s out Hlow Hmax Hk H; [done|].
  destruct k as [|k].
  { unfold PY_SSIZE_T_MAX in Hmax. simpl in Hlow. lia. }
  simpl in H.
  destruct (iter_job_body_sizes job ib oa s Hmax) as (c & Hb).
  destruct (iter_job_body job ib oa s) as [s2|r s2|s2].
  - destruct Hb as (Hl & Hsz & Hrange).
    apply (IH k) in H as (calls & Hlog & Hlen); [| |lia|lia].
    + exists (calls ++ [c]). split.
      * rewrite Hlog, Hl, <- app_assoc. done.
      * rewrite length_app. simpl. lia.
    + rewrite Hsz. unfold grow_once.
      replace (63 - Z.of_nat k) with (Z.succ (63 - Z.of_nat (S k))) by lia.
      rewrite Z.pow_succ_r by lia. lia.
  - inversion H; subst; clear H. destruct Hb as (Hl & _).
    exists [c]. simpl. split; [done|lia].
  - inversion H; subst; clear H. destruct Hb as (Hl & _).
    exists [c]. simpl. split; [done|lia].
Qed.

Lemma iter_job_loop_calls_bounded fuel job ib oa s out :
  iter_job_loop fuel job ib oa s = Some out →
  ∃ calls,
    log (outcome_world out) = calls ++ log (ls_world s) ∧
    (length calls ≤ 48)%nat.
Proof.
  destruct fuel as [|fuel]; [done|]. simpl. intros H.
  destruct (iter_job_body_cases job ib oa s) as (r & b' & w1 & Hcall & Hcases).
  apply call_rs_job_iter_spec in Hcall as (_ & Hlog & _).
  simpl in Hcases.
  destruct Hcases as [[_ Hb]|[(_ & _ & _ & Hb)|(_ & _ & _ & Hb)]];
    rewrite Hb in H.
  - inversion H; subst. eexists [_]. simpl. split; [exact Hlog|lia].
  - inversion H; subst. eexists [_]. simpl. split; [exact Hlog|lia].
  - match type of H with
    | context [grow_output oa b' ?os ?ob w1] =>
        pose proof (grow_output_spec oa b' os ob w1) as Hsp; simpl in Hsp;
        destruct (grow_output oa b' os ob w1) as [s2|?|s2]
    end.
    + destruct Hsp as (Hl & _ & _ & _ & _ & _ & _ & _ & _ & _ & _ & Hg0 & Hbytes).
      pose proof (grown_size_lower w1 oa Hg0) as [Hglow Hgmax].
      assert (PyByteArray_GET_SIZE (ls_world s2) oa = grown_size w1 oa) as Hs2.
      { unfold PyByteArray_GET_SIZE at 1. rewrite Hbytes, length_resize. lia. }
      apply (iter_job_loop_calls_le fuel job ib oa 47) in H
        as (calls & Hlogf & Hlen); [| |lia|lia].
      * exists (calls ++ [Call_rs_job_iter job (ls_buffer s) r b']). split.
        -- rewrite Hlogf. simpl in Hl. rewrite Hl, Hlog, <- app_assoc. done.
        -- rewrite length_app. simpl. lia.
      * rewrite Hs2. unfold IO_BUFFER_SIZE in Hglow. simpl. lia.
    + by destruct Hsp as (_ & _ & _ & _ & ?).
    + inversion H; subst. destruct Hsp as (Hl & _). simpl in Hl.
      eexists [_]. simpl. split; [by rewrite Hl, Hlog|lia].
Qed.

Lemma iter_job_prologue_bytes w args w0 res o :
  iter_job_prologue w args = (w0, res) →
  object_bytes (heap w0) o = object_bytes (heap w) o.
Proof.
  destruct res as [[[[job ib] oa] s0]|].
  { intros H. apply iter_job_prologue_ok in H
      as (c & i & _ & _ & _ & _ & _ & _ & _ & _ & _ & _ & _ & _ & Hb). done. }
  unfold iter_job_prologue, PyArg_ParseTuple_iter_job. intros H.
  destruct args as [|c [|i [|oa' [|? ?]]]];
    try (inversion H; subst; simpl; done).
  destruct (is_capsule (heap w) c); simpl in H.
  2:{ inversion H; subst; simpl; done. }
  destruct (PyObject_GetBuffer w i false) as [[w1 rc1] ib1] eqn:Hgb1.
  pose proof (PyObject_GetBuffer_fail _ _ _ _ _ _ Hgb1)
    as (_ & _ & _ & _ & Hb1).
  destruct (rc1 =? 0) eqn:Hrc1; simpl in H.
  2:{ inversion H; subst; simpl; done. }
  destruct (is_bytearray (heap w1) oa') eqn:Hba; simpl in H.
  2:{ destruct (PyBuffer_Release w1 ib1) as [w2 ?] eqn:Hrel.
      apply PyBuffer_Release_spec in Hrel as (_ & _ & _ & _ & _ & Hb2).
      inversion H; subst; simpl. by rewrite Hb2. }
  destruct (GET_JOB_FROM_CAPSULE w1 c) as [w2 job2] eqn:Hgj.
  apply GET_JOB_FROM_CAPSULE_spec in Hgj as (Hh2 & _).
  destruct (job2 =? NULL) eqn:Hz.
  - inversion H; subst w0; clear H.
    pose proof (release_buffers_spec w2 ib1 (mk_pybuf NULL 0))
      as (_ & _ & _ & _ & _ & Hb).
    by rewrite Hb, Hh2.
  - destruct (PyObject_GetBuffer w2 oa' true) as [[w3 rc3] ob3] eqn:Hgb3.
    pose proof (PyObject_GetBuffer_fail _ _ _ _ _ _ Hgb3)
      as (_ & _ & _ & _ & Hb3).
    destruct (rc3 =? 0); simpl in H; [done|].
    inversion H; subst w0; clear H.
    pose proof (release_buffers_spec w3 ib1 ob3)
      as (_ & _ & _ & _ & _ & Hb).
    by rewrite Hb, Hb3, Hh2.
Qed.

Lemma iter_job_unfold fuel w args w' ret :
  iter_job fuel w args = Some (w', ret) →
  (log w' = log w ∧
   ∀ o, object_bytes (heap w') o = object_bytes (heap w) o)
  ∨ ∃ w0 job ib oa s0 out,
      iter_job_prologue w args = (w0, Some (job, ib, oa, s0)) ∧
      ls_world s0 = w0 ∧ log w0 = log w ∧
      (∀ o, object_bytes (heap w0) o = object_bytes (heap w) o) ∧
      iter_job_loop fuel job ib oa s0 = Some out ∧
      log w' = log (outcome_world out) ∧
      ∀ o, object_bytes (heap w') o = object_bytes (heap (outcome_world out)) o.
Proof.
  unfold iter_job. intros H.
  destruct (iter_job_prologue w args) as [w0 [[[[job ib] oa] s0]|]] eqn:Hpro.
  2:{ inversion H; subst; clear H. left.
      pose proof (iter_job_prologue_fail _ _ _ Hpro) as (_ & Hl & _).
      split; [done|]. intros o. by eapply iter_job_prologue_bytes. }
  right.
  pose proof (iter_job_prologue_ok _ _ _ _ _ _ _ Hpro)
    as (c & i & _ & _ & _ & _ & _ & _ & Hs0 & Hl0 & _ & _ & _ & _ & Hb0).
  destruct (iter_job_loop fuel job ib oa s0) as [out|] eqn:Hloop; [|done].
  exists w0, job, ib, oa, s0, out.
  split; [done|]. split; [by subst s0|]. split; [done|]. split; [done|].
  split; [done|].
  destruct out as [s|r s|s]; simpl.
  - inversion H; subst.
    pose proof (release_buffers_spec (ls_world s) ib (ls_output_buf s))
      as (Hl & _ & _ & _ & _ & Hb). done.
  - destruct (Py_BuildValue_Onn _ _ _ _) as [w1 ret1] eqn:Hbv.
    apply Py_BuildValue_Onn_spec in Hbv as (Hh1 & Hl1 & _).
    inversion H; subst.
    pose proof (release_buffers_spec w1 ib (ls_output_buf s))
      as (Hl & _ & _ & _ & _ & Hb).
    split; [congruence|]. intros o. by rewrite Hb, Hh1.
  - inversion H; subst.
    pose proof (release_buffers_spec (ls_world s) ib (ls_output_buf s))
      as (Hl & _ & _ & _ & _ & Hb). done.
Qed.

(** X6.  The output array grows once for every engine iteration but the
    last, each time to the larger of [IO_BUFFER_SIZE] and twice its size:
    after a step that made [n] iterations its size is that function
    applied [n - 1] times to the size before.  The array never shrinks,
    and a step of one iteration leaves its size alone. *)
Theorem output_array_size_law fuel w args oa w' ret calls :
  args !! 2%nat = Some oa →
  PyByteArray_GET_SIZE w oa ≤ PY_SSIZE_T_MAX →
  iter_job fuel w args = Some (w', ret) →
  log w' = calls ++ log w →
  PyByteArray_GET_SIZE w' oa
  = Nat.iter (length calls - 1) grow_once (PyByteArray_GET_SIZE w oa).
Proof.
  intros Hoa Hmax H Hlog.
  apply iter_job_unfold in H as [(Hl & Hb)|Hrun].
  { rewrite Hl in Hlog. symmetry in Hlog.
    apply (app_inv_tail (log w) calls []) in Hlog. subst. simpl.
    unfold PyByteArray_GET_SIZE. by rewrite Hb. }
  destruct Hrun as (w0 & job & ib & oa' & s0 & out & Hpro & Hw0 & Hl0 & Hb0 & Hloop & Hl & Hb).
  apply iter_job_prologue_ok in Hpro as (c & i & -> & _).
  simpl in Hoa. inversion Hoa; subst oa'.
  assert (PyByteArray_GET_SIZE (ls_world s0) oa = PyByteArray_GET_SIZE w oa)
    as Hs0 by (unfold PyByteArray_GET_SIZE; by rewrite Hw0, Hb0).
  apply iter_job_loop_sizes in Hloop as (calls0 & Hlog0 & _ & Hsize);
    [|lia].
  rewrite Hl, Hlog0, Hw0, Hl0 in Hlog.
  apply app_inv_tail in Hlog. subst calls0.
  unfold PyByteArray_GET_SIZE at 1. rewrite Hb.
  fold (PyByteArray_GET_SIZE (outcome_world out) oa). by rewrite Hsize, Hs0.
Qed.

(** X7.  Whatever the engine answers, one step makes at most 48 engine
    iterations: the array doubles between two iterations and cannot pass
    [PY_SSIZE_T_MAX]. *)
Theorem iter_job_calls_bounded fuel w args w' ret calls :
  iter_job fuel w args = Some (w', ret) →
  log w' = calls ++ log w →
  (length calls ≤ 48)%nat.
Proof.
  intros H Hlog.
  apply iter_job_unfold in H as [(Hl & _)|Hrun].
  { rewrite Hl in Hlog. symmetry in Hlog.
    apply (app_inv_tail (log w) calls []) in Hlog. subst. simpl. lia. }
  destruct Hrun as (w0 & job & ib & oa & s0 & out & _ & Hw0 & Hl0 & _ & Hloop & Hl & _).
  apply iter_job_loop_calls_bounded in Hloop as (calls0 & Hlog0 & Hlen).
  rewrite Hl, Hlog0, Hw0, Hl0 in Hlog.
  apply app_inv_tail in Hlog. by subst.
Qed.

(** ** Signatures *)


Lemma py_alloc_Some r r1 :
  py_alloc r = Some r1 →
  py_err r1 = py_err r ∧ py_calls r1 = py_calls r ∧
  py_allocs r = S (py_allocs r1).
Proof.
  unfold py_alloc. destruct (py_allocs r) eqn:Hk; [done|].
  intros H. inversion H; subst. simpl. done.
Qed.


Lemma Py_DECREF_job_capsule_plain w cap job :
  heap w !! cap = Some (job_capsule_obj job NULL) →
  job ≠ NULL → job ≠ RsyncError w →
  Py_DECREF w cap
  = set_heap (delete cap (heap w))
      (called (Call_rs_job_free job) (rs_job_free E job (engine w)) w).
Proof.
  intros Hcap Hjob HjR.
  unfold Py_DECREF. rewrite Hcap. simpl.
  unfold free_job_with_callback_capsule, PyCapsule_IsValid,
    PyCapsule_GetPointer, PyCapsule_GetContext, is_legal_capsule,
    capsule_name, capsule_pointer, capsule_context, name_matches.
  rewrite Hcap. simpl.
  destruct (job =? NULL) eqn:Hj; [apply Z.eqb_eq in Hj; done|]. simpl.
  apply Z.eqb_neq in HjR. rewrite HjR, Hj. simpl. rewrite Hcap. simpl.
  rewrite Hj. simpl. done.
Qed.

Lemma Py_DECREF_sig_capsule w cap sig :
  heap w !! cap = Some (sig_capsule_obj sig) → sig ≠ NULL →
  Py_DECREF w cap
  = set_heap (delete cap (heap w))
      (called (Call_rs_free_sumset sig) (rs_free_sumset E sig (engine w)) w).
Proof.
  intros Hcap Hsig.
  unfold Py_DECREF. rewrite Hcap. simpl.
  unfold free_sig_capsule, PyCapsule_GetPointer, is_legal_capsule,
    capsule_name, capsule_pointer, name_matches.
  rewrite Hcap. simpl.
  destruct (sig =? NULL) eqn:Hs; [apply Z.eqb_eq in Hs; done|]. simpl.
  rewrite Hs. done.
Qed.

Lemma begin_load_signature_ok w job sig e :
  RsyncError w ≠ NULL → (3 ≤ py_allocs (rt w))%nat →
  rs_loadsig_begin E (engine w) = (job, sig, e) →
  job ≠ NULL → sig ≠ NULL →
  ∃ w' jc sc,
    begin_load_signature w = (w', Some (jc, sc)) ∧
    jc ≠ NULL ∧ sc ≠ NULL ∧ jc ≠ sc ∧
    heap w !! jc = None ∧ heap w !! sc = None ∧
    heap w'
      = <[sc := sig_capsule_obj sig]>
          (<[jc := job_capsule_obj job NULL]> (heap w)) ∧
    log w' = Call_rs_loadsig_begin job sig :: log w ∧
    engine w' = e ∧ RsyncError w' = RsyncError w ∧
    py_err (rt w') = py_err (rt w).
Proof.
  intros HR Halloc Hload Hjob Hsig.
  destruct (py_alloc_pos (rt w) ltac:(lia)) as (r1 & Hr1).
  pose proof (py_alloc_Some _ _ Hr1) as (He1 & _ & Hn1).
  destruct (py_alloc_pos r1 ltac:(lia)) as (r2 & Hr2).
  pose proof (py_alloc_Some _ _ Hr2) as (He2 & _ & Hn2).
  destruct (py_alloc_pos r2 ltac:(lia)) as (r3 & Hr3).
  pose proof (py_alloc_Some _ _ Hr3) as (He3 & _ & Hn3).
  destruct (fresh_addr_spec (heap w)) as [Hnn Hfresh].
  set (jc := fresh_addr (heap w)) in *.
  unfold begin_load_signature.
  match goal with
  | |- context [CREATE_JOB ?func _ _ _] =>
      pose proof (λ w2, CREATE_JOB_spec func NULL NULL w r1 w2 job sig HR Hr1)
        as Hcj
  end.
  simpl in Hcj. rewrite Hload in Hcj.
  rewrite (Hcj _ eq_refl eq_refl eq_refl). clear Hcj.
  destruct (job =? NULL) eqn:Hj; [apply Z.eqb_eq in Hj; done|]. simpl.
  fold jc.
  destruct (jc =? NULL) eqn:Hjc; [apply Z.eqb_eq in Hjc; done|].
  unfold PyCapsule_New. simpl.
  destruct (sig =? NULL) eqn:Hs; [apply Z.eqb_eq in Hs; done|].
  rewrite Hr2. rewrite insert_insert_eq.
  set (h1 := <[jc := job_capsule_obj job NULL]> (heap w)).
  destruct (fresh_addr_spec h1) as [Hnn2 Hfresh2].
  set (sc := fresh_addr h1) in *.
  destruct (sc =? NULL) eqn:Hsc; [apply Z.eqb_eq in Hsc; done|].
  simpl. rewrite Hr3.
  assert (sc ≠ jc) as Hne.
  { intros Heq. rewrite Heq in Hfresh2. unfold h1 in Hfresh2.
    by rewrite lookup_insert_eq in Hfresh2. }
  eexists _, jc, sc. split; [reflexivity|]. simpl.
  fold (sig_capsule_obj sig).
  repeat split; auto.
  - unfold h1 in Hfresh2. by rewrite lookup_insert_ne in Hfresh2.
  - congruence.
Qed.

(** X9.  With memory for two capsules and a tuple, [begin_load_signature]
    returns two new, distinct capsules: a job capsule around the job and a
    signature capsule around the signature that [rs_loadsig_begin]
    yielded, each with one reference; every other object is untouched and
    no exception is set. *)
Theorem begin_load_signature_returns_pair w job sig e :
  RsyncError w ≠ NULL → (3 ≤ py_allocs (rt w))%nat →
  rs_loadsig_begin E (engine w) = (job, sig, e) →
  job ≠ NULL → sig ≠ NULL →
  ∃ w' jc sc,
    begin_load_signature w = (w', Some (jc, sc)) ∧
    jc ≠ NULL ∧ sc ≠ NULL ∧ jc ≠ sc ∧
    heap w !! jc = None ∧ heap w !! sc = None ∧
    heap w' !! jc = Some (job_capsule_obj job NULL) ∧
    heap w' !! sc = Some (sig_capsule_obj sig) ∧
    (∀ o, o ≠ jc → o ≠ sc → heap w' !! o = heap w !! o) ∧
    log w' = Call_rs_loadsig_begin job sig :: log w ∧
    engine w' = e ∧ py_err (rt w') = py_err (rt w).
Proof.
  intros HR Halloc Hload Hjob Hsig.
  destruct (begin_load_signature_ok w job sig e HR Halloc Hload Hjob Hsig)
    as (w' & jc & sc & Hrun & ? & ? & Hne & ? & ? & Hheap & ? & ? & _ & ?).
  exists w', jc, sc. rewrite Hheap. repeat split; auto.
  - by rewrite lookup_insert_ne, lookup_insert_eq.
  - by rewrite lookup_insert_eq.
  - intros o Ho1 Ho2. by rewrite !lookup_insert_ne.
Qed.

(** X10.  When the engine has made the job and the signature but the
    signature capsule or the tuple cannot be allocated,
    [begin_load_signature] fails with [MemoryError], frees the job with
    [rs_job_free] and the signature with [rs_free_sumset], once each, and
    leaves no capsule behind. *)
Theorem begin_load_signature_cleans_up w job sig e :
  RsyncError w ≠ NULL → (0 < py_allocs (rt w) < 3)%nat →
  rs_loadsig_begin E (engine w) = (job, sig, e) →
  job ≠ NULL → job ≠ RsyncError w → sig ≠ NULL →
  ∃ w',
    begin_load_signature w = (w', None) ∧
    heap w' = heap w ∧
    log w'
      = Call_rs_free_sumset sig :: Call_rs_job_free job
        :: Call_rs_loadsig_begin job sig :: log w ∧
    engine w' = rs_free_sumset E sig (rs_job_free E job e) ∧
    py_err (rt w') = Some (PyExc_MemoryError, "").
Proof.
  intros HR Halloc Hload Hjob HjR Hsig.
  destruct (py_alloc_pos (rt w) ltac:(lia)) as (r1 & Hr1).
  pose proof (py_alloc_Some _ _ Hr1) as (He1 & _ & Hn1).
  destruct (fresh_addr_spec (heap w)) as [Hnn Hfresh].
  set (jc := fresh_addr (heap w)) in *.
  unfold begin_load_signature.
  match goal with
  | |- context [CREATE_JOB ?func _ _ _] =>
      pose proof (λ w2, CREATE_JOB_spec func NULL NULL w r1 w2 job sig HR Hr1)
        as Hcj
  end.
  simpl in Hcj. rewrite Hload in Hcj.
  rewrite (Hcj _ eq_refl eq_refl eq_refl). clear Hcj.
  destruct (job =? NULL) eqn:Hj; [apply Z.eqb_eq in Hj; done|]. simpl.
  fold jc.
  destruct (jc =? NULL) eqn:Hjc; [apply Z.eqb_eq in Hjc; done|].
  unfold PyCapsule_New. simpl.
  destruct (sig =? NULL) eqn:Hs; [apply Z.eqb_eq in Hs; done|].
  rewrite insert_insert_eq.
  set (h1 := <[jc := job_capsule_obj job NULL]> (heap w)).
  destruct (py_alloc r1) as [r2|] eqn:Hr2.
  - pose proof (py_alloc_Some _ _ Hr2) as (He2 & _ & Hn2).
    destruct (fresh_addr_spec h1) as [Hnn2 Hfresh2].
    set (sc := fresh_addr h1) in *.
    destruct (sc =? NULL) eqn:Hsc; [apply Z.eqb_eq in Hsc; done|].
    simpl.
    assert (sc ≠ jc) as Hne.
    { intros Heq. rewrite Heq in Hfresh2. unfold h1 in Hfresh2.
      by rewrite lookup_insert_eq in Hfresh2. }
    assert (py_alloc r2 = None) as ->.
    { unfold py_alloc. destruct (py_allocs r2) eqn:Hk; [done|]. lia. }
    rewrite (Py_DECREF_job_capsule_plain _ jc job); [|simpl|done|done].
    2:{ rewrite lookup_insert_ne by done. unfold h1.
        by rewrite lookup_insert_eq. }
    rewrite (Py_DECREF_sig_capsule _ sc sig); [|simpl|done].
    2:{ rewrite lookup_delete_ne by done. by rewrite lookup_insert_eq. }
    eexists. split; [reflexivity|]. simpl. repeat split.
    rewrite (delete_insert_ne _ jc sc) by done.
    rewrite delete_insert_id.
    + unfold h1. by rewrite delete_insert_id.
    + rewrite lookup_delete_ne by done. done.
  - simpl.
    rewrite (Py_DECREF_job_capsule_plain _ jc job); [|simpl|done|done].
    2:{ unfold h1. by rewrite lookup_insert_eq. }
    eexists. split; [reflexivity|]. simpl. repeat split.
    unfold h1. by rewrite delete_insert_id.
Qed.

(** X11.  When not even the job capsule can be allocated,
    [begin_load_signature] never calls [rs_loadsig_begin], and yet calls
    [rs_free_sumset], on the [NULL] pointer that [sig] still holds. *)
Theorem begin_load_signature_frees_null w :
  py_allocs (rt w) = 0%nat →
  ∃ w',
    begin_load_signature w = (w', None) ∧
    heap w' = heap w ∧
    log w' = Call_rs_free_sumset NULL :: log w ∧
    engine w' = rs_free_sumset E NULL (engine w) ∧
    is_Some (py_err (rt w')).
Proof.
  intros Halloc.
  unfold begin_load_signature, CREATE_JOB, PyCapsule_New, py_alloc.
  rewrite Halloc.
  destruct (RsyncError w =? NULL); simpl;
    (eexists; split; [reflexivity|]); simpl; eauto 10.
Qed.

(** X12.  When [rs_loadsig_begin] returns no job, [begin_load_signature]
    returns [NULL] with no exception set of its own; the signature pointer
    that the engine left is handed to [rs_free_sumset], [rs_job_free] is
    not called, and the heap is what it was. *)
Theorem begin_load_signature_engine_refuses w sig e :
  RsyncError w ≠ NULL → (0 < py_allocs (rt w))%nat →
  rs_loadsig_begin E (engine w) = (NULL, sig, e) →
  ∃ w',
    begin_load_signature w = (w', None) ∧
    heap w' = heap w ∧
    log w' = Call_rs_free_sumset sig :: Call_rs_loadsig_begin NULL sig :: log w ∧
    engine w' = rs_free_sumset E sig e ∧
    py_err (rt w') = py_err (rt w).
Proof.
  intros HR Halloc Hload.
  destruct (py_alloc_pos (rt w) ltac:(lia)) as (r1 & Hr1).
  pose proof (py_alloc_Some _ _ Hr1) as (He1 & _ & Hn1).
  destruct (fresh_addr_spec (heap w)) as [Hnn Hfresh].
  unfold begin_load_signature.
  match goal with
  | |- context [CREATE_JOB ?func _ _ _] =>
      pose proof (λ w2, CREATE_JOB_spec func NULL NULL w r1 w2 NULL sig HR Hr1)
        as Hcj
  end.
  simpl in Hcj. rewrite Hload in Hcj.
  rewrite (Hcj _ eq_refl eq_refl eq_refl). clear Hcj. simpl.
  eexists. split; [reflexivity|]. simpl. repeat split; auto.
  by rewrite delete_insert_id.
Qed.

(** X26.  Each of the two capsules of [begin_load_signature] frees what
    it wraps and nothing else: dropping the job capsule calls
    [rs_job_free] and leaves the signature capsule, dropping the signature
    capsule calls [rs_free_sumset] and leaves the job capsule, and
    dropping both gives back the heap one started from, with one call of
    each. *)
Theorem signature_pair_round_trip w job sig e :
  RsyncError w ≠ NULL → (3 ≤ py_allocs (rt w))%nat →
  rs_loadsig_begin E (engine w) = (job, sig, e) →
  job ≠ NULL → job ≠ RsyncError w → sig ≠ NULL →
  ∃ w' jc sc,
    begin_load_signature w = (w', Some (jc, sc)) ∧
    heap (Py_DECREF (Py_DECREF w' jc) sc) = heap w ∧
    log (Py_DECREF w' jc)
      = Call_rs_job_free job :: Call_rs_loadsig_begin job sig :: log w ∧
    heap (Py_DECREF w' jc) !! sc = Some (sig_capsule_obj sig) ∧
    log (Py_DECREF w' sc)
      = Call_rs_free_sumset sig :: Call_rs_loadsig_begin job sig :: log w ∧
    heap (Py_DECREF w' sc) !! jc = Some (job_capsule_obj job NULL) ∧
    log (Py_DECREF (Py_DECREF w' jc) sc)
      = Call_rs_free_sumset sig :: Call_rs_job_free job
        :: Call_rs_loadsig_begin job sig :: log w.
Proof.
  intros HR Halloc Hload Hjob HjR Hsig.
  destruct (begin_load_signature_ok w job sig e HR Halloc Hload Hjob Hsig)
    as (w' & jc & sc & Hrun & _ & _ & Hne & Hf1 & Hf2 & Hheap & Hlog & _ & HR' & _).
  assert (sc ≠ jc) as Hne' by congruence.
  assert (heap w' !! jc = Some (job_capsule_obj job NULL)) as Hjc
    by (rewrite Hheap; by rewrite lookup_insert_ne, lookup_insert_eq).
  assert (heap w' !! sc = Some (sig_capsule_obj sig)) as Hsc
    by (rewrite Hheap; by rewrite lookup_insert_eq).
  exists w', jc, sc. split; [done|].
  rewrite (Py_DECREF_job_capsule_plain w' jc job Hjc Hjob) by congruence.
  rewrite (Py_DECREF_sig_capsule w' sc sig Hsc Hsig).
  rewrite (Py_DECREF_sig_capsule _ sc sig); [|simpl|done].
  2:{ by rewrite lookup_delete_ne. }
  simpl. rewrite Hlog.
  repeat split; try done.
  - rewrite Hheap.
    rewrite (delete_insert_ne _ jc sc) by done.
    rewrite delete_insert_id.
    + by rewrite delete_insert_id.
    + rewrite lookup_delete_ne, lookup_insert_ne by done. done.
  - by rewrite lookup_delete_ne.
  - by rewrite lookup_delete_ne.
Qed.

Lemma begin_create_delta_ok w c n sig ctx d job e :
  heap w !! c = Some (mk_obj n (PyCapsule sig (Some SIGNATURE_CAPSULE) ctx d)) →
  sig ≠ NULL → RsyncError w ≠ NULL → (0 < py_allocs (rt w))%nat →
  rs_delta_begin E sig (engine w) = (job, e) → job ≠ NULL →
  ∃ w',
    begin_create_delta w [c] = (w', fresh_addr (heap w)) ∧
    heap w' = <[fresh_addr (heap w) := job_capsule_obj job NULL]> (heap w) ∧
    log w' = Call_rs_delta_begin sig job :: log w ∧
    engine w' = e ∧ RsyncError w' = RsyncError w ∧
    py_err (rt w') = py_err (rt w).
Proof.
  intros Hc Hsig HR Halloc Hdelta Hjob.
  destruct (py_alloc_pos _ Halloc) as (r1 & Hr1).
  pose proof (py_alloc_Some _ _ Hr1) as (He1 & _ & Hn1).
  unfold begin_create_delta, PyArg_ParseTuple_capsule, is_capsule.
  rewrite Hc.
  unfold GET_SIG_FROM_CAPSULE, PyCapsule_GetPointer, is_legal_capsule,
    name_matches, capsule_name, capsule_pointer.
  rewrite Hc. simpl.
  destruct (sig =? NULL) eqn:Hz; [apply Z.eqb_eq in Hz; done|]. simpl.
  rewrite Hz.
  match goal with
  | |- context [CREATE_JOB ?func _ _ _] =>
      pose proof (λ w2, CREATE_JOB_spec func tt NULL w r1 w2 job tt HR Hr1)
        as Hcj
  end.
  simpl in Hcj. rewrite Hdelta in Hcj.
  rewrite (Hcj _ eq_refl eq_refl eq_refl). clear Hcj.
  rewrite ?Hz. simpl.
  destruct (job =? NULL) eqn:Hj; [apply Z.eqb_eq in Hj; done|].
  eexists. split; [reflexivity|]. simpl. repeat split; auto.
  by rewrite insert_insert_eq.
Qed.

(** X13.  [begin_create_delta] takes no reference to the signature
    capsule.  When the caller drops the only reference, the signature is
    freed with [rs_free_sumset] while the job capsule made from it is
    still alive. *)
Theorem delta_job_outlives_signature w c sig job e :
  heap w !! c = Some (sig_capsule_obj sig) →
  sig ≠ NULL → RsyncError w ≠ NULL → (0 < py_allocs (rt w))%nat →
  rs_delta_begin E sig (engine w) = (job, e) → job ≠ NULL →
  ∃ w' cap,
    begin_create_delta w [c] = (w', cap) ∧ cap ≠ c ∧
    heap w' !! c = Some (sig_capsule_obj sig) ∧
    heap (Py_DECREF w' c) !! c = None ∧
    heap (Py_DECREF w' c) !! cap = Some (job_capsule_obj job NULL) ∧
    log (Py_DECREF w' c)
      = Call_rs_free_sumset sig :: Call_rs_delta_begin sig job :: log w.
Proof.
  intros Hc Hsig HR Halloc Hdelta Hjob.
  destruct (begin_create_delta_ok w c 1 sig NULL (Some FP_free_sig_capsule)
              job e Hc Hsig HR Halloc Hdelta Hjob)
    as (w' & Hrun & Hheap & Hlog & He & HR' & Herr).
  destruct (fresh_addr_spec (heap w)) as [Hnn Hfresh].
  assert (fresh_addr (heap w) ≠ c) as Hne by congruence.
  assert (heap w' !! c = Some (sig_capsule_obj sig)) as Hc'.
  { rewrite Hheap. by rewrite lookup_insert_ne. }
  exists w', (fresh_addr (heap w)). split; [done|]. split; [done|].
  split; [done|].
  rewrite (Py_DECREF_sig_capsule w' c sig Hc' Hsig). simpl.
  rewrite lookup_delete_eq, lookup_delete_ne, Hheap, lookup_insert_eq, Hlog
    by done.
  done.
Qed.

(** ** Jobs that cannot be made *)

Lemma CREATE_JOB_null {A : Type} (func : world E → world E * ptr * A)
    (out0 : A) cb w w' out :
  engine_only func →
  CREATE_JOB func out0 cb w = (w', NULL, out) →
  heap w' = heap w ∧ RsyncError w' = RsyncError w ∧
  ((RsyncError w = NULL ∧ out = out0 ∧ engine w' = engine w ∧ log w' = log w ∧
    ∃ msg, py_err (rt w') = Some (PyExc_ValueError, msg))
   ∨ (RsyncError w ≠ NULL ∧ py_alloc (rt w) = None ∧ out = out0 ∧
      engine w' = engine w ∧ log w' = log w ∧
      py_err (rt w') = Some (PyExc_MemoryError, ""))
   ∨ (∃ r1 w2,
        RsyncError w ≠ NULL ∧ py_alloc (rt w) = Some r1 ∧
        func (set_heap
                (<[fresh_addr (heap w) := job_capsule_obj (RsyncError w) NULL]>
                   (heap w))
                (set_rt r1 w)) = (w2, NULL, out) ∧
        engine w' = engine w2 ∧ log w' = log w2 ∧ rt w' = r1)).
Proof.
  intros Hfunc H.
  destruct (decide (RsyncError w = NULL)) as [HR|HR].
  { unfold CREATE_JOB, PyCapsule_New in H. rewrite HR in H. simpl in H.
    inversion H; subst. simpl. split; [done|]. split; [done|]. left. eauto 10. }
  destruct (py_alloc (rt w)) as [r1|] eqn:Halloc.
  2:{ unfold CREATE_JOB, PyCapsule_New in H.
      apply Z.eqb_neq in HR. rewrite HR, Halloc in H. simpl in H.
      apply Z.eqb_neq in HR.
      inversion H; subst. simpl. split; [done|]. split; [done|].
      right. left. auto 10. }
  set (w1 := set_heap
               (<[fresh_addr (heap w) := job_capsule_obj (RsyncError w) NULL]>
                  (heap w)) (set_rt r1 w)) in *.
  destruct (func w1) as [[w2 job] out2] eqn:Hf.
  pose proof (Hfunc w1) as (Hh & Hr & HRR). rewrite Hf in Hh, Hr, HRR.
  simpl in Hh, Hr, HRR.
  rewrite (CREATE_JOB_spec func out0 cb w r1 w2 job out2 HR Halloc Hf Hh HRR)
    in H.
  destruct (fresh_addr_spec (heap w)) as [Hnn Hfresh].
  destruct (job =? NULL) eqn:Hj.
  - apply Z.eqb_eq in Hj. subst job. inversion H; subst w' out; clear H. simpl.
    rewrite Hh, delete_insert_id by done.
    split; [done|]. split; [done|]. right. right.
    exists r1, w2. repeat split; auto.
  - destruct (cb =? NULL); inversion H; congruence.
Qed.

(** X14.  When [begin_create_delta] returns [NULL], every object is what
    it was, and one of two things has happened: an exception has been set
    before any engine call, or [rs_delta_begin] was called and returned no
    job, in which case the error indicator is what it was before the call,
    so that [NULL] can come back with no exception set. *)
Theorem begin_create_delta_null w args w' :
  begin_create_delta w args = (w', NULL) →
  heap w' = heap w ∧
  ((is_Some (py_err (rt w')) ∧ log w' = log w ∧ engine w' = engine w)
   ∨ ∃ c sig e,
       args = [c] ∧ sig = capsule_pointer (heap w) c ∧
       rs_delta_begin E sig (engine w) = (NULL, e) ∧ engine w' = e ∧
       log w' = Call_rs_delta_begin sig NULL :: log w ∧
       py_err (rt w') = py_err (rt w)).
Proof.
  unfold begin_create_delta. intros H.
  destruct (PyArg_ParseTuple_capsule w args) as [w1 [c|]] eqn:Hparse;
    apply PyArg_ParseTuple_capsule_spec in Hparse.
  2:{ destruct Hparse as (Hh & Hl & He & msg & Herr).
      inversion H; subst w1. split; [done|]. left. rewrite Herr. eauto. }
  destruct Hparse as [-> ->].
  destruct (GET_SIG_FROM_CAPSULE w c) as [w2 sig] eqn:Hsig.
  apply GET_SIG_FROM_CAPSULE_spec in Hsig as (Hh & Hl & HR & He & Hcases).
  destruct Hcases as [(-> & _ & Herr)|(Hnn & -> & Hptr & _)].
  { simpl in H. inversion H; subst. split; [done|]. left. rewrite Herr. eauto. }
  destruct (sig =? NULL) eqn:Hz; [apply Z.eqb_eq in Hz; done|].
  match type of H with
  | context [CREATE_JOB ?f _ _ _] => set (func := f) in *
  end.
  destruct (CREATE_JOB func () NULL w) as [[w3 cap] out] eqn:Hcj.
  inversion H; subst w3 cap; clear H.
  apply CREATE_JOB_null in Hcj.
  2:{ intros w0. unfold func.
      destruct (rs_delta_begin E sig (engine w0)) as [job e]. done. }
  destruct Hcj as (Hheap & _ & Hcases). split; [done|].
  destruct Hcases as [(_ & _ & ? & ? & msg & Herr)|[(_ & _ & _ & ? & ? & Herr)|Hrun]].
  - left. rewrite Herr. eauto.
  - left. rewrite Herr. eauto.
  - right. destruct Hrun as (r1 & w2 & _ & Halloc & Hf & He2 & Hl2 & Hr2).
    unfold func in Hf. simpl in Hf.
    destruct (rs_delta_begin E sig (engine w)) as [job e] eqn:Hdelta.
    inversion Hf; subst w2 job; clear Hf. simpl in *.
    exists c, sig, e. repeat split; auto.
    rewrite Hr2. unfold py_alloc in Halloc.
    destruct (py_allocs (rt w)); [done|]. by inversion Halloc.
Qed.

(** X15.  When [begin_patch] returns [NULL], every object is what it
    was, so that no reference to the callback has been kept; either an
    exception has been set before any engine call, or [rs_patch_begin]
    was called and returned no job, and then the error indicator is what
    it was before the call. *)
Theorem begin_patch_null w cb w' :
  begin_patch w cb = (w', NULL) →
  heap w' = heap w ∧
  ((is_Some (py_err (rt w')) ∧ log w' = log w ∧ engine w' = engine w)
   ∨ ∃ e,
       rs_patch_begin E copy_callback cb (engine w) = (NULL, e) ∧
       engine w' = e ∧
       log w' = Call_rs_patch_begin cb NULL :: log w ∧
       py_err (rt w') = py_err (rt w)).
Proof.
  unfold begin_patch. intros H.
  destruct (PyCallable_Check (heap w) cb); simpl in H.
  2:{ inversion H; subst. simpl. split; [done|]. left. eauto. }
  match type of H with
  | context [CREATE_JOB ?f _ _ _] => set (func := f) in *
  end.
  destruct (CREATE_JOB func () cb w) as [[w3 cap] out] eqn:Hcj.
  inversion H; subst w3 cap; clear H.
  apply CREATE_JOB_null in Hcj.
  2:{ intros w0. unfold func.
      destruct (rs_patch_begin E copy_callback cb (engine w0)) as [job e]. done. }
  destruct Hcj as (Hheap & _ & Hcases). split; [done|].
  destruct Hcases as [(_ & _ & ? & ? & msg & Herr)|[(_ & _ & _ & ? & ? & Herr)|Hrun]].
  - left. rewrite Herr. eauto.
  - left. rewrite Herr. eauto.
  - right. destruct Hrun as (r1 & w2 & _ & Halloc & Hf & He2 & Hl2 & Hr2).
    unfold func in Hf. simpl in Hf.
    destruct (rs_patch_begin E copy_callback cb (engine w)) as [job e] eqn:Hpb.
    inversion Hf; subst w2 job; clear Hf. simpl in *.
    exists e. repeat split; auto.
    rewrite Hr2. unfold py_alloc in Halloc.
    destruct (py_allocs (rt w)); [done|]. by inversion Halloc.
Qed.

Lemma Py_DECREF_job_capsule_callback w cap job cb n k :
  heap w !! cap = Some (job_capsule_obj job cb) →
  job ≠ NULL → job ≠ RsyncError w → cb ≠ NULL → cb ≠ cap →
  heap w !! cb = Some (mk_obj n k) → 1 < n →
  Py_DECREF w cap
  = set_heap (delete cap (<[cb := mk_obj (n - 1) k]> (heap w)))
      (called (Call_rs_job_free job) (rs_job_free E job (engine w)) w).
Proof.
  intros Hcap Hjob HjR Hnn Hne Hcb Hn.
  unfold Py_DECREF. rewrite Hcap. simpl.
  unfold free_job_with_callback_capsule, PyCapsule_IsValid,
    PyCapsule_GetPointer, PyCapsule_GetContext, is_legal_capsule,
    capsule_name, capsule_pointer, capsule_context, name_matches.
  rewrite Hcap. simpl.
  destruct (job =? NULL) eqn:Hj; [apply Z.eqb_eq in Hj; done|]. simpl.
  destruct (cb =? NULL) eqn:Hz; [apply Z.eqb_eq in Hz; done|].
  apply Z.eqb_neq in HjR. rewrite HjR, Hj. simpl. rewrite Hcap. simpl.
  rewrite Hj. simpl. rewrite Hz.
  unfold Py_DECREF_object. simpl. rewrite Hcb.
  destruct (n <=? 1) eqn:Hle; [apply Z.leb_le in Hle; lia|]. done.
Qed.

(** X16.  Making a patch job and dropping its capsule gives back the
    heap one started from: [begin_patch] adds one reference to the
    callback, and the destructor of the capsule frees the job with
    [rs_job_free], once, and gives the reference back. *)
Theorem patch_job_round_trip w cb n f job e :
  heap w !! cb = Some (mk_obj n (PyFunction f)) → 0 < n → cb ≠ NULL →
  RsyncError w ≠ NULL → (0 < py_allocs (rt w))%nat →
  rs_patch_begin E copy_callback cb (engine w) = (job, e) →
  job ≠ NULL → job ≠ RsyncError w →
  ∃ w' cap,
    begin_patch w cb = (w', cap) ∧ cap ≠ NULL ∧
    heap w' !! cb = Some (mk_obj (n + 1) (PyFunction f)) ∧
    heap (Py_DECREF w' cap) = heap w ∧
    log (Py_DECREF w' cap)
      = Call_rs_job_free job :: Call_rs_patch_begin cb job :: log w ∧
    engine (Py_DECREF w' cap) = rs_job_free E job e.
Proof.
  intros Hcb Hn Hnn HR Halloc Hpb Hjob HjR.
  destruct (py_alloc_pos _ Halloc) as (r1 & Hr1).
  destruct (fresh_addr_spec (heap w)) as [Hon Hfresh].
  set (cap := fresh_addr (heap w)) in *.
  assert (cap ≠ cb) as Hne by congruence.
  assert (cb ≠ cap) as Hne' by congruence.
  unfold begin_patch, PyCallable_Check. rewrite Hcb. simpl.
  match goal with
  | |- context [CREATE_JOB ?func _ _ _] =>
      pose proof (λ w2, CREATE_JOB_spec func tt cb w r1 w2 job tt HR Hr1)
        as Hcj
  end.
  simpl in Hcj. rewrite Hpb in Hcj.
  rewrite (Hcj _ eq_refl eq_refl eq_refl). clear Hcj. simpl.
  destruct (job =? NULL) eqn:Hj; [apply Z.eqb_eq in Hj; done|].
  destruct (cb =? NULL) eqn:Hz; [apply Z.eqb_eq in Hz; done|].
  fold cap. rewrite insert_insert_eq.
  unfold Py_INCREF. simpl.
  rewrite lookup_insert_ne, Hcb by done.
  eexists _, cap. split; [reflexivity|]. split; [done|].
  split; [simpl; by rewrite lookup_insert_eq|].
  rewrite (Py_DECREF_job_capsule_callback _ cap job cb (n + 1) (PyFunction f));
    try done; simpl.
  - split; [|done].
    apply map_eq. intros x.
    destruct (decide (x = cap)) as [->|Hx1].
    { by rewrite lookup_delete_eq. }
    rewrite lookup_delete_ne by done.
    destruct (decide (x = cb)) as [->|Hx2].
    { rewrite lookup_insert_eq. symmetry.
      etransitivity; [exact Hcb|]. do 2 f_equal. lia. }
    by rewrite !lookup_insert_ne.
  - by rewrite lookup_insert_ne, lookup_insert_eq.
  - by rewrite lookup_insert_eq.
  - lia.
Qed.

(** ** The answers of the patch callback *)

(** X17.  [copy_callback] tells the engine one of four codes, [RS_DONE],
    [RS_MEM_ERROR], [RS_IO_ERROR] and [RS_INTERNAL_ERROR]; it never
    changes the size of the buffer; it changes [*len] only together with
    [RS_DONE], to a value that fits [size_t]; and with [RS_MEM_ERROR] and
    [RS_IO_ERROR] it leaves the error indicator clear, with [RS_MEM_ERROR]
    without having called the callable. *)
Theorem copy_callback_answers h opaque pos len buf r code len' buf' r' :
  copy_callback h opaque pos len buf r = (code, len', buf', r') →
  (code = RS_DONE ∨ code = RS_MEM_ERROR ∨ code = RS_IO_ERROR
   ∨ code = RS_INTERNAL_ERROR) ∧
  length buf' = length buf ∧
  (code ≠ RS_DONE → len' = len) ∧
  (code = RS_DONE → 0 ≤ len' < 2 ^ 64) ∧
  (code = RS_MEM_ERROR →
   buf' = buf ∧ py_calls r' = py_calls r ∧ py_err r' = None) ∧
  (code = RS_IO_ERROR → py_err r' = None).
Proof.
  unfold copy_callback. intros H.
  destruct (py_alloc r) as [r1|] eqn:Hr1.
  2:{ inversion H; subst. repeat split; auto; try done. }
  destruct (PyObject_CallFunction_OL h opaque _ pos r1) as [[mem' res] r2] eqn:Hcall.
  destruct res as [[k| | |]|].
  - destruct (PyLong_AsSize_t k r2) as [k' r3] eqn:Hk.
    inversion H; subst; clear H. rewrite length_inserts.
    assert (0 ≤ len' < 2 ^ 64).
    { unfold PyLong_AsSize_t in Hk.
      destruct (k <? 0) eqn:Hneg; [|destruct (2 ^ 64 <=? k) eqn:Hbig];
        inversion Hk; subst; lia. }
    repeat split; auto; try done; lia.
  - inversion H; subst; clear H. rewrite length_inserts.
    repeat split; auto; try done.
  - inversion H; subst; clear H. rewrite length_inserts.
    repeat split; auto; try done.
  - inversion H; subst; clear H. rewrite length_inserts.
    repeat split; auto; try done.
  - inversion H; subst; clear H. rewrite length_inserts.
    repeat split; auto; try done.
Qed.

(** X18.  When the callable returns a negative integer, or one of 2^64
    or more, [copy_callback] still tells the engine [RS_DONE]: [*len] is
    set to [(size_t)-1] and the [OverflowError] of [PyLong_AsSize_t] is
    left pending. *)
Theorem copy_callback_integer_out_of_range h cb n f pos len buf r mem' k :
  h !! cb = Some (mk_obj n (PyFunction f)) →
  (2 ≤ py_allocs r)%nat →
  f (resize (Z.to_nat len) Byte.x00 buf) pos = (mem', Returns (PyLong k)) →
  k < 0 ∨ 2 ^ 64 ≤ k →
  ∃ r' msg,
    copy_callback h cb pos len buf r
      = (RS_DONE, 2 ^ 64 - 1, list_inserts 0 mem' buf, r') ∧
    py_err r' = Some (PyExc_OverflowError, msg).
Proof.
  intros Hcb Halloc Hf Hk.
  unfold copy_callback, PyObject_CallFunction_OL, py_alloc.
  destruct (py_allocs r) as [|[|m]] eqn:Hm; [lia|lia|]. simpl.
  rewrite Hcb, Hf. simpl. unfold PyLong_AsSize_t.
  destruct (k <? 0) eqn:Hneg.
  - eexists _, _. split; [reflexivity|]. done.
  - destruct (2 ^ 64 <=? k) eqn:Hbig.
    + eexists _, _. split; [reflexivity|]. done.
    + apply Z.ltb_ge in Hneg. apply Z.leb_gt in Hbig. lia.
Qed.

(** ** Signature jobs *)

Lemma convert_integer_spec w o w' v :
  convert_integer w o = (w', Some v) →
  w' = w ∧ LLONG_MIN ≤ v ≤ LLONG_MAX ∧
  ∃ n, heap w !! o = Some (mk_obj n (PyObj (PyLong v))).
Proof.
  unfold convert_integer. intros H.
  destruct (heap w !! o) as [[n []]|]; try done.
  destruct v0; try done.
  destruct (LLONG_MIN <=? n0) eqn:H1; [|done].
  destruct (n0 <=? LLONG_MAX) eqn:H2; [|done].
  simpl in H. inversion H; subst.
  apply Z.leb_le in H1, H2. eauto.
Qed.

Lemma PyArg_ParseTuple_Ll_world w args fs0 sl0 w' v :
  PyArg_ParseTuple_Ll w args fs0 sl0 = (w', Some v) → w' = w.
Proof.
  unfold PyArg_ParseTuple_Ll. intros H.
  destruct args as [|a0 [|a1 [|? ?]]]; try (by inversion H).
  - destruct (convert_integer w a0) as [w1 [v0|]] eqn:H0; [|done].
    apply convert_integer_spec in H0 as (-> & _). by inversion H.
  - destruct (convert_integer w a0) as [w1 [v0|]] eqn:H0; [|done].
    apply convert_integer_spec in H0 as (-> & _).
    destruct (convert_integer w a1) as [w2 [v1|]] eqn:H1; [|done].
    apply convert_integer_spec in H1 as (-> & _). by inversion H.
Qed.

(** X19.  In a build with [rs_sig_args], a code other than [RS_DONE]
    from it makes [begin_create_signature] fail with [ValueError] (not
    [RsyncError]) carrying the engine's message; [rs_sig_args] has been
    asked with the file size given, or -1, and the strong length given, or
    0; no capsule is made and [rs_sig_begin] is not called. *)
Theorem begin_create_signature_refused SE (S : librsync_sig E) w args w1 fs sl
    f res mg bl st e :
  PyArg_ParseTuple_Ll w args (-1) 0 = (w1, Some (fs, sl)) →
  rs_sig_args S = Some f →
  f fs 0 0 (to_size_t sl) (engine w) = (res, mg, bl, st, e) →
  res ≠ RS_DONE →
  ∃ w',
    begin_create_signature SE S w args = (w', None) ∧
    py_err (rt w') = Some (PyExc_ValueError, rs_strerror E res) ∧
    heap w' = heap w ∧ engine w' = e ∧ log w' = log w.
Proof.
  intros Hparse Hf Hask Hres.
  pose proof (PyArg_ParseTuple_Ll_world _ _ _ _ _ _ Hparse) as ->.
  unfold begin_create_signature. rewrite Hparse, Hf, Hask.
  destruct (bool_decide (res = RS_DONE)) eqn:Hd;
    [apply bool_decide_eq_true in Hd; done|].
  simpl. eexists. split; [reflexivity|]. done.
Qed.

Lemma create_signature_job_ok SE (S : librsync_sig E) w bl st mg job e :
  RsyncError w ≠ NULL → (2 ≤ py_allocs (rt w))%nat →
  rs_sig_begin S bl st mg (engine w) = (job, e) → job ≠ NULL →
  ∃ w' cap,
    create_signature_job SE S w bl st mg
      = (w', Some (cap, to_Py_ssize_t bl, to_Py_ssize_t st)) ∧
    cap ≠ NULL ∧ heap w !! cap = None ∧
    heap w' = <[cap := job_capsule_obj job NULL]> (heap w) ∧
    engine w' = e ∧ log w' = log w ∧ py_err (rt w') = py_err (rt w).
Proof.
  intros HR Halloc Hbegin Hjob.
  destruct (py_alloc_pos (rt w) ltac:(lia)) as (r1 & Hr1).
  pose proof (py_alloc_Some _ _ Hr1) as (He1 & _ & Hn1).
  destruct (py_alloc_pos r1 ltac:(lia)) as (r2 & Hr2).
  pose proof (py_alloc_Some _ _ Hr2) as (He2 & _ & Hn2).
  destruct (fresh_addr_spec (heap w)) as [Hnn Hfresh].
  unfold create_signature_job.
  match goal with
  | |- context [CREATE_JOB ?func _ _ _] =>
      pose proof (λ w2, CREATE_JOB_spec func tt NULL w r1 w2 job tt HR Hr1)
        as Hcj
  end.
  simpl in Hcj. rewrite Hbegin in Hcj.
  rewrite (Hcj _ eq_refl eq_refl eq_refl). clear Hcj.
  destruct (job =? NULL) eqn:Hj; [apply Z.eqb_eq in Hj; done|]. simpl.
  unfold Py_BuildValue_Nnn. simpl. rewrite Hr2.
  destruct (fresh_addr (heap w) =? NULL) eqn:Hz;
    [apply Z.eqb_eq in Hz; done|].
  eexists _, _. split; [reflexivity|]. simpl.
  repeat split; auto.
  - by rewrite insert_insert_eq.
  - congruence.
Qed.

(** X20.  In a build with [rs_sig_args], when it answers [RS_DONE] and
    [rs_sig_begin] returns a job, [begin_create_signature] returns a new
    job capsule around that job together with the block length and the
    strong length that [rs_sig_args] chose, and the job has been started
    with these and the magic number chosen. *)
Theorem begin_create_signature_returns SE (S : librsync_sig E) w args w1 fs sl
    f mg bl st e job e' :
  PyArg_ParseTuple_Ll w args (-1) 0 = (w1, Some (fs, sl)) →
  rs_sig_args S = Some f →
  f fs 0 0 (to_size_t sl) (engine w) = (RS_DONE, mg, bl, st, e) →
  rs_sig_begin S bl st mg e = (job, e') → job ≠ NULL →
  RsyncError w ≠ NULL → (2 ≤ py_allocs (rt w))%nat →
  ∃ w' cap,
    begin_create_signature SE S w args
      = (w', Some (cap, to_Py_ssize_t bl, to_Py_ssize_t st)) ∧
    cap ≠ NULL ∧ heap w !! cap = None ∧
    heap w' = <[cap := job_capsule_obj job NULL]> (heap w) ∧
    engine w' = e' ∧ log w' = log w ∧ py_err (rt w') = py_err (rt w).
Proof.
  intros Hparse Hf Hask Hbegin Hjob HR Halloc.
  pose proof (PyArg_ParseTuple_Ll_world _ _ _ _ _ _ Hparse) as ->.
  unfold begin_create_signature. rewrite Hparse, Hf, Hask. simpl.
  apply (create_signature_job_ok SE S (set_engine e w) bl st mg job e');
    done.
Qed.

(** X21.  In a build without [rs_sig_args] the arguments of
    [begin_create_signature] are parsed and then ignored: the call does
    what a call without arguments does, and a triple returned holds
    [RS_DEFAULT_BLOCK_LEN] and 8. *)
Theorem begin_create_signature_ignores_arguments SE (S : librsync_sig E) w args
    w1 v :
  rs_sig_args S = None →
  PyArg_ParseTuple_Ll w args (-1) 0 = (w1, Some v) →
  begin_create_signature SE S w args = begin_create_signature SE S w [] ∧
  ∀ w' cap bl sl,
    begin_create_signature SE S w args = (w', Some (cap, bl, sl)) →
    bl = to_Py_ssize_t (RS_DEFAULT_BLOCK_LEN S) ∧ sl = 8.
Proof.
  intros Hnone Hparse.
  pose proof (PyArg_ParseTuple_Ll_world _ _ _ _ _ _ Hparse) as ->.
  unfold begin_create_signature. rewrite Hparse. destruct v as [fs sl].
  simpl. rewrite Hnone. split; [done|].
  intros w' cap bl sl' H. unfold create_signature_job in H.
  destruct (CREATE_JOB _ _ _ _) as [[w2 jc] ?].
  unfold Py_BuildValue_Nnn in H.
  destruct (py_alloc (rt w2)); [|done].
  destruct (jc =? NULL); [done|]. inversion H; subst. done.
Qed.

Lemma create_signature_job_null SE (S : librsync_sig E) w bl st mg e :
  RsyncError w ≠ NULL → (2 ≤ py_allocs (rt w))%nat →
  py_err (rt w) = None →
  rs_sig_begin S bl st mg (engine w) = (NULL, e) →
  ∃ w' msg,
    create_signature_job SE S w bl st mg = (w', None) ∧
    py_err (rt w') = Some (PyExc_Object SE, msg) ∧
    heap w' = heap w ∧ engine w' = e ∧ log w' = log w.
Proof.
  intros HR Halloc Herr Hbegin.
  destruct (py_alloc_pos (rt w) ltac:(lia)) as (r1 & Hr1).
  pose proof (py_alloc_Some _ _ Hr1) as (He1 & _ & Hn1).
  destruct (py_alloc_pos r1 ltac:(lia)) as (r2 & Hr2).
  pose proof (py_alloc_Some _ _ Hr2) as (He2 & _ & Hn2).
  destruct (fresh_addr_spec (heap w)) as [Hnn Hfresh].
  unfold create_signature_job.
  match goal with
  | |- context [CREATE_JOB ?func _ _ _] =>
      pose proof (λ w2, CREATE_JOB_spec func tt NULL w r1 w2 NULL tt HR Hr1)
        as Hcj
  end.
  simpl in Hcj. rewrite Hbegin in Hcj.
  rewrite (Hcj _ eq_refl eq_refl eq_refl). clear Hcj. simpl.
  unfold Py_BuildValue_Nnn. simpl. rewrite Hr2. simpl.
  rewrite He2, He1, Herr.
  eexists _, _. split; [reflexivity|]. simpl.
  repeat split; auto. by rewrite delete_insert_id.
Qed.

(** X22.  When [rs_sig_begin] returns no job, [begin_create_signature]
    fails with [SystemError], set by [Py_BuildValue] for the [NULL] capsule
    it is given; no capsule is left behind. *)
Theorem begin_create_signature_without_job SE (S : librsync_sig E) w args w1
    fs sl f mg bl st e e' :
  PyArg_ParseTuple_Ll w args (-1) 0 = (w1, Some (fs, sl)) →
  rs_sig_args S = Some f →
  f fs 0 0 (to_size_t sl) (engine w) = (RS_DONE, mg, bl, st, e) →
  rs_sig_begin S bl st mg e = (NULL, e') →
  RsyncError w ≠ NULL → (2 ≤ py_allocs (rt w))%nat →
  py_err (rt w) = None →
  ∃ w' msg,
    begin_create_signature SE S w args = (w', None) ∧
    py_err (rt w') = Some (PyExc_Object SE, msg) ∧
    heap w' = heap w ∧ engine w' = e' ∧ log w' = log w.
Proof.
  intros Hparse Hf Hask Hbegin HR Halloc Herr.
  pose proof (PyArg_ParseTuple_Ll_world _ _ _ _ _ _ Hparse) as ->.
  unfold begin_create_signature. rewrite Hparse, Hf, Hask. simpl.
  apply (create_signature_job_null SE S (set_engine e w) bl st mg e'); done.
Qed.

(** ** Initialising the module *)

Lemma PyModule_AddObject_new w m name value n k r :
  heap w !! value = Some (mk_obj n k) → 0 < n →
  m !! name = None →
  py_alloc (rt w) = Some r →
  PyModule_AddObject w m name value = (set_rt r w, <[name := value]> m, 0).
Proof.
  intros Hv Hn Hm Hr.
  unfold PyModule_AddObject. rewrite Hr, Hm.
  unfold Py_INCREF. simpl. rewrite Hv.
  unfold Py_DECREF. simpl. rewrite lookup_insert_eq.
  destruct (n + 1 <=? 1) eqn:Hle; [apply Z.leb_le in Hle; lia|].
  simpl. rewrite insert_insert_eq.
  replace (n + 1 - 1) with n by lia.
  rewrite insert_id by done. by destruct w.
Qed.

(** X23.  With memory for four allocations, [exec_module] on a module
    that has neither name returns 0: [RsyncError] is a new class of the
    name [rsync.RsyncError], different from [NULL], with the module holding
    its only reference; the module has [RsyncError] and [IO_BUFFER_SIZE],
    the latter an integer of the value that [iter_job] grows arrays to;
    existing objects, names and the engine are untouched. *)
Theorem exec_module_ok w m :
  (4 ≤ py_allocs (rt w))%nat →
  m !! "RsyncError" = None → m !! "IO_BUFFER_SIZE" = None →
  ∃ w' m' size,
    exec_module w m = (w', m', 0) ∧
    RsyncError w' ≠ NULL ∧ heap w !! RsyncError w' = None ∧
    heap w' !! RsyncError w'
      = Some (mk_obj 1 (PyObj (PyClass "rsync.RsyncError"))) ∧
    m' !! "RsyncError" = Some (RsyncError w') ∧
    m' !! "IO_BUFFER_SIZE" = Some size ∧
    heap w' !! size = Some (mk_obj 1 (PyObj (PyLong IO_BUFFER_SIZE))) ∧
    (∀ name, name ≠ "RsyncError" → name ≠ "IO_BUFFER_SIZE" →
             m' !! name = m !! name) ∧
    (∀ o, heap w !! o = None ∨ heap w' !! o = heap w !! o) ∧
    py_err (rt w') = py_err (rt w) ∧
    engine w' = engine w ∧ log w' = log w.
Proof.
  intros Halloc Hm1 Hm2.
  destruct (py_alloc_pos (rt w) ltac:(lia)) as (r1 & Hr1).
  pose proof (py_alloc_Some _ _ Hr1) as (He1 & _ & Hn1).
  destruct (py_alloc_pos r1 ltac:(lia)) as (r2 & Hr2).
  pose proof (py_alloc_Some _ _ Hr2) as (He2 & _ & Hn2).
  destruct (py_alloc_pos r2 ltac:(lia)) as (r3 & Hr3).
  pose proof (py_alloc_Some _ _ Hr3) as (He3 & _ & Hn3).
  destruct (py_alloc_pos r3 ltac:(lia)) as (r4 & Hr4).
  pose proof (py_alloc_Some _ _ Hr4) as (He4 & _ & Hn4).
  destruct (fresh_addr_spec (heap w)) as [Hnn Hfresh].
  set (cls := fresh_addr (heap w)) in *.
  set (h1 := <[cls := mk_obj 1 (PyObj (PyClass "rsync.RsyncError"))]> (heap w)).
  destruct (fresh_addr_spec h1) as [Hnn2 Hfresh2].
  set (o := fresh_addr h1) in *.
  assert (o ≠ cls) as Hne.
  { intros Heq. rewrite Heq in Hfresh2. unfold h1 in Hfresh2.
    by rewrite lookup_insert_eq in Hfresh2. }
  unfold exec_module, PyErr_NewException. rewrite Hr1. fold cls. simpl.
  destruct (cls =? NULL) eqn:Hz; [apply Z.eqb_eq in Hz; done|].
  fold h1.
  erewrite (PyModule_AddObject_new _ m "RsyncError" cls 1 _ r2); simpl;
    [|unfold h1; by rewrite lookup_insert_eq|lia|done|done].
  unfold PyModule_AddIntConstant. simpl. rewrite Hr3. fold o.
  erewrite (PyModule_AddObject_new _ _ "IO_BUFFER_SIZE" o 1 _ r4); simpl;
    [|by rewrite lookup_insert_eq|lia|by rewrite lookup_insert_ne|done].
  eexists _, _, o. split; [reflexivity|]. simpl.
  split; [done|].
  split; [done|].
  split; [rewrite lookup_insert_ne by done; unfold h1; by rewrite lookup_insert_eq|].
  split; [by rewrite lookup_insert_ne, lookup_insert_eq|].
  split; [by rewrite lookup_insert_eq|].
  split; [by rewrite lookup_insert_eq|].
  split; [intros name H1 H2; by rewrite !lookup_insert_ne|].
  split.
  { intros x. destruct (heap w !! x) as [obj|] eqn:Hx; [right|by left].
    rewrite lookup_insert_ne.
    - unfold h1. rewrite lookup_insert_ne; [done|]. congruence.
    - intros ->. unfold h1 in Hfresh2.
      rewrite lookup_insert_ne in Hfresh2 by done. congruence. }
  repeat split; congruence.
Qed.


(** X25.  When the class cannot be made, [exec_module] returns -1 with
    [MemoryError] and leaves [RsyncError] at [NULL]; in that state
    [begin_patch] fails with [ValueError] for every callable, before any
    engine call. *)
Theorem exec_module_fails w m :
  py_allocs (rt w) = 0%nat →
  ∃ w',
    exec_module w m = (w', m, -1) ∧ RsyncError w' = NULL ∧
    heap w' = heap w ∧ py_err (rt w') = Some (PyExc_MemoryError, "") ∧
    ∀ cb,
      PyCallable_Check (heap w') cb = true →
      ∃ w2 msg,
        begin_patch w' cb = (w2, NULL) ∧
        py_err (rt w2) = Some (PyExc_ValueError, msg) ∧
        log w2 = log w' ∧ engine w2 = engine w'.
Proof.
  intros Halloc.
  unfold exec_module, PyErr_NewException, py_alloc. rewrite Halloc. simpl.
  eexists. split; [reflexivity|]. simpl. repeat split; auto.
  intros cb Hcb. unfold begin_patch. simpl. rewrite Hcb. simpl.
  unfold CREATE_JOB, PyCapsule_New. simpl.
  eexists _, _. split; [reflexivity|]. done.
Qed.

End Further.

(** * The scripted engine at work *)

Module ScriptedFacts.

Import Scripted.

Lemma honours : honours_buffers scripted.
Proof.
  intros job b input output h r st res b' written r' st' H Hi Ho.
  simpl in H. unfold job_iter, advance in H.
  destruct (script st) as [|s rest]; [inversion H; subst; lia|].
  simpl in H.
  destruct (basis s) as [[pos len]|]; [destruct (copy_cb st) as [[cb opaque]|]|].
  - destruct (cb _ _ _ _ _ _) as [[[code len'] window] r1].
    destruct (bool_decide (code = RS_DONE));
      inversion H; subst; simpl; rewrite ?length_take; lia.
  - inversion H; subst; simpl; rewrite ?length_take; lia.
  - inversion H; subst; simpl; rewrite ?length_take; lia.
Qed.

Lemma keeps : keeps_eof scripted.
Proof.
  intros job b input output h r st res b' written r' st' H.
  simpl in H. unfold job_iter, advance in H.
  destruct (script st) as [|s rest]; [by inversion H; subst|].
  simpl in H.
  destruct (basis s) as [[pos len]|]; [destruct (copy_cb st) as [[cb opaque]|]|].
  - destruct (cb _ _ _ _ _ _) as [[[code len'] window] r1].
    destruct (bool_decide (code = RS_DONE)); by inversion H; subst.
  - by inversion H; subst.
  - by inversion H; subst.
Qed.

End ScriptedFacts.

(** * Examples *)

Section Examples.

Import Scripted.

(** The job of [growing] fills the two bytes of the array, the array grows
    to [IO_BUFFER_SIZE], and the second iteration finishes the job: three
    bytes produced, no input left. *)
Example growing_step :
  observe (iter_job 2 growing [10; 11; 12])
  = Some (Some (true, 0, 3),
          [Call_rs_job_iter 100 (mk_buffers 1 2 0 2 65534) RS_DONE
             (mk_buffers 3 0 0 3 65533);
           Call_rs_job_iter 100 (mk_buffers 0 3 0 0 2) RS_RUNNING
             (mk_buffers 1 2 0 2 0)],
          None)
  ∧ take 4 (object_bytes
              (heap (after (iter_job 2 growing [10; 11; 12]) growing)) 12)
    = ["A"; "B"; "D"; Byte.x00]%byte.
Proof. split; vm_compute; reflexivity. Qed.

(** With the output array as the input chunk too, the array has an export
    left when it should grow, and the step fails with [BufferError]. *)
Example aliased_buffers_cannot_grow :
  observe (iter_job 2 growing [10; 12; 12])
  = Some (None,
          [Call_rs_job_iter 100 (mk_buffers 0 2 0 0 2) RS_RUNNING
             (mk_buffers 1 1 0 2 0)],
          Some (PyExc_BufferError,
                "Existing exports of data: object cannot be re-sized")).
Proof. vm_compute. reflexivity. Qed.

(** A memory view as the input chunk: a contiguous one is taken to the
    engine, one that is not is refused with the [BufferError] of the
    view. *)
Example memory_view_as_input :
  observe (iter_job 1 viewing [10; 17; 12])
  = Some (Some (true, 2, 0),
          [Call_rs_job_iter 100 (mk_buffers 0 2 0 0 2) RS_DONE
             (mk_buffers 0 2 0 0 2)],
          None)
  ∧ observe (iter_job 1 viewing [10; 16; 12])
    = Some (None, [],
            Some (PyExc_BufferError,
                  "memoryview: underlying buffer is not C-contiguous")).
Proof. split; vm_compute; reflexivity. Qed.

(** A signature is loaded, built and used for a delta job. *)
Example signature_to_delta :
  (build_hash_table loaded [23]).2 = Some PyNone ∧
  (begin_create_delta (build_hash_table loaded [23]).1 [23]).2 = 24 ∧
  log (begin_create_delta (build_hash_table loaded [23]).1 [23]).1
  = [Call_rs_delta_begin 101 102; Call_rs_build_hash_table 101 RS_DONE;
     Call_rs_loadsig_begin 100 101].
Proof. repeat split; vm_compute; reflexivity. Qed.

Lemma iter_job_returns_triple_witness :
  ∃ calls r b',
    log (after (iter_job 1 copying [10; 11; 12]) copying)
      = rev calls ++ log copying ∧
    iterations scripted (capsule_pointer (heap copying) 10)
      (entry_buffers
         (mk_pybuf 11 (Z.of_nat (length (object_bytes (heap copying) 11))))
         (mk_pybuf 12 (PyByteArray_GET_SIZE copying 12)))
      calls r b' ∧
    (r = RS_DONE ∨ r = RS_BLOCKED) ∧
    true = bool_decide (r = RS_DONE) ∧
    0 = avail_in b' ∧
    2 = total_produced calls.
Proof.
  apply (iter_job_returns_triple 1 copying 10 11 12 _ true 0 2).
  - apply ScriptedFacts.honours.
  - vm_compute. discriminate.
  - vm_compute. discriminate.
  - vm_compute. reflexivity.
Defined.

Lemma iter_job_result_bounds_witness :
  0 ≤ 0 ≤ Z.of_nat (length (object_bytes (heap copying) 11)) ∧
  0 ≤ 2 ≤ PyByteArray_GET_SIZE finished 12 ∧
  (object_bytes (heap copying) 11 = [] → 0 = 0).
Proof.
  apply (iter_job_result_bounds 1 copying 10 11 12 finished true 0 2).
  - apply ScriptedFacts.honours.
  - vm_compute. discriminate.
  - vm_compute. discriminate.
  - vm_compute. reflexivity.
Defined.

Lemma eof_iff_empty_input_witness :
  Forall (λ c, ∃ job b r b',
            c = Call_rs_job_iter job b r b' ∧
            eof_in b = match object_bytes (heap finished) 13 with
                       | [] => 1
                       | _ => 0
                       end)
    [Call_rs_job_iter 100 (mk_buffers 0 0 1 0 2) RS_DONE (mk_buffers 0 0 1 0 2)].
Proof.
  apply (eof_iff_empty_input 1 finished [10; 13; 12] 13
           (after (iter_job 1 finished [10; 13; 12]) finished)
           (Some (true, 0, 0))).
  - apply ScriptedFacts.keeps.
  - reflexivity.
  - vm_compute. reflexivity.
  - vm_compute. reflexivity.
Defined.

Lemma output_grows_and_resumes_witness :
  (∃ s',
     iter_job_body 100 (mk_pybuf 11 3) 12 growing_entered = Continue s' ∧
     iter_job_loop 2 100 (mk_pybuf 11 3) 12 growing_entered
       = iter_job_loop 1 100 (mk_pybuf 11 3) 12 s' ∧
     PyByteArray_GET_SIZE (ls_world s') 12 = MAX IO_BUFFER_SIZE (2 * 2) ∧
     ["A"; "B"]%byte `prefix_of` object_bytes (heap (ls_world s')) 12 ∧
     ls_output_size s' = to_Py_ssize_t (0 + to_size_t (2 - 0)) ∧
     next_in (ls_buffer s') = 1 ∧
     avail_in (ls_buffer s') = 2 ∧
     eof_in (ls_buffer s') = 0 ∧
     next_out (ls_buffer s') = ls_output_size s' ∧
     avail_out (ls_buffer s')
       = to_size_t (PyByteArray_GET_SIZE (ls_world s') 12 - ls_output_size s') ∧
     exports (heap (ls_world s')) 12 = 1 ∧
     log (ls_world s')
       = [Call_rs_job_iter 100 (mk_buffers 0 3 0 0 2) RS_RUNNING
            (mk_buffers 1 2 0 2 0)]) ∧
  (∃ s',
     iter_job_body 100 (mk_pybuf 12 2) 12 aliased_entered = ReturnNULL s' ∧
     iter_job_loop 2 100 (mk_pybuf 12 2) 12 aliased_entered
       = Some (ReturnNULL s') ∧
     py_err (rt (ls_world s'))
       = Some (PyExc_BufferError,
               "Existing exports of data: object cannot be re-sized") ∧
     object_bytes (heap (ls_world s')) 12 = ["A"; "B"]%byte ∧
     log (ls_world s')
       = [Call_rs_job_iter 100 (mk_buffers 0 2 0 0 2) RS_RUNNING
            (mk_buffers 1 1 0 2 0)]).
Proof.
  split.
  - apply (output_grows_and_resumes 1 100 (mk_pybuf 11 3) 12 growing_entered
             RS_RUNNING (mk_buffers 1 2 0 2 0)
             (call_rs_job_iter (ls_world growing_entered) 100
                (ls_buffer growing_entered) 11 12).2
             1 ["A"; "B"]%byte 1).
    + vm_compute. reflexivity.
    + discriminate.
    + discriminate.
    + vm_compute. discriminate.
    + discriminate.
    + reflexivity.
    + vm_compute. reflexivity.
    + vm_compute. discriminate.
    + reflexivity.
    + vm_compute. lia.
  - apply (output_grows_and_resumes 1 100 (mk_pybuf 12 2) 12 aliased_entered
             RS_RUNNING (mk_buffers 1 1 0 2 0)
             (call_rs_job_iter (ls_world aliased_entered) 100
                (ls_buffer aliased_entered) 12 12).2
             1 ["A"; "B"]%byte 2).
    + vm_compute. reflexivity.
    + discriminate.
    + discriminate.
    + vm_compute. discriminate.
    + discriminate.
    + reflexivity.
    + vm_compute. reflexivity.
    + vm_compute. discriminate.
    + lia.
Defined.

(** With the output array as the input chunk too, the array has an export
    left when it should grow: the one iteration of the step answers
    [RS_RUNNING] with a byte of input left, and no iteration follows it. *)
Lemma aliased_output_not_grown :
  ¬ growth_always_resumes scripted 2 growing [10; 12; 12].
Proof.
  intros H.
  assert (observe (iter_job 2 growing [10; 12; 12])
          = Some (None,
                  [Call_rs_job_iter 100 (mk_buffers 0 2 0 0 2) RS_RUNNING
                     (mk_buffers 1 1 0 2 0)],
                  Some (PyExc_BufferError,
                        "Existing exports of data: object cannot be re-sized")))
    as Hobs by (vm_compute; reflexivity).
  destruct (iter_job 2 growing [10; 12; 12]) as [[w' ret]|] eqn:Hrun;
    [|discriminate].
  simpl in Hobs. inversion Hobs as [[Hret Hlog Herr]].
  destruct (H w' ret [] 100 (mk_buffers 0 2 0 0 2) RS_RUNNING
              (mk_buffers 1 1 0 2 0) [] Hrun Hlog)
    as (newer' & b2 & r2 & b2' & Hnewer & _); try discriminate.
  by destruct newer'.
Qed.

Lemma engine_error_without_input_fails_witness :
  (∃ w' ret, iter_job 49 corrupt [10; 11; 12] = Some (w', ret)) ∧
  [] = @nil engine_call ∧ None = @None (bool * Z * Z) ∧
  py_err (rt (after (iter_job 49 corrupt [10; 11; 12]) corrupt))
    = Some (PyExc_Object (RsyncError corrupt), rs_strerror scripted RS_CORRUPT).
Proof.
  destruct (engine_error_without_input_fails 49 corrupt [10; 11; 12])
    as [Hends Hfails].
  split; [apply Hends; lia|].
  apply (Hfails (after (iter_job 49 corrupt [10; 11; 12]) corrupt) None
           [] 100 (mk_buffers 0 3 0 0 2) RS_CORRUPT (mk_buffers 3 0 0 0 2) []).
  - vm_compute. reflexivity.
  - vm_compute. reflexivity.
  - discriminate.
  - discriminate.
  - reflexivity.
Defined.

(** The job of [bad_magic] answers [RS_BAD_MAGIC] and leaves two bytes of
    input: the driver grows the array and iterates again, and the step
    returns [(true, 2, 0)]. *)
Lemma engine_error_retried :
  ¬ error_never_retried scripted 2 bad_magic [10; 11; 12].
Proof.
  intros H.
  assert (observe (iter_job 2 bad_magic [10; 11; 12])
          = Some (Some (true, 2, 0),
                  [Call_rs_job_iter 100 (mk_buffers 1 2 0 0 65536) RS_DONE
                     (mk_buffers 1 2 0 0 65536);
                   Call_rs_job_iter 100 (mk_buffers 0 3 0 0 2) RS_BAD_MAGIC
                     (mk_buffers 1 2 0 0 2)],
                  None)) as Hobs by (vm_compute; reflexivity).
  destruct (iter_job 2 bad_magic [10; 11; 12]) as [[w' ret]|] eqn:Hrun;
    [|discriminate].
  simpl in Hobs. inversion Hobs as [[Hret Hlog Herr]].
  destruct (H w' ret
              [Call_rs_job_iter 100 (mk_buffers 1 2 0 0 65536) RS_DONE
                 (mk_buffers 1 2 0 0 65536)]
              100 (mk_buffers 0 3 0 0 2) RS_BAD_MAGIC (mk_buffers 1 2 0 0 2)
              [] Hrun Hlog) as (Hnewer & _); discriminate.
Qed.

Lemma begin_create_delta_asks_engine_witness :
  ∃ w' cap,
    begin_create_delta loaded [23] = (w', cap) ∧
    log w' = Call_rs_delta_begin 101 102 :: log loaded ∧
    engine w' = mk_state [] 103 None ∧
    (102 = NULL → cap = NULL) ∧
    (102 ≠ NULL →
     cap ≠ NULL ∧ heap loaded !! cap = None ∧
     heap w' !! cap = Some (job_capsule_obj 102 NULL) ∧
     py_err (rt w') = py_err (rt loaded)).
Proof.
  apply (begin_create_delta_asks_engine loaded 23 1 101 NULL
           (Some FP_free_sig_capsule) 102 (mk_state [] 103 None)).
  - vm_compute. reflexivity.
  - discriminate.
  - vm_compute. discriminate.
  - vm_compute. lia.
  - vm_compute. reflexivity.
Defined.

(** The signature of [loaded] has never been through [build_hash_table],
    and [begin_create_delta] returns a job capsule for it. *)
Lemma unbuilt_signature_accepted : ¬ unbuilt_signature_rejected scripted loaded 23.
Proof.
  intros H. destruct H as (w' & Hret & _).
  - intros r Hin. vm_compute in Hin.
    apply list_elem_of_In in Hin. simpl in Hin.
    destruct Hin as [Hin|[]]. discriminate.
  - apply (f_equal snd) in Hret. vm_compute in Hret. discriminate.
Qed.

Lemma copy_callback_protocol_witness :
  Z.of_nat (length (resize (Z.to_nat 4) Byte.x00 ["a"; "b"]%byte)) = 4 ∧
  (∃ code len' buf' r',
     copy_callback (heap failing_source) 20 7 4 ["a"; "b"]%byte
       (mk_rt None 5 []) = (code, len', buf', r') ∧
     py_calls r'
       = [mk_pycall 20 (resize (Z.to_nat 4) Byte.x00 ["a"; "b"]%byte) 7] ∧
     code = RS_IO_ERROR ∧ py_err r' = None) ∧
  None = @None (bool * Z * Z) ∧
  py_err (rt (after (iter_job 1 failing_source [22; 13; 12]) failing_source))
    = Some (PyExc_Object (RsyncError failing_source),
            rs_strerror scripted RS_IO_ERROR).
Proof.
  destruct (copy_callback_protocol (E := scripted) (heap failing_source) 20 2
              (λ mem _, (mem, Raises (PyExc_RuntimeError, "no basis")))
              7 4 ["a"; "b"]%byte (mk_rt None 5 []))
    as (Hview & Hcall & Hstep).
  - vm_compute. reflexivity.
  - lia.
  - simpl. lia.
  - split; [exact Hview|]. split; [exact Hcall|].
    apply (Hstep 1%nat failing_source [22; 13; 12]
             (after (iter_job 1 failing_source [22; 13; 12]) failing_source)
             None [] 100 (mk_buffers 0 0 1 0 2) RS_IO_ERROR
             (mk_buffers 0 0 1 0 2) []).
    + vm_compute. reflexivity.
    + vm_compute. reflexivity.
    + left. reflexivity.
    + reflexivity.
Defined.

(** The data source of [patching] is given a view of two bytes and answers
    nine: [copy_callback] tells the engine [RS_DONE], and the step returns
    [(true, 0, 2)]. *)
Lemma oversized_return_accepted :
  ¬ oversized_return_fails_step scripted 1 patching [22; 11; 12].
Proof.
  intros H.
  assert (iter_job 1 patching [22; 11; 12]
          = Some (after (iter_job 1 patching [22; 11; 12]) patching,
                  Some (true, 0, 2))) as Hrun by (vm_compute; reflexivity).
  destruct (H _ _ [] 21 [Byte.x00; Byte.x00] 0 2
              (λ mem _, (mem, Returns (PyLong 9)))
              [Byte.x00; Byte.x00] 9 Hrun) as (Hret & _).
  - vm_compute. reflexivity.
  - vm_compute. reflexivity.
  - reflexivity.
  - simpl. lia.
  - discriminate.
Qed.

Lemma empty_step_asks_engine_witness :
  ∃ w',
    iter_job 1 finished [10; 13; 12] = Some (w', Some (true, 0, 0)) ∧
    log w'
      = Call_rs_job_iter 100 (mk_buffers 0 0 1 0 2) RS_DONE
          (mk_buffers 0 0 1 0 2)
        :: log finished.
Proof.
  destruct (empty_step_asks_engine finished [10; 13; 12] entered 100
              (mk_pybuf 13 0) 12
              (mk_loop (mk_buffers 0 0 1 0 2) 0 (mk_pybuf 12 2) entered))
    as (_ & _ & _ & Hdone).
  - vm_compute. reflexivity.
  - reflexivity.
  - apply (Hdone 0%nat (mk_buffers 0 0 1 0 2)
             (call_rs_job_iter entered 100 (mk_buffers 0 0 1 0 2) 13 12).2).
    + vm_compute. reflexivity.
    + reflexivity.
    + reflexivity.
    + vm_compute. lia.
Defined.

(** The job of [copying] is finished by its first step; the step with the
    empty chunk that follows calls the engine all the same. *)
Lemma completion_asks_engine :
  ¬ idempotent_completion scripted 1 copying 10 11 13 12.
Proof.
  intros H.
  destruct (H finished 0 2) as (w2 & Hrun & Hlog).
  - vm_compute. reflexivity.
  - vm_compute. reflexivity.
  - apply (f_equal observe) in Hrun. simpl in Hrun. rewrite Hlog in Hrun.
    vm_compute in Hrun. discriminate.
Qed.

Lemma wrong_capsule_is_refused_witness :
  (∃ w' t msg,
     iter_job 1 viewing [14; 16; 12] = Some (w', None) ∧
     py_err (rt w') = Some (t, msg) ∧
     (∀ i oa t' m, [16; 12] = [i; oa] →
                   refused (heap viewing) i = Some (t', m) → t = t') ∧
     ((∀ i oa, [16; 12] = [i; oa] → refused (heap viewing) i = None) →
      t = PyExc_TypeError) ∧
     log w' = log viewing ∧ engine w' = engine viewing) ∧
  (∃ w' msg,
     build_hash_table idle [10] = (w', None) ∧
     py_err (rt w') = Some (PyExc_TypeError, msg) ∧
     log w' = log idle ∧ engine w' = engine idle) ∧
  (∃ w' msg,
     begin_create_delta idle [10] = (w', NULL) ∧
     py_err (rt w') = Some (PyExc_TypeError, msg) ∧
     log w' = log idle ∧ engine w' = engine idle).
Proof.
  split.
  - apply (wrong_capsule_is_refused 1 viewing 14 [16; 12]).
    + reflexivity.
    + vm_compute. discriminate.
  - apply (wrong_capsule_is_refused 1 idle 10 []).
    + reflexivity.
    + vm_compute. discriminate.
Defined.

(** A signature capsule passed to [iter_job] together with a memory view
    that is not C-contiguous: the input is converted before the capsule is
    looked into, and the step fails with [BufferError]. *)
Lemma refused_input_is_buffer_error :
  ¬ wrong_capsule_type_error scripted 1 viewing 14 [16; 12].
Proof.
  intros H. destruct H as (w' & msg & Hrun & Herr & _).
  - reflexivity.
  - vm_compute. discriminate.
  - assert (observe (Some (w', None))
            = Some (None, [],
                    Some (PyExc_BufferError,
                          "memoryview: underlying buffer is not C-contiguous")))
      as Hobs by (rewrite <- Hrun; vm_compute; reflexivity).
    simpl in Hobs. rewrite Herr in Hobs. discriminate.
Qed.

Lemma begin_patch_holds_callback_witness :
  begin_patch idle 11
    = (raise PyExc_TypeError "callback must be a callable" idle, NULL) ∧
  (∃ job,
     job ≠ NULL ∧
     heap (boot objects 9 [mk_step 3 [] RS_DONE (Some (0, 4))]) !! 22 = None ∧
     heap patching !! 22 = Some (job_capsule_obj job 21) ∧
     heap patching !! 21
       = Some (mk_obj (1 + 1) (PyFunction (λ mem _, (mem, Returns (PyLong 9))))) ∧
     log patching = [Call_rs_patch_begin 21 job]) ∧
  same_objects (heap patching)
    (heap (after (iter_job 1 patching [22; 11; 12]) patching)) ∧
  heap (Py_DECREF (Py_INCREF patching 22) 22) !! 21 = heap patching !! 21 ∧
  (heap (Py_DECREF patching 22) !! 22 = None ∧
   heap (Py_DECREF patching 22) !! 21
     = Some (mk_obj (2 - 1) (PyFunction (λ mem _, (mem, Returns (PyLong 9))))) ∧
   log (Py_DECREF patching 22) = Call_rs_job_free 100 :: log patching).
Proof.
  destruct (begin_patch_holds_callback (E := scripted))
    as (Hrefuse & Hcreate & Hstep & Hshared & Hdrop).
  split; [|split; [|split; [|split]]].
  - apply Hrefuse. reflexivity.
  - apply (Hcreate (boot objects 9 [mk_step 3 [] RS_DONE (Some (0, 4))]) 21 1
             (λ mem _, (mem, Returns (PyLong 9))) patching 22).
    + vm_compute. reflexivity.
    + discriminate.
    + vm_compute. reflexivity.
    + discriminate.
  - apply (Hstep 1%nat patching [22; 11; 12] _ (Some (true, 0, 2))).
    vm_compute. reflexivity.
  - etransitivity.
    + apply (Hshared (Py_INCREF patching 22) 22 2
               (PyCapsule 100 (Some JOB_WITH_CALLBACK_CAPSULE) 21
                  (Some FP_free_job_with_callback_capsule)) 21).
      * vm_compute. reflexivity.
      * lia.
    + vm_compute. reflexivity.
  - apply (Hdrop patching 22 100 21 2
             (PyFunction (λ mem _, (mem, Returns (PyLong 9))))).
    + vm_compute. reflexivity.
    + discriminate.
    + discriminate.
    + discriminate.
    + vm_compute. reflexivity.
Defined.

End Examples.

(** * The further properties at work *)

Section FurtherExamples.

Import Scripted.
Import Scenes.

(** The array of [growing] has two bytes; after the step of two
    iterations it has [IO_BUFFER_SIZE], having grown once. *)
Example growing_once :
  PyByteArray_GET_SIZE (after (iter_job 2 growing [10; 11; 12]) growing) 12
  = Nat.iter 1 grow_once (PyByteArray_GET_SIZE growing 12) ∧
  exports (heap (after (iter_job 2 growing [10; 11; 12]) growing)) 12 = 0.
Proof. split; vm_compute; reflexivity. Qed.

Lemma iter_job_reaches_engine_witness :
  (step_arguments copying [10; 11; 12] ∧
   ∃ c i oa newer r b',
     [10; 11; 12] = [c; i; oa] ∧
     log finished
     = newer
       ++ Call_rs_job_iter (capsule_pointer (heap copying) c)
            (entry_buffers
               (mk_pybuf i (Z.of_nat (length (object_bytes (heap copying) i))))
               (mk_pybuf oa (PyByteArray_GET_SIZE copying oa)))
            r b'
       :: log copying)
  ∨ (¬ step_arguments copying [10; 11; 12] ∧
     Some (true, 0, 2) = None ∧ log finished = log copying ∧
     engine finished = engine copying ∧
     ∃ msg,
       py_err (rt finished)
       = Some (refusal (heap copying) [10; 11; 12], msg)).
Proof.
  apply (iter_job_reaches_engine 1 copying [10; 11; 12] finished
           (Some (true, 0, 2))).
  vm_compute. reflexivity.
Defined.

Lemma iter_job_null_sets_exception_witness :
  is_Some (py_err (rt (after (iter_job 1 corrupt [10; 11; 12]) corrupt))).
Proof.
  apply (iter_job_null_sets_exception 1 corrupt [10; 11; 12]).
  vm_compute. reflexivity.
Defined.


Lemma iter_job_releases_views_witness :
  exports (heap finished) 12 = exports (heap copying) 12.
Proof.
  apply (iter_job_releases_views 1 copying [10; 11; 12] finished
           (Some (true, 0, 2)) 12).
  - vm_compute. reflexivity.
  - vm_compute. reflexivity.
Defined.

Lemma pass_appends_output_witness :
  let s' :=
    outcome_state (iter_job_body 100 (mk_pybuf 11 3) 12 copying_entered) in
  ls_output_size s'
    = ls_output_size copying_entered
      + Z.of_nat (length ["x"; "y"]%byte) ∧
  take (Z.to_nat (ls_output_size s')) (object_bytes (heap (ls_world s')) 12)
  = take (Z.to_nat (ls_output_size copying_entered))
      (object_bytes (heap (ls_world copying_entered)) 12)
    ++ ["x"; "y"]%byte ∧
  (∀ s2,
     iter_job_body 100 (mk_pybuf 11 3) 12 copying_entered = Continue s2 →
     next_out (ls_buffer s2) = ls_output_size s2 ∧
     avail_out (ls_buffer s2)
       = PyByteArray_GET_SIZE (ls_world s2) 12 - ls_output_size s2).
Proof.
  apply (pass_appends_output 100 (mk_pybuf 11 3) 12 copying_entered
           RS_DONE (mk_buffers 3 0 0 2 0) ["x"; "y"]%byte
           (mk_rt None 5 []) (mk_state [] 100 None)).
  - vm_compute. reflexivity.
  - vm_compute. reflexivity.
  - vm_compute. discriminate.
  - reflexivity.
  - reflexivity.
  - vm_compute. discriminate.
  - vm_compute. discriminate.
Defined.

Lemma output_array_size_law_witness :
  PyByteArray_GET_SIZE finished 12
  = Nat.iter (length [copying_call] - 1) grow_once
      (PyByteArray_GET_SIZE copying 12).
Proof.
  apply (output_array_size_law 1 copying [10; 11; 12] 12 finished
           (Some (true, 0, 2))).
  - reflexivity.
  - vm_compute. discriminate.
  - vm_compute. reflexivity.
  - vm_compute. reflexivity.
Defined.

Lemma iter_job_calls_bounded_witness :
  (length [copying_call] ≤ 48)%nat.
Proof.
  apply (iter_job_calls_bounded 1 copying [10; 11; 12] finished
           (Some (true, 0, 2))).
  - vm_compute. reflexivity.
  - vm_compute. reflexivity.
Defined.


Lemma begin_load_signature_returns_pair_witness :
  ∃ w' jc sc,
    begin_load_signature idle = (w', Some (jc, sc)) ∧
    jc ≠ NULL ∧ sc ≠ NULL ∧ jc ≠ sc ∧
    heap idle !! jc = None ∧ heap idle !! sc = None ∧
    heap w' !! jc = Some (job_capsule_obj 100 NULL) ∧
    heap w' !! sc = Some (sig_capsule_obj 101) ∧
    (∀ o, o ≠ jc → o ≠ sc → heap w' !! o = heap idle !! o) ∧
    log w' = Call_rs_loadsig_begin 100 101 :: log idle ∧
    engine w' = mk_state [] 102 None ∧ py_err (rt w') = py_err (rt idle).
Proof.
  apply (begin_load_signature_returns_pair idle 100 101
           (mk_state [] 102 None)).
  - vm_compute. discriminate.
  - vm_compute. lia.
  - vm_compute. reflexivity.
  - discriminate.
  - discriminate.
Defined.

Lemma begin_load_signature_cleans_up_witness :
  ∃ w',
    begin_load_signature (boot objects 2 []) = (w', None) ∧
    heap w' = heap (boot objects 2 []) ∧
    log w'
      = Call_rs_free_sumset 101 :: Call_rs_job_free 100
        :: Call_rs_loadsig_begin 100 101 :: log (boot objects 2 []) ∧
    engine w'
      = rs_free_sumset scripted 101
          (rs_job_free scripted 100 (mk_state [] 102 None)) ∧
    py_err (rt w') = Some (PyExc_MemoryError, "").
Proof.
  apply (begin_load_signature_cleans_up (boot objects 2 []) 100 101
           (mk_state [] 102 None)).
  - vm_compute. discriminate.
  - vm_compute. lia.
  - vm_compute. reflexivity.
  - discriminate.
  - vm_compute. discriminate.
  - discriminate.
Defined.

Lemma begin_load_signature_frees_null_witness :
  ∃ w',
    begin_load_signature (boot objects 0 []) = (w', None) ∧
    heap w' = heap (boot objects 0 []) ∧
    log w' = Call_rs_free_sumset NULL :: log (boot objects 0 []) ∧
    engine w' = rs_free_sumset scripted NULL (engine (boot objects 0 [])) ∧
    is_Some (py_err (rt w')).
Proof.
  apply (begin_load_signature_frees_null (boot objects 0 [])).
  reflexivity.
Defined.

Lemma begin_load_signature_engine_refuses_witness :
  ∃ w',
    begin_load_signature refusing = (w', None) ∧
    heap w' = heap refusing ∧
    log w'
      = Call_rs_free_sumset 1 :: Call_rs_loadsig_begin NULL 1 :: log refusing ∧
    engine w' = rs_free_sumset scripted 1 (mk_state [] 2 None) ∧
    py_err (rt w') = py_err (rt refusing).
Proof.
  apply (begin_load_signature_engine_refuses refusing 1 (mk_state [] 2 None)).
  - vm_compute. discriminate.
  - vm_compute. lia.
  - vm_compute. reflexivity.
Defined.

Lemma delta_job_outlives_signature_witness :
  ∃ w' cap,
    begin_create_delta loaded [23] = (w', cap) ∧ cap ≠ 23 ∧
    heap w' !! 23 = Some (sig_capsule_obj 101) ∧
    heap (Py_DECREF w' 23) !! 23 = None ∧
    heap (Py_DECREF w' 23) !! cap = Some (job_capsule_obj 102 NULL) ∧
    log (Py_DECREF w' 23)
      = Call_rs_free_sumset 101 :: Call_rs_delta_begin 101 102 :: log loaded.
Proof.
  apply (delta_job_outlives_signature loaded 23 101 102
           (mk_state [] 103 None)).
  - vm_compute. reflexivity.
  - discriminate.
  - vm_compute. discriminate.
  - vm_compute. lia.
  - vm_compute. reflexivity.
  - discriminate.
Defined.

Lemma begin_create_delta_null_witness :
  heap (begin_create_delta refusing [14]).1 = heap refusing ∧
  ((is_Some (py_err (rt (begin_create_delta refusing [14]).1)) ∧
    log (begin_create_delta refusing [14]).1 = log refusing ∧
    engine (begin_create_delta refusing [14]).1 = engine refusing)
   ∨ ∃ c sig e,
       [14] = [c] ∧ sig = capsule_pointer (heap refusing) c ∧
       rs_delta_begin scripted sig (engine refusing) = (NULL, e) ∧
       engine (begin_create_delta refusing [14]).1 = e ∧
       log (begin_create_delta refusing [14]).1
         = Call_rs_delta_begin sig NULL :: log refusing ∧
       py_err (rt (begin_create_delta refusing [14]).1)
         = py_err (rt refusing)).
Proof.
  apply (begin_create_delta_null refusing [14]).
  vm_compute. reflexivity.
Defined.

Lemma begin_patch_null_witness :
  heap (begin_patch refusing 21).1 = heap refusing ∧
  ((is_Some (py_err (rt (begin_patch refusing 21).1)) ∧
    log (begin_patch refusing 21).1 = log refusing ∧
    engine (begin_patch refusing 21).1 = engine refusing)
   ∨ ∃ e,
       rs_patch_begin scripted copy_callback 21 (engine refusing) = (NULL, e) ∧
       engine (begin_patch refusing 21).1 = e ∧
       log (begin_patch refusing 21).1
         = Call_rs_patch_begin 21 NULL :: log refusing ∧
       py_err (rt (begin_patch refusing 21).1) = py_err (rt refusing)).
Proof.
  apply (begin_patch_null refusing 21).
  reflexivity.
Defined.

Lemma patch_job_round_trip_witness :
  ∃ w' cap,
    begin_patch idle 21 = (w', cap) ∧ cap ≠ NULL ∧
    heap w' !! 21
      = Some (mk_obj (1 + 1)
                (PyFunction (λ mem _, (mem, Returns (PyLong 9))))) ∧
    heap (Py_DECREF w' cap) = heap idle ∧
    log (Py_DECREF w' cap)
      = Call_rs_job_free 100 :: Call_rs_patch_begin 21 100 :: log idle ∧
    engine (Py_DECREF w' cap)
      = rs_job_free scripted 100
          (mk_state [] 101 (Some (copy_callback, 21))).
Proof.
  apply (patch_job_round_trip idle 21 1
           (λ mem _, (mem, Returns (PyLong 9))) 100
           (mk_state [] 101 (Some (copy_callback, 21)))).
  - vm_compute. reflexivity.
  - lia.
  - discriminate.
  - vm_compute. discriminate.
  - vm_compute. lia.
  - reflexivity.
  - discriminate.
  - vm_compute. discriminate.
Defined.

Lemma copy_callback_answers_witness :
  (RS_DONE = RS_DONE ∨ RS_DONE = RS_MEM_ERROR ∨ RS_DONE = RS_IO_ERROR
   ∨ RS_DONE = RS_INTERNAL_ERROR) ∧
  length [Byte.x00; Byte.x00] = length [Byte.x00; Byte.x00] ∧
  (RS_DONE ≠ RS_DONE → 9 = 2) ∧
  (RS_DONE = RS_DONE → 0 ≤ 9 < 2 ^ 64) ∧
  (RS_DONE = RS_MEM_ERROR →
   [Byte.x00; Byte.x00] = [Byte.x00; Byte.x00] ∧
   py_calls (mk_rt None 3 [mk_pycall 21 [Byte.x00; Byte.x00] 0])
     = py_calls (mk_rt None 5 []) ∧
   py_err (mk_rt None 3 [mk_pycall 21 [Byte.x00; Byte.x00] 0]) = None) ∧
  (RS_DONE = RS_IO_ERROR →
   py_err (mk_rt None 3 [mk_pycall 21 [Byte.x00; Byte.x00] 0]) = None).
Proof.
  apply (copy_callback_answers (heap idle) 21 0 2 [Byte.x00; Byte.x00]
           (mk_rt None 5 []) RS_DONE 9 [Byte.x00; Byte.x00]
           (mk_rt None 3 [mk_pycall 21 [Byte.x00; Byte.x00] 0])).
  vm_compute. reflexivity.
Defined.

Lemma copy_callback_integer_out_of_range_witness :
  ∃ r' msg,
    copy_callback (heap counting) 33 0 2 [Byte.x00; Byte.x00]
      (mk_rt None 5 [])
      = (RS_DONE, 2 ^ 64 - 1,
         list_inserts 0 [Byte.x00; Byte.x00] [Byte.x00; Byte.x00], r') ∧
    py_err r' = Some (PyExc_OverflowError, msg).
Proof.
  apply (copy_callback_integer_out_of_range (heap counting) 33 1
           (λ mem _, (mem, Returns (PyLong (-1)))) 0 2
           [Byte.x00; Byte.x00] (mk_rt None 5 []) [Byte.x00; Byte.x00] (-1)).
  - vm_compute. reflexivity.
  - simpl. lia.
  - vm_compute. reflexivity.
  - left. lia.
Defined.

Lemma begin_create_signature_refused_witness :
  ∃ w',
    begin_create_signature 2 scripted_sig counting [30; 31] = (w', None) ∧
    py_err (rt w')
      = Some (PyExc_ValueError, rs_strerror scripted RS_PARAM_ERROR) ∧
    heap w' = heap counting ∧ engine w' = engine counting ∧
    log w' = log counting.
Proof.
  apply (begin_create_signature_refused 2 scripted_sig counting [30; 31]
           counting 10000 64 sig_args RS_PARAM_ERROR 0 0 64
           (engine counting)).
  - vm_compute. reflexivity.
  - reflexivity.
  - vm_compute. reflexivity.
  - discriminate.
Defined.

Lemma begin_create_signature_returns_witness :
  ∃ w' cap,
    begin_create_signature 2 scripted_sig counting [30; 32]
      = (w', Some (cap, to_Py_ssize_t 2048, to_Py_ssize_t 16)) ∧
    cap ≠ NULL ∧ heap counting !! cap = None ∧
    heap w' = <[cap := job_capsule_obj 100 NULL]> (heap counting) ∧
    engine w' = mk_state [] 101 None ∧ log w' = log counting ∧
    py_err (rt w') = py_err (rt counting).
Proof.
  apply (begin_create_signature_returns 2 scripted_sig counting [30; 32]
           counting 10000 16 sig_args 1920139575 2048 16 (engine counting)
           100 (mk_state [] 101 None)).
  - vm_compute. reflexivity.
  - reflexivity.
  - vm_compute. reflexivity.
  - vm_compute. reflexivity.
  - discriminate.
  - vm_compute. discriminate.
  - vm_compute. lia.
Defined.

Lemma begin_create_signature_ignores_arguments_witness :
  begin_create_signature 2 scripted_sig_old counting [30; 32]
  = begin_create_signature 2 scripted_sig_old counting [] ∧
  ∀ w' cap bl sl,
    begin_create_signature 2 scripted_sig_old counting [30; 32]
      = (w', Some (cap, bl, sl)) →
    bl = to_Py_ssize_t (RS_DEFAULT_BLOCK_LEN scripted_sig_old) ∧ sl = 8.
Proof.
  apply (begin_create_signature_ignores_arguments 2 scripted_sig_old counting
           [30; 32] counting (10000, 16)).
  - reflexivity.
  - vm_compute. reflexivity.
Defined.

Lemma begin_create_signature_without_job_witness :
  ∃ w' msg,
    begin_create_signature 2 scripted_sig refusing [30; 32] = (w', None) ∧
    py_err (rt w') = Some (PyExc_Object 2, msg) ∧
    heap w' = heap refusing ∧ engine w' = mk_state [] 1 None ∧
    log w' = log refusing.
Proof.
  apply (begin_create_signature_without_job 2 scripted_sig refusing [30; 32]
           refusing 10000 16 sig_args 1920139575 2048 16 (engine refusing)
           (mk_state [] 1 None)).
  - vm_compute. reflexivity.
  - reflexivity.
  - vm_compute. reflexivity.
  - vm_compute. reflexivity.
  - vm_compute. discriminate.
  - vm_compute. lia.
  - reflexivity.
Defined.

Lemma exec_module_ok_witness :
  ∃ w' m' size,
    exec_module (unloaded 5) ∅ = (w', m', 0) ∧
    RsyncError w' ≠ NULL ∧ heap (unloaded 5) !! RsyncError w' = None ∧
    heap w' !! RsyncError w'
      = Some (mk_obj 1 (PyObj (PyClass "rsync.RsyncError"))) ∧
    m' !! "RsyncError" = Some (RsyncError w') ∧
    m' !! "IO_BUFFER_SIZE" = Some size ∧
    heap w' !! size = Some (mk_obj 1 (PyObj (PyLong IO_BUFFER_SIZE))) ∧
    (∀ name, name ≠ "RsyncError" → name ≠ "IO_BUFFER_SIZE" →
             m' !! name = (∅ : gmap string ptr) !! name) ∧
    (∀ o, heap (unloaded 5) !! o = None
          ∨ heap w' !! o = heap (unloaded 5) !! o) ∧
    py_err (rt w') = py_err (rt (unloaded 5)) ∧
    engine w' = engine (unloaded 5) ∧ log w' = log (unloaded 5).
Proof.
  apply (exec_module_ok (unloaded 5) ∅).
  - simpl. lia.
  - reflexivity.
  - reflexivity.
Defined.


Lemma exec_module_fails_witness :
  ∃ w',
    exec_module (unloaded 0) ∅ = (w', ∅, -1) ∧ RsyncError w' = NULL ∧
    heap w' = heap (unloaded 0) ∧
    py_err (rt w') = Some (PyExc_MemoryError, "") ∧
    ∀ cb,
      PyCallable_Check (heap w') cb = true →
      ∃ w2 msg,
        begin_patch w' cb = (w2, NULL) ∧
        py_err (rt w2) = Some (PyExc_ValueError, msg) ∧
        log w2 = log w' ∧ engine w2 = engine w'.
Proof.
  apply (exec_module_fails (unloaded 0) ∅).
  reflexivity.
Defined.

Lemma signature_pair_round_trip_witness :
  ∃ w' jc sc,
    begin_load_signature idle = (w', Some (jc, sc)) ∧
    heap (Py_DECREF (Py_DECREF w' jc) sc) = heap idle ∧
    log (Py_DECREF w' jc)
      = Call_rs_job_free 100 :: Call_rs_loadsig_begin 100 101 :: log idle ∧
    heap (Py_DECREF w' jc) !! sc = Some (sig_capsule_obj 101) ∧
    log (Py_DECREF w' sc)
      = Call_rs_free_sumset 101 :: Call_rs_loadsig_begin 100 101
        :: log idle ∧
    heap (Py_DECREF w' sc) !! jc = Some (job_capsule_obj 100 NULL) ∧
    log (Py_DECREF (Py_DECREF w' jc) sc)
      = Call_rs_free_sumset 101 :: Call_rs_job_free 100
        :: Call_rs_loadsig_begin 100 101 :: log idle.
Proof.
  apply (signature_pair_round_trip idle 100 101 (mk_state [] 102 None)).
  - vm_compute. discriminate.
  - vm_compute. lia.
  - vm_compute. reflexivity.
  - discriminate.
  - vm_compute. discriminate.
  - discriminate.
Defined.

Lemma step_delivers_output_witness :
  ∃ w',
    iter_job 1 copying [10; 11; 12]
      = Some (w', Some (bool_decide (RS_DONE = RS_DONE),
                        avail_in (mk_buffers 3 0 0 2 0),
                        Z.of_nat (length ["x"; "y"]%byte))) ∧
    take (length ["x"; "y"]%byte) (object_bytes (heap w') 12)
      = ["x"; "y"]%byte ∧
    PyByteArray_GET_SIZE w' 12 = PyByteArray_GET_SIZE copying 12 ∧
    log w'
      = Call_rs_job_iter 100 (ls_buffer copying_entered) RS_DONE
          (mk_buffers 3 0 0 2 0)
        :: log copying.
Proof.
  apply (step_delivers_output 0 copying [10; 11; 12]
           (iter_job_prologue copying [10; 11; 12]).1 100 (mk_pybuf 11 3) 12
           copying_entered RS_DONE (mk_buffers 3 0 0 2 0) ["x"; "y"]%byte
           (mk_rt None 5 []) (mk_state [] 100 None)).
  - vm_compute. reflexivity.
  - vm_compute. reflexivity.
  - left. reflexivity.
  - reflexivity.
  - vm_compute. discriminate.
  - vm_compute. split; discriminate.
  - vm_compute. discriminate.
  - vm_compute. lia.
Defined.

End FurtherExamples.
